(** * perfinspector: the diagnostic core, embedded and verified

    A shallow embedding of the Go sources of perfinspector:

    - [GoStrings]: the functions of Go's [strings] package that the code calls;
    - [Float64]: IEEE 754 binary64 arithmetic (Go's [float64]) and the
      functions of Go's [math] package that the code calls;
    - [Locator]: the classifier, the stack-frame extractor, the extraction
      and aggregation of call chains, the hot paths and the category summary
      of package [locator];
    - [Analyzer]: profile-type detection, trend analysis, heap insights and
      the formatting of integers of package [analyzer];
    - [Rules]: condition evaluation, correlation and de-duplication of
      package [rules].

    Go's [int] and [int64] values are [Z], with the two's-complement wrap-around
    of 64-bit arithmetic written out where the code does arithmetic on them.
    Go strings are byte strings and so are Rocq's. *)

From Stdlib Require Import ZArith List Bool String Ascii Lia Sorted Permutation.
From Stdlib Require Import Floats.SpecFloat.
Import ListNotations.

Open Scope string_scope.
Open Scope Z_scope.

(* ================================================================== *)
(** * Go's [strings] package *)
(* ================================================================== *)

Module GoStrings.

(** [strings.HasPrefix(s, p)]. *)
Definition HasPrefix (s p : string) : bool := String.prefix p s.

(** [strings.Index(s, sub)]: the byte index of the first occurrence of [sub]
    in [s], or -1. *)
Fixpoint Index_from (i : Z) (s sub : string) : Z :=
  if String.prefix sub s then i
  else match s with
       | EmptyString => -1
       | String _ s' => Index_from (i + 1) s' sub
       end.

Definition Index (s sub : string) : Z := Index_from 0 s sub.

(** [strings.Contains(s, sub)] is [Index(s, sub) >= 0]. *)
Definition Contains (s sub : string) : bool := 0 <=? Index s sub.

(** [strings.LastIndex(s, sub)]: the byte index of the last occurrence. *)
Fixpoint LastIndex_from (i : Z) (s sub : string) (last : Z) : Z :=
  let last' := if String.prefix sub s then i else last in
  match s with
  | EmptyString => last'
  | String _ s' => LastIndex_from (i + 1) s' sub last'
  end.

Definition LastIndex (s sub : string) : Z := LastIndex_from 0 s sub (-1).

(** The slice expressions [s[:hi]] and [s[lo:]]. *)
Definition slice_to (s : string) (hi : Z) : string :=
  String.substring 0 (Z.to_nat hi) s.

Definition slice_from (s : string) (lo : Z) : string :=
  String.substring (Z.to_nat lo) (String.length s - Z.to_nat lo) s.

(** [strings.Join(xs, sep)]; the specification side of the key theorems. *)
Fixpoint Join (xs : list string) (sep : string) : string :=
  match xs with
  | [] => EmptyString
  | [x] => x
  | x :: rest => x ++ sep ++ Join rest sep
  end.

End GoStrings.

(* ================================================================== *)
(** * Go's [int64] *)
(* ================================================================== *)

Module Int64.

(** The value of a 64-bit two's-complement result. *)
Definition wrap (z : Z) : Z := (z + 2 ^ 63) mod 2 ^ 64 - 2 ^ 63.

Definition add (a b : Z) : Z := wrap (a + b).
Definition sub (a b : Z) : Z := wrap (a - b).

End Int64.

(* ================================================================== *)
(** * Go's [float64] and [math] package *)
(* ================================================================== *)

(** Go's [float64] is IEEE 754 binary64 with round-to-nearest-even; its
    operations are those of the Standard Library's executable specification
    ([spec_float], one NaN) at precision 53 and maximal exponent 1024.  Each
    operation rounds on its own (no fused multiply-add, as on amd64). *)
Module Float64.

Definition prec : Z := 53.
Definition emax : Z := 1024.

Definition float64 : Type := spec_float.

Definition add : float64 -> float64 -> float64 := SFadd prec emax.
Definition sub : float64 -> float64 -> float64 := SFsub prec emax.
Definition mul : float64 -> float64 -> float64 := SFmul prec emax.
Definition div : float64 -> float64 -> float64 := SFdiv prec emax.
Definition neg : float64 -> float64 := SFopp.

(** The comparisons [==], [<], [<=], [>], [>=]: false on NaN. *)
Definition eqb : float64 -> float64 -> bool := SFeqb.
Definition ltb : float64 -> float64 -> bool := SFltb.
Definition leb : float64 -> float64 -> bool := SFleb.
Definition gtb (x y : float64) : bool := SFltb y x.
Definition geb (x y : float64) : bool := SFleb y x.

(** The conversion [float64(n)] of an integer, rounded to nearest even. *)
Definition of_int (n : Z) : float64 := binary_normalize prec emax n 0 false.

(** A decimal constant [n / d], rounded once as the compiler does. *)
Definition of_ratio (n d : Z) : float64 := div (of_int n) (of_int d).

Definition zero : float64 := S754_zero false.
Definition one : float64 := of_int 1.

Definition MaxFloat64 : float64 := SFmax_float prec emax.

(** [math.IsNaN(f)] is [f != f]. *)
Definition IsNaN (f : float64) : bool := negb (eqb f f).

(** [math.IsInf(f, sign)]:
    [sign >= 0 && f > MaxFloat64 || sign <= 0 && f < -MaxFloat64]. *)
Definition IsInf (f : float64) (sign : Z) : bool :=
  ((0 <=? sign) && gtb f MaxFloat64) || ((sign <=? 0) && ltb f (neg MaxFloat64)).

(** [math.Signbit(x)]. *)
Definition Signbit (x : float64) : bool :=
  match x with
  | S754_zero s | S754_infinity s | S754_finite s _ _ => s
  | S754_nan => false
  end.

(** [math.Min(x, y)] and [math.Max(x, y)], with their special cases in the
    order of the library's portable implementation. *)
Definition Min (x y : float64) : float64 :=
  if IsInf x (-1) || IsInf y (-1) then S754_infinity true
  else if IsNaN x || IsNaN y then S754_nan
  else if eqb x zero && eqb x y then (if Signbit x then x else y)
  else if ltb x y then x
  else y.

Definition Max (x y : float64) : float64 :=
  if IsInf x 1 || IsInf y 1 then S754_infinity false
  else if IsNaN x || IsNaN y then S754_nan
  else if eqb x zero && eqb x y then (if Signbit x then y else x)
  else if gtb x y then x
  else y.

(** A well-formed binary64 value: the mantissa and exponent of a finite
    number are in canonical form and in range. *)
Definition is_float64 (x : float64) : bool := valid_binary prec emax x.

(** Neither NaN nor an infinity. *)
Definition is_finite (x : float64) : bool :=
  match x with
  | S754_zero _ | S754_finite _ _ _ => true
  | S754_infinity _ | S754_nan => false
  end.

Definition is_zero (x : float64) : bool :=
  match x with
  | S754_zero _ => true
  | _ => false
  end.

End Float64.

(* ================================================================== *)
(** * Package locator *)
(* ================================================================== *)

Module Locator.
Import GoStrings.

(** ** Types *)

Inductive CodeCategory : Type :=
| CategoryRuntime
| CategoryStdlib
| CategoryThirdParty
| CategoryBusiness
| CategoryUnknown.

Definition CodeCategory_eqb (a b : CodeCategory) : bool :=
  match a, b with
  | CategoryRuntime, CategoryRuntime
  | CategoryStdlib, CategoryStdlib
  | CategoryThirdParty, CategoryThirdParty
  | CategoryBusiness, CategoryBusiness
  | CategoryUnknown, CategoryUnknown => true
  | _, _ => false
  end.

Record StackFrame : Type := mkStackFrame {
  FunctionName : string;
  ShortName : string;
  PackageName : string;
  FilePath : string;
  LineNumber : Z;
  Category : CodeCategory;
  Flat : Z;
  FlatPct : Float64.float64;
  Cum : Z;
  CumPct : Float64.float64
}.

Record LocatorConfig : Type := mkLocatorConfig {
  ModuleName : string;
  ThirdPartyPrefixes : list string;
  MaxCallStackDepth : Z;
  MaxHotPaths : Z
}.

(** ** The classifier *)

Definition goStdlibPackages : list string :=
  [ "archive"; "archive/tar"; "archive/zip"; "bufio"; "builtin"; "bytes";
    "compress"; "compress/bzip2"; "compress/flate"; "compress/gzip";
    "compress/lzw"; "compress/zlib"; "container"; "container/heap";
    "container/list"; "container/ring"; "context"; "crypto"; "crypto/aes";
    "crypto/cipher"; "crypto/des"; "crypto/dsa"; "crypto/ecdh";
    "crypto/ecdsa"; "crypto/ed25519"; "crypto/elliptic"; "crypto/hmac";
    "crypto/md5"; "crypto/rand"; "crypto/rc4"; "crypto/rsa"; "crypto/sha1";
    "crypto/sha256"; "crypto/sha512"; "crypto/subtle"; "crypto/tls";
    "crypto/x509"; "crypto/x509/pkix"; "database"; "database/sql";
    "database/sql/driver"; "debug"; "debug/buildinfo"; "debug/dwarf";
    "debug/elf"; "debug/gosym"; "debug/macho"; "debug/pe"; "debug/plan9obj";
    "embed"; "encoding"; "encoding/ascii85"; "encoding/asn1";
    "encoding/base32"; "encoding/base64"; "encoding/binary"; "encoding/csv";
    "encoding/gob"; "encoding/hex"; "encoding/json"; "encoding/pem";
    "encoding/xml"; "errors"; "expvar"; "flag"; "fmt"; "go"; "go/ast";
    "go/build"; "go/build/constraint"; "go/constant"; "go/doc";
    "go/doc/comment"; "go/format"; "go/importer"; "go/parser"; "go/printer";
    "go/scanner"; "go/token"; "go/types"; "hash"; "hash/adler32";
    "hash/crc32"; "hash/crc64"; "hash/fnv"; "hash/maphash"; "html";
    "html/template"; "image"; "image/color"; "image/color/palette";
    "image/draw"; "image/gif"; "image/jpeg"; "image/png"; "index";
    "index/suffixarray"; "io"; "io/fs"; "io/ioutil"; "log"; "log/slog";
    "log/syslog"; "maps"; "math"; "math/big"; "math/bits"; "math/cmplx";
    "math/rand"; "mime"; "mime/multipart"; "mime/quotedprintable"; "net";
    "net/http"; "net/http/cgi"; "net/http/cookiejar"; "net/http/fcgi";
    "net/http/httptest"; "net/http/httptrace"; "net/http/httputil";
    "net/http/pprof"; "net/mail"; "net/netip"; "net/rpc"; "net/rpc/jsonrpc";
    "net/smtp"; "net/textproto"; "net/url"; "os"; "os/exec"; "os/signal";
    "os/user"; "path"; "path/filepath"; "plugin"; "reflect"; "regexp";
    "regexp/syntax"; "slices"; "sort"; "strconv"; "strings"; "sync";
    "sync/atomic"; "syscall"; "testing"; "testing/fstest"; "testing/iotest";
    "testing/quick"; "text"; "text/scanner"; "text/tabwriter";
    "text/template"; "text/template/parse"; "time"; "time/tzdata"; "unicode";
    "unicode/utf16"; "unicode/utf8"; "unsafe"; "internal" ].

(** The [map[string]bool] of the classifier is only ever read and holds
    [true] exactly at the keys inserted by [NewClassifier]. *)
Record Classifier : Type := mkClassifier {
  moduleName : string;
  thirdPartyPrefixes : list string;
  stdlibPackages : string -> bool
}.

Definition NewClassifier (config : LocatorConfig) : Classifier :=
  {| moduleName := ModuleName config;
     thirdPartyPrefixes := ThirdPartyPrefixes config;
     stdlibPackages := fun pkg => existsb (String.eqb pkg) goStdlibPackages |}.

Definition isRuntimePackage (c : Classifier) (packageName : string) : bool :=
  String.eqb packageName "runtime" || HasPrefix packageName "runtime/".

Definition isStdlibPackage (c : Classifier) (packageName : string) : bool :=
  if stdlibPackages c packageName then true
  else
    let idx := Index packageName "/" in
    let topLevel := if 0 <? idx then slice_to packageName idx else packageName in
    if stdlibPackages c topLevel && negb (Contains topLevel ".") then true
    else if HasPrefix packageName "golang.org/x/" then true
    else false.

Definition isBusinessPackage (c : Classifier) (packageName : string) : bool :=
  if String.eqb packageName "main" || HasPrefix packageName "main." then true
  else if negb (Contains packageName "/")
          && negb (isRuntimePackage c packageName)
          && negb (isStdlibPackage c packageName) then true
  else if negb (String.eqb (moduleName c) EmptyString) then
    String.eqb packageName (moduleName c)
    || HasPrefix packageName (moduleName c ++ "/")
  else false.

Definition thirdPartyDomains : list string :=
  [ "github.com/"; "gitlab.com/"; "bitbucket.org/"; "gopkg.in/";
    "go.uber.org/"; "google.golang.org/"; "cloud.google.com/"; "k8s.io/";
    "sigs.k8s.io/" ].

(** The second loop of [isThirdPartyPackage]: it returns at the first domain
    that is a prefix of the package. *)
Fixpoint thirdPartyDomain_loop (c : Classifier) (packageName : string)
    (domains : list string) : bool :=
  match domains with
  | [] => false
  | domain :: rest =>
      if HasPrefix packageName domain then
        if negb (String.eqb (moduleName c) EmptyString)
           && HasPrefix packageName (moduleName c) then false
        else true
      else thirdPartyDomain_loop c packageName rest
  end.

Definition isThirdPartyPackage (c : Classifier) (packageName : string) : bool :=
  if existsb (fun prefix => HasPrefix packageName prefix) (thirdPartyPrefixes c)
  then true
  else thirdPartyDomain_loop c packageName thirdPartyDomains.

Definition Classify (c : Classifier) (packageName : string) : CodeCategory :=
  if String.eqb packageName EmptyString then CategoryUnknown
  else if isRuntimePackage c packageName then CategoryRuntime
  else if isStdlibPackage c packageName then CategoryStdlib
  else if isBusinessPackage c packageName then CategoryBusiness
  else if isThirdPartyPackage c packageName then CategoryThirdParty
  else CategoryUnknown.

(** ** The decoded profile (github.com/google/pprof/profile), as far as the
    code reads it.  A nil pointer is [None]. *)

Record Function : Type := mkFunction {
  Function_Name : string;
  Function_Filename : string
}.

Record Line : Type := mkLine {
  Line_Function : option Function;
  Line_Line : Z
}.

Record Location : Type := mkLocation {
  Location_Line : list Line
}.

(** ** The extractor (extractor.go) *)

Record Extractor : Type := mkExtractor {
  classifier : option Classifier
}.

Definition NewExtractor (c : option Classifier) : Extractor :=
  {| classifier := c |}.

Definition searchStart_of (functionName : string) : Z :=
  let lastSlash := LastIndex functionName "/" in
  if 0 <=? lastSlash then lastSlash + 1 else 0.

Definition ExtractPackageName (functionName : string) : string :=
  if String.eqb functionName EmptyString then EmptyString
  else
    let searchStart := searchStart_of functionName in
    let dotIndex := Index (slice_from functionName searchStart) "." in
    if dotIndex <? 0 then functionName
    else slice_to functionName (searchStart + dotIndex).

Definition ExtractShortName (functionName : string) : string :=
  if String.eqb functionName EmptyString then EmptyString
  else
    let searchStart := searchStart_of functionName in
    let dotIndex := Index (slice_from functionName searchStart) "." in
    if dotIndex <? 0 then functionName
    else slice_from functionName (searchStart + dotIndex + 1).

(** The frame [ExtractStackFrame] starts from. *)
Definition unknownFrame : StackFrame :=
  {| FunctionName := "unknown";
     ShortName := "unknown";
     PackageName := EmptyString;
     FilePath := "unknown";
     LineNumber := 0;
     Category := CategoryUnknown;
     Flat := 0;
     FlatPct := Float64.zero;
     Cum := 0;
     CumPct := Float64.zero |}.

(** [line = &loc.Line[0]] when [line] is nil and the location has lines. *)
Definition resolveLine (loc : option Location) (line : option Line) : option Line :=
  match line, loc with
  | None, Some l =>
      match Location_Line l with
      | first :: _ => Some first
      | [] => None
      end
  | _, _ => line
  end.

Definition ExtractStackFrame (e : Extractor) (loc : option Location)
    (line : option Line) : StackFrame :=
  let frame := unknownFrame in
  match resolveLine loc line with
  | None => frame
  | Some ln =>
      match Line_Function ln with
      | None => frame
      | Some fn =>
          let '(functionName, shortName, packageName) :=
            if negb (String.eqb (Function_Name fn) EmptyString) then
              (Function_Name fn, ExtractShortName (Function_Name fn),
               ExtractPackageName (Function_Name fn))
            else (FunctionName frame, ShortName frame, PackageName frame) in
          let filePath :=
            if negb (String.eqb (Function_Filename fn) EmptyString) then Function_Filename fn
            else FilePath frame in
          let lineNumber :=
            if 0 <? Line_Line ln then Line_Line ln else LineNumber frame in
          let category :=
            match classifier e with
            | Some c => Classify c packageName
            | None => Category frame
            end in
          {| FunctionName := functionName;
             ShortName := shortName;
             PackageName := packageName;
             FilePath := filePath;
             LineNumber := lineNumber;
             Category := category;
             Flat := Flat frame;
             FlatPct := FlatPct frame;
             Cum := Cum frame;
             CumPct := CumPct frame |}
      end
  end.

(** ** The path analyzer *)

Record CallChain : Type := mkCallChain {
  Frames : list StackFrame;
  TotalValue : Z;
  TotalPct : Float64.float64;
  SampleCount : Z;
  CategoryBreakdown : list (CodeCategory * Z);
  BoundaryPoints : list Z
}.

(** The loop [for i, fn := range names { if i > 0 { key += "|" }; key += fn }]. *)
Fixpoint appendNames (i : Z) (key : string) (names : list string) : string :=
  match names with
  | [] => key
  | fn :: rest =>
      let key1 := if 0 <? i then key ++ "|" else key in
      appendNames (i + 1) (key1 ++ fn) rest
  end.

(** The loop [for i := 0; i < maxFrames; i++ { ...; key += frames[i].FunctionName }],
    run for [todo] more iterations; [frames[i]] is always in range there. *)
Fixpoint appendFrames (todo : nat) (i : nat) (frames : list StackFrame)
    (key : string) : string :=
  match todo with
  | O => key
  | S todo' =>
      match nth_error frames i with
      | Some frame =>
          let key1 := if (0 <? Z.of_nat i) then key ++ "|" else key in
          appendFrames todo' (S i) frames (key1 ++ FunctionName frame)
      | None => key
      end
  end.

(** The first loop of [generateSmartCallChainKey]. *)
Definition collectBusinessNames (frames : list StackFrame) : list string :=
  fold_left
    (fun businessFrames frame =>
       if CodeCategory_eqb (Category frame) CategoryBusiness
       then (businessFrames ++ [FunctionName frame])%list
       else businessFrames)
    frames [].

Definition generateSmartCallChainKey (frames : list StackFrame) : string :=
  if (Z.of_nat (List.length frames) =? 0) then EmptyString
  else
    let businessFrames := collectBusinessNames frames in
    if (0 <? Z.of_nat (List.length businessFrames)) then
      appendNames 0 "business:" businessFrames
    else
      let maxFrames :=
        if (Z.of_nat (List.length frames) <? 5) then Z.of_nat (List.length frames)
        else 5 in
      appendFrames (Z.to_nat maxFrames) 0 frames "system:".

(** [generateCallChainKey]: the names of all frames, joined by "|". *)
Definition generateCallChainKey (frames : list StackFrame) : string :=
  if (Z.of_nat (List.length frames) =? 0) then EmptyString
  else appendNames 0 EmptyString (map FunctionName frames).

(** The map [aggregated] of [AggregateCallChains], as an association list in
    order of first insertion. *)
Fixpoint lookupChain (key : string) (m : list (string * CallChain)) : option CallChain :=
  match m with
  | [] => None
  | (k, c) :: rest => if String.eqb k key then Some c else lookupChain key rest
  end.

Fixpoint updateChain (key : string) (f : CallChain -> CallChain)
    (m : list (string * CallChain)) : list (string * CallChain) :=
  match m with
  | [] => []
  | (k, c) :: rest =>
      if String.eqb k key then (k, f c) :: rest
      else (k, c) :: updateChain key f rest
  end.

Definition accumulate (chain existing : CallChain) : CallChain :=
  {| Frames := Frames existing;
     TotalValue := Int64.add (TotalValue existing) (TotalValue chain);
     TotalPct := Float64.add (TotalPct existing) (TotalPct chain);
     SampleCount := Int64.add (SampleCount existing) (SampleCount chain);
     CategoryBreakdown := CategoryBreakdown existing;
     BoundaryPoints := BoundaryPoints existing |}.

(** The source holds two versions of the path analyzer.  Their
    [AggregateCallChains] differ in one call, the key under which a chain is
    filed: [keyOf] below. *)
Definition aggregateStep (keyOf : list StackFrame -> string)
    (aggregated : list (string * CallChain)) (chain : CallChain)
    : list (string * CallChain) :=
  let key := keyOf (Frames chain) in
  match lookupChain key aggregated with
  | Some _ => updateChain key (accumulate chain) aggregated
  | None => (aggregated ++ [(key, chain)])%list
  end.

Definition aggregateMap (keyOf : list StackFrame -> string)
    (chains : list CallChain) : list (string * CallChain) :=
  fold_left (aggregateStep keyOf) chains [].

(** The version of the analyzer that has [generateSmartCallChainKey] (and
    reads cumulative values through [ExtractCallChainWithCumValue]).  The
    result slice is filled by ranging over the map, in an order Go leaves
    unspecified; its callers sort it.  Here: order of first insertion. *)
Definition AggregateCallChains (chains : list CallChain) : list CallChain :=
  map snd (aggregateMap generateSmartCallChainKey chains).

(** The version without the smart key. *)
Module Plain.
Definition AggregateCallChains (chains : list CallChain) : list CallChain :=
  map snd (aggregateMap generateCallChainKey chains).
End Plain.

(** ** Samples and call chains *)

Record ValueType : Type := mkValueType {
  Type_ : string;
  Unit : string
}.

(** A sample: its values and its locations, leaf first; a location pointer
    may be nil. *)
Record Sample : Type := mkSample {
  Value : list Z;
  Sample_Location : list (option Location)
}.

(** The samples of a decoded profile are not nil: [AnalyzeHotPaths] reads
    the values of each without a test. *)
Record Profile : Type := mkProfile {
  SampleType : list ValueType;
  Samples : list Sample
}.

(** [m[cat]++] on a [map[CodeCategory]int], kept as an association list in
    order of first insertion. *)
Fixpoint incrCategory (cat : CodeCategory) (m : list (CodeCategory * Z))
    : list (CodeCategory * Z) :=
  match m with
  | [] => [(cat, Int64.add 0 1)]
  | (k, v) :: rest =>
      if CodeCategory_eqb k cat then (k, Int64.add v 1) :: rest
      else (k, v) :: incrCategory cat rest
  end.

(** The state of the two loops of [ExtractCallChain]: the chain under
    construction and [prevCategory], which is unset ([None]) before the first
    frame. *)
Record ChainState : Type := mkChainState {
  cs_frames : list StackFrame;
  cs_breakdown : list (CodeCategory * Z);
  cs_boundaries : list Z;
  cs_prev : option CodeCategory
}.

Definition differsFrom (cat : CodeCategory) (prev : option CodeCategory) : bool :=
  match prev with
  | Some p => negb (CodeCategory_eqb cat p)
  | None => true
  end.

(** The body of the inner loop, for the frame just extracted. *)
Definition pushFrame (st : ChainState) (frame : StackFrame) : ChainState :=
  let frameIndex := Z.of_nat (List.length (cs_frames st)) in
  {| cs_frames := (cs_frames st ++ [frame])%list;
     cs_breakdown := incrCategory (Category frame) (cs_breakdown st);
     cs_boundaries :=
       if (0 <? frameIndex) && differsFrom (Category frame) (cs_prev st)
       then (cs_boundaries st ++ [frameIndex])%list
       else cs_boundaries st;
     cs_prev := Some (Category frame) |}.

(** [for j := len(loc.Line) - 1; j >= 0; j--]: the lines of a location, last
    first. *)
Definition lineLoop (e : Extractor) (loc : Location) (st : ChainState) : ChainState :=
  fold_left
    (fun st line => pushFrame st (ExtractStackFrame e (Some loc) (Some line)))
    (rev (Location_Line loc)) st.

(** [for i := numLocs - 1; i >= 0; i--]: the locations, last first, nil
    locations skipped. *)
Definition locationLoop (e : Extractor) (locations : list (option Location))
    (st : ChainState) : ChainState :=
  fold_left
    (fun st loc =>
       match loc with
       | Some loc => lineLoop e loc st
       | None => st
       end)
    (rev locations) st.

Definition noChainState : ChainState :=
  {| cs_frames := []; cs_breakdown := []; cs_boundaries := []; cs_prev := None |}.

Definition ExtractCallChain (e : Extractor) (sample : option Sample)
    (valueIndex : Z) (totalValue : Z) : CallChain :=
  match sample with
  | None =>
      {| Frames := []; TotalValue := 0; TotalPct := Float64.zero;
         SampleCount := 1; CategoryBreakdown := []; BoundaryPoints := [] |}
  | Some sample =>
      let value :=
        if (0 <=? valueIndex) && (valueIndex <? Z.of_nat (List.length (Value sample)))
        then nth (Z.to_nat valueIndex) (Value sample) 0
        else 0 in
      let pct :=
        if 0 <? totalValue
        then Float64.mul (Float64.div (Float64.of_int value) (Float64.of_int totalValue))
                         (Float64.of_int 100)
        else Float64.zero in
      let st := locationLoop e (Sample_Location sample) noChainState in
      {| Frames := cs_frames st; TotalValue := value; TotalPct := pct;
         SampleCount := 1; CategoryBreakdown := cs_breakdown st;
         BoundaryPoints := cs_boundaries st |}
  end.

Definition ExtractCallChainWithCumValue (e : Extractor) (sample : Sample)
    (totalValue : Z) : CallChain :=
  let cumIndex := if Z.of_nat (List.length (Value sample)) <=? 1 then 0 else 1 in
  ExtractCallChain e (Some sample) cumIndex totalValue.

(** ** Boundaries, business frames and category counts *)

(** [for i := from; i < len(frames); i++] with [prev] = [frames[i-1]]. *)
Fixpoint boundariesFrom (i : Z) (prev : StackFrame) (rest : list StackFrame)
    : list Z :=
  match rest with
  | [] => []
  | frame :: rest' =>
      if negb (CodeCategory_eqb (Category frame) (Category prev))
      then i :: boundariesFrom (i + 1) frame rest'
      else boundariesFrom (i + 1) frame rest'
  end.

(** For at most one frame the function returns nil, otherwise the slice the
    loop fills; both are the empty list here. *)
Definition FindBoundaryPoints (frames : list StackFrame) : list Z :=
  match frames with
  | [] => []
  | first :: rest => boundariesFrom 1 first rest
  end.

Fixpoint businessFrom (i : Z) (frames : list StackFrame) : list Z :=
  match frames with
  | [] => []
  | frame :: rest =>
      if CodeCategory_eqb (Category frame) CategoryBusiness
      then i :: businessFrom (i + 1) rest
      else businessFrom (i + 1) rest
  end.

Definition FindBusinessFrames (frames : list StackFrame) : list Z :=
  businessFrom 0 frames.

Definition calculateCategoryBreakdown (frames : list StackFrame)
    : list (CodeCategory * Z) :=
  fold_left (fun breakdown frame => incrCategory (Category frame) breakdown)
            frames [].

(** The sum over the map, in the order [range] happens to visit it: the
    order of the list given. *)
Definition GetCategoryBreakdownSum (breakdown : list (CodeCategory * Z)) : Z :=
  fold_left (fun sum entry => Int64.add sum (snd entry)) breakdown 0.

(** ** Hot paths *)

Record HotPath : Type := mkHotPath {
  Chain : CallChain;
  BusinessFrames : list Z;
  RootCauseIndex : Z;
  ProfileType : string
}.

Definition GetRootCause (h : HotPath) : option StackFrame :=
  if (RootCauseIndex h <? 0)
     || (Z.of_nat (List.length (Frames (Chain h))) <=? RootCauseIndex h)
  then None
  else nth_error (Frames (Chain h)) (Z.to_nat (RootCauseIndex h)).

Definition HasBusinessCode (c : CallChain) : bool :=
  existsb (fun frame => CodeCategory_eqb (Category frame) CategoryBusiness) (Frames c).

Record PathAnalyzer : Type := mkPathAnalyzer {
  extractor : Extractor;
  config : LocatorConfig
}.

Definition NewPathAnalyzer (e : Extractor) (config : LocatorConfig) : PathAnalyzer :=
  {| extractor := e;
     config :=
       {| ModuleName := ModuleName config;
          ThirdPartyPrefixes := ThirdPartyPrefixes config;
          MaxCallStackDepth :=
            if MaxCallStackDepth config <=? 0 then 10 else MaxCallStackDepth config;
          MaxHotPaths :=
            if MaxHotPaths config <=? 0 then 5 else MaxHotPaths config |} |}.

(** The body of the loop that turns the top chains into hot paths.  The
    slice expression [chain.Frames[:MaxCallStackDepth]] needs a bound that is
    not negative, which [NewPathAnalyzer] ensures. *)
Definition toHotPath (a : PathAnalyzer) (profileType : string) (chain : CallChain)
    : HotPath :=
  let chain :=
    if MaxCallStackDepth (config a) <? Z.of_nat (List.length (Frames chain)) then
      let frames := firstn (Z.to_nat (MaxCallStackDepth (config a))) (Frames chain) in
      {| Frames := frames;
         TotalValue := TotalValue chain;
         TotalPct := TotalPct chain;
         SampleCount := SampleCount chain;
         CategoryBreakdown := calculateCategoryBreakdown frames;
         BoundaryPoints := FindBoundaryPoints frames |}
    else chain in
  let businessFrames := FindBusinessFrames (Frames chain) in
  let rootCauseIndex :=
    if 0 <? Z.of_nat (List.length businessFrames)
    then nth (List.length businessFrames - 1) businessFrames (-1)
    else -1 in
  {| Chain := chain;
     BusinessFrames := businessFrames;
     RootCauseIndex := rootCauseIndex;
     ProfileType := profileType |}.

(** The search for the value column: the first entry of type "cpu" or unit
    "nanoseconds", with its index. *)
Fixpoint findCpuColumn (i : Z) (sts : list ValueType) : option Z :=
  match sts with
  | [] => None
  | st :: rest =>
      if String.eqb (Type_ st) "cpu" || String.eqb (Unit st) "nanoseconds"
      then Some i
      else findCpuColumn (i + 1) rest
  end.

Definition selectBestValueIndex (p : Profile) : Z :=
  if Z.of_nat (List.length (SampleType p)) =? 0 then 0
  else match findCpuColumn 0 (SampleType p) with
       | Some i => i
       | None => 0
       end.

(** [valueIndex] and [useCumValue] as [AnalyzeHotPaths] chooses them. *)
Definition chooseValueIndex (p : Profile) (profileType : string) : Z * bool :=
  if 1 <? Z.of_nat (List.length (SampleType p)) then
    match findCpuColumn 0 (SampleType p) with
    | Some i => (i, true)
    | None => (0, false)
    end
  else if String.eqb profileType "cpu" then
    match Samples p with
    | first :: _ =>
        if 1 <? Z.of_nat (List.length (Value first)) then (1, true) else (0, false)
    | [] => (0, false)
    end
  else (0, false).

(** [totalValue += sample.Value[valueIndex]] over the samples that have the
    column. *)
Definition sumColumn (valueIndex : Z) (samples : list Sample) : Z :=
  fold_left
    (fun total sample =>
       if valueIndex <? Z.of_nat (List.length (Value sample))
       then Int64.add total (nth (Z.to_nat valueIndex) (Value sample) 0)
       else total)
    samples 0.

(** The chains of the samples, those without frames left out. *)
Definition extractChains (e : Extractor) (valueIndex : Z) (useCumValue : bool)
    (totalValue : Z) (samples : list Sample) : list CallChain :=
  filter (fun chain => (0 <? Z.of_nat (List.length (Frames chain))))
    (map (fun sample =>
            if useCumValue then ExtractCallChainWithCumValue e sample totalValue
            else ExtractCallChain e (Some sample) valueIndex totalValue)
         samples).

Section HotPaths.

(** [AggregateCallChains] fills its result by ranging over a map and
    [sort.Slice] then sorts it by descending [TotalValue] without keeping the
    order of equal elements: [arrange] stands for the two together, the
    order in which the aggregated chains reach the top-N cut. *)
Variable arrange : list CallChain -> list CallChain.

Definition AnalyzeHotPaths (a : PathAnalyzer) (p : option Profile)
    (profileType : string) : list HotPath :=
  match p with
  | None => []
  | Some p =>
      if Z.of_nat (List.length (Samples p)) =? 0 then []
      else
        let '(valueIndex, useCumValue) := chooseValueIndex p profileType in
        let totalValue := sumColumn valueIndex (Samples p) in
        if totalValue =? 0 then []
        else
          let chains :=
            extractChains (extractor a) valueIndex useCumValue totalValue (Samples p) in
          let aggregated := arrange (AggregateCallChains chains) in
          let maxPaths :=
            if Z.of_nat (List.length aggregated) <? MaxHotPaths (config a)
            then Z.of_nat (List.length aggregated)
            else MaxHotPaths (config a) in
          map (toHotPath a profileType) (firstn (Z.to_nat maxPaths) aggregated)
  end.

End HotPaths.

(** ** Strings of frames and chains *)

(** [string(rune('0' + d))] for a digit [d]: one byte. *)
Definition digitString (d : Z) : string :=
  String (ascii_of_nat (Z.to_nat (48 + d))) EmptyString.

(** The loop [for n > 0 { s = string(rune('0'+n%10)) + s; n /= 10 }], with a
    bound on its iterations. *)
Fixpoint itoa_loop (fuel : nat) (n : Z) (s : string) : string :=
  match fuel with
  | O => s
  | S fuel' =>
      if 0 <? n then itoa_loop fuel' (n / 10) (digitString (n mod 10) ++ s) else s
  end.

(** The loop runs once per decimal digit of [n]; the number of binary digits
    is enough. *)
Definition digitsOf (n : Z) : string :=
  itoa_loop (S (Z.to_nat (Z.log2 n))) n EmptyString.

(** [itoa]; [depth] bounds the recursion [itoa(-n)], and the result is
    [None] when the bound is used up. *)
Fixpoint itoa (depth : nat) (n : Z) : option string :=
  if n =? 0 then Some "0"
  else if n <? 0 then
    match depth with
    | O => None
    | S depth' => option_map (fun s => "-" ++ s) (itoa depth' (Int64.wrap (- n)))
    end
  else Some (digitsOf n).

(** [CodeCategory.String]; the zero value of the type, which is none of the
    five constants, is [None]. *)
Definition CodeCategory_String (c : option CodeCategory) : string :=
  match c with
  | Some CategoryRuntime => "运行时"
  | Some CategoryStdlib => "标准库"
  | Some CategoryThirdParty => "第三方"
  | Some CategoryBusiness => "业务"
  | _ => "未知"
  end.

(** The first loop of [GenerateCategorySummary] (and of [CallChain.Summary],
    which has the same body): the finished segments, the current category
    and its count. *)
Record SegmentState : Type := mkSegmentState {
  segments : list (option CodeCategory * Z);
  currentCategory : option CodeCategory;
  currentCount : Z
}.

(** [if currentCount > 0 { segments = append(segments, ...) }]. *)
Definition flushSegment (st : SegmentState) : list (option CodeCategory * Z) :=
  if 0 <? currentCount st
  then (segments st ++ [(currentCategory st, currentCount st)])%list
  else segments st.

Definition segmentStep (st : SegmentState) (frame : StackFrame) : SegmentState :=
  if differsFrom (Category frame) (currentCategory st) then
    {| segments := flushSegment st;
       currentCategory := Some (Category frame);
       currentCount := 1 |}
  else
    {| segments := segments st;
       currentCategory := currentCategory st;
       currentCount := Int64.add (currentCount st) 1 |}.

Definition noSegments : SegmentState :=
  {| segments := []; currentCategory := None; currentCount := 0 |}.

Definition segmentsOf (frames : list StackFrame) : list (option CodeCategory * Z) :=
  flushSegment (fold_left segmentStep frames noSegments).

(** The second loop: [None] when a call of [itoa] does not return. *)
Fixpoint summaryLoop (depth : nat) (i : Z) (segs : list (option CodeCategory * Z))
    (result : string) : option string :=
  match segs with
  | [] => Some result
  | seg :: rest =>
      let result := if 0 <? i then result ++ " → " else result in
      match itoa depth (snd seg) with
      | Some count =>
          summaryLoop depth (i + 1) rest
            (result ++ (count ++ " " ++ CodeCategory_String (fst seg)))
      | None => None
      end
  end.

Definition GenerateCategorySummary (depth : nat) (frames : list StackFrame)
    : option string :=
  if Z.of_nat (List.length frames) =? 0 then Some "空调用链"
  else summaryLoop depth 0 (segmentsOf frames) EmptyString.

(** The key as the specification words it. *)
Definition isBusinessFrame (frame : StackFrame) : bool :=
  CodeCategory_eqb (Category frame) CategoryBusiness.

Definition smartKey_spec (frames : list StackFrame) : string :=
  if existsb isBusinessFrame frames then
    "business:" ++ Join (map FunctionName (filter isBusinessFrame frames)) "|"
  else
    "system:"
    ++ Join (map FunctionName (firstn (Nat.min 5 (List.length frames)) frames)) "|".

(** The key of the version in analyzer.go, in the same words: the function
    names of all frames joined by "|". *)
Definition plainKey_spec (frames : list StackFrame) : string :=
  Join (map FunctionName frames) "|".

End Locator.

(* ================================================================== *)
(** * Package analyzer *)
(* ================================================================== *)

Module Analyzer.
Import Float64.

(** ** The decoded profile, as far as grouping reads it *)

Record ValueType : Type := mkValueType {
  Type_ : string;
  Unit : string
}.

Record Profile : Type := mkProfile {
  SampleType : list ValueType;
  DurationNanos : Z
}.

(** ** Metrics *)

Record FunctionStat : Type := mkFunctionStat {
  Name : string;
  Flat : Z;
  FlatPct : float64;
  Cum : Z;
  CumPct : float64
}.

Record ProfileMetrics : Type := mkProfileMetrics {
  TotalSamples : Z;
  TotalValue : Z;
  Duration : Z;
  NumLocations : Z;
  NumFunctions : Z;
  CPUTime : Z;
  AllocObjects : Z;
  AllocSpace : Z;
  InuseObjects : Z;
  InuseSpace : Z;
  GoroutineCount : Z;
  TopFunctions : list FunctionStat;
  TopAllocFunctions : list FunctionStat
}.

(** ** Grouping (grouping.go) *)

Record ProfileFile : Type := mkProfileFile {
  Path : string;
  Time : Z;
  Size : Z;
  Profile_ : option Profile;
  Metrics : option ProfileMetrics
}.

Record ProfileGroup : Type := mkProfileGroup {
  GroupType : string;
  Files : list ProfileFile
}.

Section DetectProfileType.

(** [strings.ToLower], Go's Unicode-aware lower-casing: whatever it does, the
    detection below only compares its results with constants. *)
Variable ToLower : string -> string.

(** The body of the loop over [p.SampleType]: [Some t] when the entry makes
    the function return [t], [None] when the loop goes on. *)
Definition detectSampleType (st : ValueType) : option string :=
  let typeLower := ToLower (Type_ st) in
  let unitLower := ToLower (Unit st) in
  if (String.eqb typeLower "cpu" || String.eqb typeLower "samples")
     && (String.eqb unitLower "nanoseconds" || String.eqb unitLower "count")
  then Some "cpu"
  else if String.eqb typeLower "alloc_objects" || String.eqb typeLower "alloc_space"
          || String.eqb typeLower "inuse_objects" || String.eqb typeLower "inuse_space"
  then Some "heap"
  else if String.eqb typeLower "goroutine" || String.eqb unitLower "goroutine"
  then Some "goroutine"
  else if String.eqb typeLower "contentions" || String.eqb typeLower "delay"
  then Some "block"
  else if String.eqb typeLower "contentions" && String.eqb unitLower "count"
  then Some "mutex"
  else None.

Fixpoint detectLoop (sts : list ValueType) : option string :=
  match sts with
  | [] => None
  | st :: rest =>
      match detectSampleType st with
      | Some t => Some t
      | None => detectLoop rest
      end
  end.

Definition detectProfileType (p : option Profile) : string :=
  match p with
  | None => "unknown"
  | Some p =>
      match detectLoop (SampleType p) with
      | Some t => t
      | None => if 0 <? DurationNanos p then "cpu" else "unknown"
      end
  end.

End DetectProfileType.

(** ** Trends (trends.go) *)

Record TrendMetrics : Type := mkTrendMetrics {
  Slope : float64;
  R2 : float64;
  Direction : string
}.

Record GroupTrends : Type := mkGroupTrends {
  HeapInuse : option TrendMetrics;
  GoroutineCountTrend : option TrendMetrics
}.

(** [math.IsNaN(v) || math.IsInf(v, 0)] *)
Definition invalid (v : float64) : bool := IsNaN v || IsInf v 0.

(** The four running sums of the first loop. *)
Record Sums : Type := mkSums {
  sumX : float64;
  sumY : float64;
  sumXY : float64;
  sumX2 : float64
}.

Definition noSums : Sums :=
  {| sumX := zero; sumY := zero; sumXY := zero; sumX2 := zero |}.

Fixpoint sumLoop (i : Z) (values : list float64) (acc : Sums) : Sums :=
  match values with
  | [] => acc
  | y :: rest =>
      let x := of_int i in
      sumLoop (i + 1) rest
        {| sumX := add (sumX acc) x;
           sumY := add (sumY acc) y;
           sumXY := add (sumXY acc) (mul x y);
           sumX2 := add (sumX2 acc) (mul x x) |}
  end.

Definition lenOf (values : list float64) : float64 :=
  of_int (Z.of_nat (List.length values)).

Definition meanXOf (values : list float64) : float64 :=
  div (sumX (sumLoop 0 values noSums)) (lenOf values).

Definition meanYOf (values : list float64) : float64 :=
  div (sumY (sumLoop 0 values noSums)) (lenOf values).

Definition numeratorOf (values : list float64) : float64 :=
  sub (sumXY (sumLoop 0 values noSums))
      (mul (mul (lenOf values) (meanXOf values)) (meanYOf values)).

Definition denominatorOf (values : list float64) : float64 :=
  sub (sumX2 (sumLoop 0 values noSums))
      (mul (mul (lenOf values) (meanXOf values)) (meanXOf values)).

(** The second loop: [None] when it returns early on an invalid prediction,
    otherwise the final [(ssRes, ssTot)]. *)
Fixpoint residualLoop (i : Z) (values : list float64)
    (slope intercept meanY : float64) (ssRes ssTot : float64)
    : option (float64 * float64) :=
  match values with
  | [] => Some (ssRes, ssTot)
  | y :: rest =>
      let x := of_int i in
      let predicted := add (mul slope x) intercept in
      if invalid predicted then None
      else
        residualLoop (i + 1) rest slope intercept meanY
          (add ssRes (mul (sub y predicted) (sub y predicted)))
          (add ssTot (mul (sub y meanY) (sub y meanY)))
  end.

Definition LinearRegression (values : list float64) : float64 * float64 :=
  let n := lenOf values in
  if ltb n (of_int 2) then (zero, zero)
  else if existsb invalid values then (zero, zero)
  else
    let meanX := meanXOf values in
    let meanY := meanYOf values in
    if invalid meanY then (zero, zero)
    else
      let numerator := numeratorOf values in
      let denominator := denominatorOf values in
      if eqb denominator zero then (zero, zero)
      else
        let slope := div numerator denominator in
        if invalid slope then (zero, zero)
        else
          let intercept := sub meanY (mul slope meanX) in
          if invalid intercept then (zero, zero)
          else
            match residualLoop 0 values slope intercept meanY zero zero with
            | None => (zero, zero)
            | Some (ssRes, ssTot) =>
                if invalid ssRes || invalid ssTot then (zero, zero)
                else
                  let r2 := if eqb ssTot zero then one
                            else sub one (div ssRes ssTot) in
                  let r2 := if invalid r2 then zero else r2 in
                  let r2 := Max zero (Min one r2) in
                  (slope, r2)
            end.

Definition threshold : float64 := of_ratio 1 100.

Definition getDirection (slope : float64) : string :=
  if gtb slope threshold then "increasing"
  else if ltb slope (neg threshold) then "decreasing"
  else "stable".

Definition trendOf (values : list float64) : TrendMetrics :=
  let '(slope, r2) := LinearRegression values in
  {| Slope := slope; R2 := r2; Direction := getDirection slope |}.

(** The data points of a group: one per file that has metrics. *)
Fixpoint seriesOf (field : ProfileMetrics -> Z) (files : list ProfileFile)
    : list float64 :=
  match files with
  | [] => []
  | file :: rest =>
      match Metrics file with
      | Some m => of_int (field m) :: seriesOf field rest
      | None => seriesOf field rest
      end
  end.

Definition CalculateTrends (group : ProfileGroup) : option GroupTrends :=
  if Z.of_nat (List.length (Files group)) <? 3 then None
  else if String.eqb (GroupType group) "heap" then
    let heapValues := seriesOf InuseSpace (Files group) in
    Some {| HeapInuse :=
              if 3 <=? Z.of_nat (List.length heapValues)
              then Some (trendOf heapValues) else None;
            GoroutineCountTrend := None |}
  else if String.eqb (GroupType group) "goroutine" then
    let goroutineValues := seriesOf GoroutineCount (Files group) in
    Some {| HeapInuse := None;
            GoroutineCountTrend :=
              if 3 <=? Z.of_nat (List.length goroutineValues)
              then Some (trendOf goroutineValues) else None |}
  else Some {| HeapInuse := None; GoroutineCountTrend := None |}.

(** ** Heap insights *)

(** A description is kept as the call [fmt.Sprintf(format, args...)] that
    builds it: the format and the argument values. *)
Inductive FmtArg : Type :=
| ArgFloat (f : float64)
| ArgString (s : string)
| ArgTruncateFuncName (name : string)
| ArgFormatBytes (bytes : Z).

Record Sprintf : Type := mkSprintf {
  format : string;
  args : list FmtArg
}.

Record HeapInsight : Type := mkHeapInsight {
  Level : string;
  Title : string;
  Description : Sprintf
}.

Definition stdLibs : list string :=
  [ "encoding/json"; "encoding/xml"; "encoding/"; "database/sql"; "net/http";
    "net/"; "io/"; "bufio"; "bytes"; "strings"; "fmt"; "log"; "sync"; "time";
    "crypto/"; "hash/" ].

Definition isStdLib (funcName : string) : bool :=
  if existsb (fun lib => GoStrings.Contains funcName lib) stdLibs then true
  else if GoStrings.Contains funcName "github.com/"
          || GoStrings.Contains funcName "google.golang.org/"
          || GoStrings.Contains funcName "go.uber.org/"
          || GoStrings.Contains funcName "gopkg.in/" then true
  else false.

(** [float64(AllocSpace-InuseSpace) / float64(AllocSpace) * 100] *)
Definition gcRateOf (metrics : ProfileMetrics) : float64 :=
  mul (div (of_int (Int64.sub (AllocSpace metrics) (InuseSpace metrics)))
           (of_int (AllocSpace metrics)))
      (of_int 100).

Definition gcInsights (metrics : ProfileMetrics) : list HeapInsight :=
  if 0 <? AllocSpace metrics then
    let gcRate := gcRateOf metrics in
    if ltb gcRate (of_int 50) then
      [ {| Level := "critical";
           Title := "⚠️  GC 回收率过低";
           Description :=
             {| format := "GC 回收率仅 %.1f%%，大量内存无法被回收，可能存在内存泄漏";
                args := [ArgFloat gcRate] |} |} ]
    else if ltb gcRate (of_int 80) then
      [ {| Level := "warning";
           Title := "💡 GC 回收率偏低";
           Description :=
             {| format := "GC 回收率 %.1f%%，建议检查长生命周期对象";
                args := [ArgFloat gcRate] |} |} ]
    else []
  else [].

Definition inuseInsights (metrics : ProfileMetrics) : list HeapInsight :=
  let inuseMB := div (div (of_int (InuseSpace metrics)) (of_int 1024)) (of_int 1024) in
  if gtb inuseMB (of_int 1024) then
    [ {| Level := "warning";
         Title := "📊 当前内存使用较高";
         Description :=
           {| format := "当前使用 %.0f MB 内存"; args := [ArgFloat inuseMB] |} |} ]
  else [].

Definition allocInsights (metrics : ProfileMetrics) : list HeapInsight :=
  match TopAllocFunctions metrics with
  | topAlloc :: _ =>
      let allocGB :=
        div (div (div (of_int (AllocSpace metrics)) (of_int 1024)) (of_int 1024))
            (of_int 1024) in
      if gtb allocGB (of_int 10) then
        [ {| Level := "warning";
             Title := "� 高频内存分配";
             Description :=
               {| format := "累计分配 %.1f GB，Top 分配点: %s (%.1f%%)";
                  args := [ArgFloat allocGB; ArgTruncateFuncName (Name topAlloc);
                           ArgFloat (FlatPct topAlloc)] |} |} ]
      else []
  | [] => []
  end.

Definition topFunctionInsights (metrics : ProfileMetrics) : list HeapInsight :=
  match TopFunctions metrics with
  | topFunc :: _ =>
      let funcName := Name topFunc in
      if negb (GoStrings.Contains funcName "runtime.")
         && negb (GoStrings.Contains funcName "runtime/")
         && negb (isStdLib funcName)
         && gtb (FlatPct topFunc) (of_int 10) then
        [ {| Level := "info";
             Title := "🎯 主要内存占用点";
             Description :=
               {| format := "%s 占用 %.1f%% 内存 (%s)";
                  args := [ArgTruncateFuncName funcName; ArgFloat (FlatPct topFunc);
                           ArgFormatBytes (Flat topFunc)] |} |} ]
      else []
  | [] => []
  end.

(** The four blocks append to [insights] in this order. *)
Definition AnalyzeHeapInsights (metrics : option ProfileMetrics) : list HeapInsight :=
  match metrics with
  | None => []
  | Some metrics =>
      (gcInsights metrics ++ inuseInsights metrics ++ allocInsights metrics
       ++ topFunctionInsights metrics)%list
  end.

(** ** Formatting of integers (metrics) *)

(** [string(rune('0' + d))] for a digit [d]: one byte. *)
Definition digitString (d : Z) : string :=
  String (ascii_of_nat (Z.to_nat (48 + d))) EmptyString.

(** The loop [for n > 0 { s = string(rune('0'+n%10)) + s; n /= 10 }], with a
    bound on its iterations. *)
Fixpoint itoa_loop (fuel : nat) (n : Z) (s : string) : string :=
  match fuel with
  | O => s
  | S fuel' =>
      if 0 <? n then itoa_loop fuel' (n / 10) (digitString (n mod 10) ++ s) else s
  end.

(** The package's own [itoa]: it has no case for negative numbers.  The
    loop runs once per decimal digit; the number of binary digits is
    enough. *)
Definition itoa (n : Z) : string :=
  if n =? 0 then "0"
  else itoa_loop (S (Z.to_nat (Z.log2 n))) n EmptyString.

Definition formatThreeDigits (n : Z) : string :=
  if n <? 10 then "00" ++ itoa n
  else if n <? 100 then "0" ++ itoa n
  else itoa n.

(** The loop of [formatInt]: one iteration per group of three digits. *)
Fixpoint formatInt_loop (fuel : nat) (i : Z) (s : string) : string :=
  match fuel with
  | O => s
  | S fuel' =>
      if 0 <? i then
        let s := if negb (String.eqb s EmptyString) then "," ++ s else s in
        if 1000 <=? i
        then formatInt_loop fuel' (i / 1000) (formatThreeDigits (i mod 1000) ++ s)
        else itoa i ++ s
      else s
  end.

Definition formatInt (i : Z) : string :=
  let s := formatInt_loop (S (Z.to_nat (Z.log2 i))) i EmptyString in
  if String.eqb s EmptyString then "0" else s.

End Analyzer.

(* ================================================================== *)
(** * Package rules *)
(* ================================================================== *)

Module Rules.
Import Float64.

(** ** Types *)

Record Finding : Type := mkFinding {
  RuleID : string;
  RuleName : string;
  Severity : string;
  Title : string;
  Evidence : list (string * string);
  Suggestions : list string;
  IsCrossAnalysis : bool
}.

(** ** String helpers (engine.go) *)

Definition lowerByte (c : ascii) : ascii :=
  let n := nat_of_ascii c in
  if (65 <=? n)%nat && (n <=? 90)%nat then ascii_of_nat (n + 32) else c.

Fixpoint toLowerString (s : string) : string :=
  match s with
  | EmptyString => EmptyString
  | String c rest => String (lowerByte c) (toLowerString rest)
  end.

(** The loop [for i := from; i <= len(s)-len(substr); i++] with [todo]
    iterations left. *)
Fixpoint scanFrom (todo : nat) (i : nat) (s substr : string) : bool :=
  match todo with
  | O => false
  | S todo' =>
      if String.eqb (String.substring i (String.length substr) s) substr then true
      else scanFrom todo' (S i) s substr
  end.

Definition containsString (s substr : string) : bool :=
  if (String.length substr =? 0)%nat then true
  else if (String.length s <? String.length substr)%nat then false
  else scanFrom (String.length s - String.length substr + 1) 0 s substr.

(** [containsHelper]: when [len(s) < len(substr)] the loop body never runs. *)
Definition containsHelper (s substr : string) : bool :=
  if (String.length s <? String.length substr)%nat then false
  else scanFrom (String.length s - String.length substr + 1) 0 s substr.

Definition contains (s substr : string) : bool :=
  (String.length substr <=? String.length s)%nat
  && (String.eqb s substr
      || ((0 <? String.length s)%nat && containsHelper s substr)).

(** ** De-duplication (engine.go) *)

(** The literal [keywordPatterns], in the order it is written. *)
Definition keywordPatterns : list (string * list string) :=
  [ ("memory_leak", ["内存增长"; "内存泄漏"; "memory leak"; "memory growth"]);
    ("goroutine_leak", ["goroutine"; "协程泄漏"; "协程增长"]);
    ("cpu_hotspot", ["cpu"; "热点函数"; "cpu hotspot"]) ].

(** [keywordPatterns] is a Go map, and [range] visits a map in an order that
    Go leaves unspecified and varies from one loop to the next.  A [MapOrder]
    is the order of one such loop: a permutation of [keywordPatterns]. *)
Definition MapOrder : Type := list (string * list string).

Definition titleMatches (titleLower : string) (patterns : list string) : bool :=
  existsb (fun pattern => containsString titleLower (toLowerString pattern)) patterns.

Fixpoint extractTitleKeyword_loop (titleLower : string) (order : MapOrder) : string :=
  match order with
  | [] => EmptyString
  | (keyword, patterns) :: rest =>
      if titleMatches titleLower patterns then keyword
      else extractTitleKeyword_loop titleLower rest
  end.

Definition extractTitleKeyword (order : MapOrder) (title : string) : string :=
  extractTitleKeyword_loop (toLowerString title) order.

Fixpoint extractAllTitleKeywords_loop (titleLower : string) (order : MapOrder)
    : list string :=
  match order with
  | [] => []
  | (keyword, patterns) :: rest =>
      if titleMatches titleLower patterns
      then keyword :: extractAllTitleKeywords_loop titleLower rest
      else extractAllTitleKeywords_loop titleLower rest
  end.

Definition extractAllTitleKeywords (order : MapOrder) (title : string) : list string :=
  extractAllTitleKeywords_loop (toLowerString title) order.

(** The two [map[string]bool] sets, as lists of the keys set to true. *)
Definition member (key : string) (set : list string) : bool :=
  existsb (String.eqb key) set.

Record DedupState : Type := mkDedupState {
  seen : list string;
  seenTitleKeywords : list string;
  result : list Finding
}.

Definition findingKey (finding : Finding) : string :=
  RuleID finding ++ ":" ++ Title finding.

(** One iteration of the loop over [crossFindings]. *)
Definition crossStep (order : MapOrder) (st : DedupState) (finding : Finding)
    : DedupState :=
  let key := findingKey finding in
  if member key (seen st) then st
  else
    {| seen := key :: seen st;
       seenTitleKeywords :=
         (extractAllTitleKeywords order (Title finding) ++ seenTitleKeywords st)%list;
       result := (result st ++ [finding])%list |}.

(** One iteration of the loop over [singleFindings]. *)
Definition singleStep (order : MapOrder) (st : DedupState) (finding : Finding)
    : DedupState :=
  let key := findingKey finding in
  if member key (seen st) then st
  else
    let titleKeyword := extractTitleKeyword order (Title finding) in
    if negb (String.eqb titleKeyword EmptyString)
       && member titleKeyword (seenTitleKeywords st) then st
    else
      {| seen := key :: seen st;
         seenTitleKeywords :=
           if negb (String.eqb titleKeyword EmptyString)
           then titleKeyword :: seenTitleKeywords st
           else seenTitleKeywords st;
         result := (result st ++ [finding])%list |}.

(** A loop whose [k]-th iteration ranges over the map in the order
    [orders k]. *)
Fixpoint runLoop (step : MapOrder -> DedupState -> Finding -> DedupState)
    (orders : nat -> MapOrder) (k : nat) (findings : list Finding)
    (st : DedupState) : DedupState :=
  match findings with
  | [] => st
  | finding :: rest =>
      runLoop step orders (S k) rest (step (orders k) st finding)
  end.

(** [crossOrders] and [singleOrders] give the map orders met by the first
    and by the second loop. *)
Definition deduplicateFindings (crossOrders singleOrders : nat -> MapOrder)
    (findings : list Finding) : list Finding :=
  if (List.length findings <=? 1)%nat then findings
  else
    let crossFindings := filter IsCrossAnalysis findings in
    let singleFindings := filter (fun f => negb (IsCrossAnalysis f)) findings in
    let st0 := {| seen := []; seenTitleKeywords := []; result := [] |} in
    let st1 := runLoop crossStep crossOrders 0 crossFindings st0 in
    let st2 := runLoop singleStep singleOrders 0 singleFindings st1 in
    result st2.

(** ** Condition evaluation (engine.go) *)

Definition evaluateCondition (condition : string) (group : Analyzer.ProfileGroup)
    (trends : option Analyzer.GroupTrends) : bool :=
  if String.eqb condition "cpu_profile_exists"
     && String.eqb (Analyzer.GroupType group) "cpu"
  then (0 <? List.length (Analyzer.Files group))%nat
  else
    match trends with
    | None => false
    | Some trends =>
        let heapFires :=
          match Analyzer.HeapInuse trends with
          | Some t =>
              gtb (Analyzer.R2 t) (of_ratio 85 100)
              && gtb (Analyzer.Slope t) (of_int 10)
              && contains condition "heap_inuse" && contains condition "slope"
              && (3 <=? List.length (Analyzer.Files group))%nat
          | None => false
          end in
        if heapFires then true
        else
          match Analyzer.GoroutineCountTrend trends with
          | Some t =>
              gtb (Analyzer.R2 t) (of_ratio 9 10)
              && gtb (Analyzer.Slope t) (of_int 1)
              && contains condition "goroutine_count" && contains condition "slope"
              && (3 <=? List.length (Analyzer.Files group))%nat
          | None => false
          end
    end.

Definition evaluateTrendCondition (condition : string) (trend : Analyzer.TrendMetrics)
    : bool :=
  if contains condition "increasing"
     && negb (String.eqb (Analyzer.Direction trend) "increasing") then false
  else if contains condition "decreasing"
     && negb (String.eqb (Analyzer.Direction trend) "decreasing") then false
  else if contains condition "slope > 0"
     && (leb (Analyzer.Slope trend) zero || ltb (Analyzer.R2 trend) (of_ratio 7 10))
  then false
  else if contains condition "slope <= 0"
     && (gtb (Analyzer.Slope trend) zero && gtb (Analyzer.R2 trend) (of_ratio 7 10))
  then false
  else if contains condition "slope < 0" && geb (Analyzer.Slope trend) zero
  then false
  else if contains condition "slope" && negb (contains condition "slope >")
          && negb (contains condition "slope <") && negb (contains condition "slope =")
          && ltb (Analyzer.R2 trend) (of_ratio 7 10)
  then false
  else true.

(** The result and the entry written to [matchedTrends], if any. *)
Definition evaluateCrossCondition (condition profileType : string)
    (group : Analyzer.ProfileGroup) (trends : option Analyzer.GroupTrends)
    : bool * option (string * Analyzer.TrendMetrics) :=
  match trends with
  | None => (false, None)
  | Some trends =>
      if (List.length (Analyzer.Files group) <? 3)%nat then (false, None)
      else if String.eqb profileType "heap" then
        match Analyzer.HeapInuse trends with
        | Some t =>
            if evaluateTrendCondition condition t then (true, Some ("heap", t))
            else (false, None)
        | None => (false, None)
        end
      else if String.eqb profileType "goroutine" then
        match Analyzer.GoroutineCountTrend trends with
        | Some t =>
            if evaluateTrendCondition condition t then (true, Some ("goroutine", t))
            else (false, None)
        | None => (false, None)
        end
      else if String.eqb profileType "cpu" then
        if (0 <? List.length (Analyzer.Files group))%nat then
          (contains condition "cpu",
           Some ("cpu", {| Analyzer.Slope := zero; Analyzer.R2 := zero;
                           Analyzer.Direction := "present" |}))
        else (false, None)
      else (false, None)
  end.

(** The lookup [trends[group.Type]] in the map the driver fills: a group is
    entered only when [CalculateTrends] returns a non-nil value for it. *)
Definition trendsOfGroup (group : Analyzer.ProfileGroup) : option Analyzer.GroupTrends :=
  Analyzer.CalculateTrends group.

(** ** Correlation (engine.go) *)

(** The loop of the case "same_direction" over the values of [matchedTrends],
    in the order [range] visits them: [None] when it returns false, otherwise
    the final [direction]. *)
Fixpoint sameDirection_loop (trends : list Analyzer.TrendMetrics) (direction : string)
    : option string :=
  match trends with
  | [] => Some direction
  | trend :: rest =>
      if String.eqb (Analyzer.Direction trend) "present" then
        sameDirection_loop rest direction
      else if String.eqb direction EmptyString then
        sameDirection_loop rest (Analyzer.Direction trend)
      else if negb (String.eqb direction (Analyzer.Direction trend)) then None
      else sameDirection_loop rest direction
  end.

Definition checkCorrelation (correlation : string)
    (matchedTrends : list (string * Analyzer.TrendMetrics)) : bool :=
  if String.eqb correlation "same_direction" then
    match sameDirection_loop (map snd matchedTrends) EmptyString with
    | Some direction => negb (String.eqb direction EmptyString)
    | None => false
    end
  else if String.eqb correlation "both_increasing" then
    forallb (fun entry =>
               negb (negb (String.eqb (Analyzer.Direction (snd entry)) "increasing")
                     && negb (String.eqb (Analyzer.Direction (snd entry)) "present")))
            matchedTrends
  else if String.eqb correlation "time_correlated" then
    (2 <=? List.length matchedTrends)%nat
  else true.

End Rules.

(* ================================================================== *)
(** * Notions used in the statements, and sample data *)
(* ================================================================== *)

(** ** Classifier and extractor *)

(** A module hosted on github.com: its packages start with a third-party
    hosting prefix and with a configured third-party prefix. *)
Definition acmeClassifier : Locator.Classifier :=
  Locator.NewClassifier
    {| Locator.ModuleName := "github.com/acme/shop";
       Locator.ThirdPartyPrefixes := ["github.com/acme/"];
       Locator.MaxCallStackDepth := 10;
       Locator.MaxHotPaths := 5 |}.

(** No function can be resolved: [line] is nil and the location is nil or
    has no lines, or the line that is used has a nil function. *)
Definition noFunction (loc : option Locator.Location) (line : option Locator.Line)
    : Prop :=
  (line = None
   /\ (loc = None \/ exists l, loc = Some l /\ Locator.Location_Line l = []))
  \/ (exists ln, Locator.resolveLine loc line = Some ln
                 /\ Locator.Line_Function ln = None).

(** ** Aggregation key *)

(** What the two key loops append: nothing for no names, otherwise the
    joined names, after a separator when the loop does not start at 0. *)
Definition joinedFrom (i : Z) (names : list string) : string :=
  match names with
  | [] => EmptyString
  | _ => (if 0 <? i then "|" else EmptyString) ++ GoStrings.Join names "|"
  end.

(** The chain of scenario S3. *)
Definition frameOf (name : string) (cat : Locator.CodeCategory) : Locator.StackFrame :=
  {| Locator.FunctionName := name; Locator.ShortName := name;
     Locator.PackageName := name; Locator.FilePath := "unknown";
     Locator.LineNumber := 0; Locator.Category := cat;
     Locator.Flat := 0; Locator.FlatPct := Float64.zero;
     Locator.Cum := 0; Locator.CumPct := Float64.zero |}.

Definition handlerChain : list Locator.StackFrame :=
  [ frameOf "app/handler.H" Locator.CategoryBusiness;
    frameOf "encoding/json.Marshal" Locator.CategoryStdlib;
    frameOf "runtime.mallocgc" Locator.CategoryRuntime ].

(** Two samples of one business call, main.main, that end in different
    runtime functions. *)
Definition leafChain (leaf : string) (value : Z) : Locator.CallChain :=
  {| Locator.Frames := [ frameOf "main.main" Locator.CategoryBusiness;
                         frameOf leaf Locator.CategoryRuntime ];
     Locator.TotalValue := value;
     Locator.TotalPct := Float64.zero;
     Locator.SampleCount := 1;
     Locator.CategoryBreakdown := [ (Locator.CategoryBusiness, 1);
                                    (Locator.CategoryRuntime, 1) ];
     Locator.BoundaryPoints := [1] |}.

Definition twoTails : list Locator.CallChain :=
  [leafChain "runtime.mallocgc" 1000; leafChain "runtime.newobject" 2000].

(** ** Profile types *)

(** The types an entry of [SampleType] can decide. *)
Definition decidable_type (t : string) : bool :=
  String.eqb t "cpu" || String.eqb t "heap" || String.eqb t "goroutine"
  || String.eqb t "block".

(** ** Trends and insights *)

Definition heapMetrics (alloc inuse : Z) : Analyzer.ProfileMetrics :=
  {| Analyzer.TotalSamples := 0; Analyzer.TotalValue := 0;
     Analyzer.Duration := 0; Analyzer.NumLocations := 0;
     Analyzer.NumFunctions := 0; Analyzer.CPUTime := 0;
     Analyzer.AllocObjects := 0; Analyzer.AllocSpace := alloc;
     Analyzer.InuseObjects := 0; Analyzer.InuseSpace := inuse;
     Analyzer.GoroutineCount := 0; Analyzer.TopFunctions := [];
     Analyzer.TopAllocFunctions := [] |}.

Definition heapFile (inuse : Z) : Analyzer.ProfileFile :=
  {| Analyzer.Path := "heap.pprof"; Analyzer.Time := 0; Analyzer.Size := 0;
     Analyzer.Profile_ := None;
     Analyzer.Metrics := Some (heapMetrics 0 inuse) |}.

(** Scenario S6: two heap profiles. *)
Definition twoHeapProfiles : Analyzer.ProfileGroup :=
  {| Analyzer.GroupType := "heap";
     Analyzer.Files := [heapFile 104857600; heapFile 209715200] |}.

(** Scenario S1: three heap profiles of 100, 200 and 300 MB. *)
Definition threeHeapProfiles : Analyzer.ProfileGroup :=
  {| Analyzer.GroupType := "heap";
     Analyzer.Files := [heapFile 104857600; heapFile 209715200; heapFile 314572800] |}.

Definition MB : Z := 1024 * 1024.

(** The two insights of the GC-reclaim-rate block. *)
Definition isGCInsight (insight : Analyzer.HeapInsight) : bool :=
  String.eqb (Analyzer.Title insight) "⚠️  GC 回收率过低"
  || String.eqb (Analyzer.Title insight) "💡 GC 回收率偏低".

(** ** Regression on a constant series *)

(** The value of the repository's test of constant series, and 0.1. *)
Definition five : Float64.float64 := Float64.of_int 5.
Definition tenth : Float64.float64 := Float64.of_ratio 1 10.

(** ** De-duplication *)

(** A title carries keyword [K] when it matches one of the patterns that
    [keywordPatterns] lists for [K]. *)
Definition carriesKeyword (K : string) (title : string) : bool :=
  existsb (fun entry => String.eqb (fst entry) K
                        && Rules.titleMatches (Rules.toLowerString title) (snd entry))
          Rules.keywordPatterns.

Definition pairOf (finding : Rules.Finding) : string * string :=
  (Rules.RuleID finding, Rules.Title finding).

(** What both loops maintain: every finding of the result has its key in
    [seen], and no two findings of the result share (RuleID, Title). *)
Definition dedupInv (st : Rules.DedupState) : Prop :=
  (forall f, In f (Rules.result st)
             -> Rules.member (Rules.findingKey f) (Rules.seen st) = true)
  /\ NoDup (map pairOf (Rules.result st)).

(** An order of the map visits exactly the entries of [keywordPatterns]. *)
Definition visitsAll (order : Rules.MapOrder) : Prop :=
  forall entry, In entry order <-> In entry Rules.keywordPatterns.

(** A title that carries [K] and no other keyword. *)
Definition carriesOnly (K : string) (title : string) : Prop :=
  carriesKeyword K title = true
  /\ forall K', carriesKeyword K' title = true -> K' = K.

(** The first loop: the result holds cross-analysis findings only, and
    every keyword one of them carries is marked. *)
Definition crossInv (st : Rules.DedupState) : Prop :=
  forall f, In f (Rules.result st) ->
    Rules.IsCrossAnalysis f = true
    /\ forall K, carriesKeyword K (Rules.Title f) = true
                 -> Rules.member K (Rules.seenTitleKeywords st) = true.

(** The second loop: the keywords of the cross-analysis findings stay
    marked, and no single-type finding of the result carries only a keyword
    that a cross-analysis finding of the result carries. *)
Definition singleInv (st : Rules.DedupState) : Prop :=
  (forall c, In c (Rules.result st) -> Rules.IsCrossAnalysis c = true ->
     forall K, carriesKeyword K (Rules.Title c) = true
               -> Rules.member K (Rules.seenTitleKeywords st) = true)
  /\ (forall s, In s (Rules.result st) -> Rules.IsCrossAnalysis s = false ->
       forall K, carriesOnly K (Rules.Title s) ->
       forall c, In c (Rules.result st) -> Rules.IsCrossAnalysis c = true ->
         carriesKeyword K (Rules.Title c) = false).

(** A single-type finding whose title matches the patterns of two keywords
    (memory_leak by "memory growth", goroutine_leak by "goroutine"), and a
    cross-analysis finding that covers goroutine_leak and cpu_hotspot. *)
Definition stackGrowth : Rules.Finding :=
  {| Rules.RuleID := "heap_growth"; Rules.RuleName := "heap growth";
     Rules.Severity := "high";
     Rules.Title := "Memory growth in goroutine stacks";
     Rules.Evidence := []; Rules.Suggestions := [];
     Rules.IsCrossAnalysis := false |}.

Definition goroutineStorm : Rules.Finding :=
  {| Rules.RuleID := "goroutine_cpu"; Rules.RuleName := "goroutine storm";
     Rules.Severity := "critical";
     Rules.Title := "Goroutine leak drives CPU usage";
     Rules.Evidence := []; Rules.Suggestions := [];
     Rules.IsCrossAnalysis := true |}.

(** A single-type finding whose title carries memory_leak only. *)
Definition heapLeak : Rules.Finding :=
  {| Rules.RuleID := "heap_leak"; Rules.RuleName := "heap leak";
     Rules.Severity := "high";
     Rules.Title := "Memory leak detected";
     Rules.Evidence := []; Rules.Suggestions := [];
     Rules.IsCrossAnalysis := false |}.

(** Two orders in which [range] may visit the three keys: the order of the
    literal, and the same order started at its second entry. *)
Definition memoryFirst : Rules.MapOrder := Rules.keywordPatterns.

Definition goroutineFirst : Rules.MapOrder :=
  [ ("goroutine_leak", ["goroutine"; "协程泄漏"; "协程增长"]);
    ("cpu_hotspot", ["cpu"; "热点函数"; "cpu hotspot"]);
    ("memory_leak", ["内存增长"; "内存泄漏"; "memory leak"; "memory growth"]) ].

(** ** Call chains and hot paths *)

(** The frames of a list of locations, entry first: locations last first,
    the lines of each last first. *)
Definition framesOfLocation (e : Locator.Extractor) (loc : option Locator.Location)
    : list Locator.StackFrame :=
  match loc with
  | Some loc =>
      map (fun line => Locator.ExtractStackFrame e (Some loc) (Some line))
          (rev (Locator.Location_Line loc))
  | None => []
  end.

Definition framesOf (e : Locator.Extractor) (locations : list (option Locator.Location))
    : list Locator.StackFrame :=
  flat_map (framesOfLocation e) (rev locations).

(** The state of the extraction loops is that of its frames. *)
Definition chainStateOk (st : Locator.ChainState) : Prop :=
  Locator.cs_boundaries st = Locator.FindBoundaryPoints (Locator.cs_frames st)
  /\ Locator.cs_breakdown st = Locator.calculateCategoryBreakdown (Locator.cs_frames st)
  /\ Locator.cs_prev st = option_map Locator.Category (last (map Some (Locator.cs_frames st)) None).

(** The sum of the counts of a breakdown, as a number. *)
Definition countSum (m : list (Locator.CodeCategory * Z)) : Z :=
  fold_right (fun entry acc => snd entry + acc) 0 m.

Definition sumOf {A} (f : A -> Z) (l : list A) : Z :=
  fold_right (fun x acc => f x + acc) 0 l.

(** An aggregated chain shows the frames, boundaries and breakdown of
    [chain]. *)
Definition sameShape (aggregated chain : Locator.CallChain) : Prop :=
  Locator.Frames aggregated = Locator.Frames chain
  /\ Locator.BoundaryPoints aggregated = Locator.BoundaryPoints chain
  /\ Locator.CategoryBreakdown aggregated = Locator.CategoryBreakdown chain.

(** The chain carries the boundaries and the breakdown of its frames. *)
Definition chainOk (chain : Locator.CallChain) : Prop :=
  Locator.BoundaryPoints chain = Locator.FindBoundaryPoints (Locator.Frames chain)
  /\ Locator.CategoryBreakdown chain
     = Locator.calculateCategoryBreakdown (Locator.Frames chain).

(** The two chains of the repository's aggregation test. *)
Definition mallocChain (value : Z) : Locator.CallChain :=
  {| Locator.Frames := [ frameOf "main.main" Locator.CategoryBusiness;
                         frameOf "runtime.mallocgc" Locator.CategoryRuntime ];
     Locator.TotalValue := value;
     Locator.TotalPct := Float64.zero;
     Locator.SampleCount := 1;
     Locator.CategoryBreakdown := [ (Locator.CategoryBusiness, 1);
                                    (Locator.CategoryRuntime, 1) ];
     Locator.BoundaryPoints := [1] |}.

(** A profile of one sample: runtime.mallocgc called from the shop's cart. *)
Definition locationOf (name file : string) (line : Z) : option Locator.Location :=
  Some {| Locator.Location_Line :=
            [ {| Locator.Line_Function :=
                   Some {| Locator.Function_Name := name;
                           Locator.Function_Filename := file |};
                 Locator.Line_Line := line |} ] |}.

Definition cartProfile : Locator.Profile :=
  {| Locator.SampleType := [ {| Locator.Type_ := "samples"; Locator.Unit := "count" |};
                             {| Locator.Type_ := "cpu"; Locator.Unit := "nanoseconds" |} ];
     Locator.Samples :=
       [ {| Locator.Value := [1; 1000];
            Locator.Sample_Location :=
              [ locationOf "runtime.mallocgc" "/usr/local/go/src/runtime/malloc.go" 1000;
                locationOf "github.com/acme/shop/cart.Add" "/src/cart/cart.go" 42 ] |} ] |}.

Definition defaultAnalyzer : Locator.PathAnalyzer :=
  Locator.NewPathAnalyzer (Locator.NewExtractor (Some acmeClassifier))
    {| Locator.ModuleName := "github.com/acme/shop";
       Locator.ThirdPartyPrefixes := [];
       Locator.MaxCallStackDepth := 0;
       Locator.MaxHotPaths := 0 |}.

(** ** Strings *)

(** [substr] occurs in [s]. *)
Definition occursIn (substr s : string) : Prop :=
  exists before after, s = before ++ substr ++ after.

(** An upper-case ASCII letter. *)
Definition isUpper (c : ascii) : bool :=
  ((65 <=? nat_of_ascii c) && (nat_of_ascii c <=? 90))%nat.

Fixpoint bytesOf (s : string) : list ascii :=
  match s with
  | EmptyString => []
  | String c rest => c :: bytesOf rest
  end.

(** The number a string of decimal digits stands for. *)
Fixpoint valueOf_from (acc : Z) (s : string) : Z :=
  match s with
  | EmptyString => acc
  | String c rest => valueOf_from (acc * 10 + (Z.of_nat (nat_of_ascii c) - 48)) rest
  end.

Definition valueOf (s : string) : Z := valueOf_from 0 s.

Definition isDigit (c : ascii) : bool :=
  ((48 <=? nat_of_ascii c) && (nat_of_ascii c <=? 57))%nat.

(** A decimal numeral: digits only, at least one, and no leading zero unless
    it is "0" itself. *)
Definition isNumeral (s : string) : bool :=
  match s with
  | EmptyString => false
  | String c rest =>
      forallb isDigit (bytesOf s)
      && (negb (Ascii.eqb c "0") || String.eqb rest EmptyString)
  end.

(** A segment as the summary shows it: the count and the Chinese name of
    the category. *)
Definition segmentText (seg : option Locator.CodeCategory * Z) : string :=
  Locator.digitsOf (snd seg) ++ " " ++ Locator.CodeCategory_String (fst seg).

(** The categories a list of segments stands for. *)
Definition expand (segs : list (option Locator.CodeCategory * Z))
    : list (option Locator.CodeCategory) :=
  flat_map (fun seg => repeat (fst seg) (Z.to_nat (snd seg))) segs.

(** The state of the first loop of the summary after the frames [seen]. *)
Definition segmentsInv (seen : list Locator.StackFrame) (st : Locator.SegmentState)
    : Prop :=
  Locator.currentCategory st
  = option_map Locator.Category (last (map Some seen) None)
  /\ 0 <= Locator.currentCount st <= Z.of_nat (List.length seen)
  /\ (Locator.currentCount st = 0 -> seen = [])
  /\ expand (Locator.flushSegment st)
     = map (fun frame => Some (Locator.Category frame)) seen
  /\ Forall (fun seg => 1 <= snd seg) (Locator.flushSegment st)
  /\ List.length (Locator.segments st)
     = List.length (Locator.FindBoundaryPoints seen).

(** [formatThreeDigits] on every number below 1000, checked one by one. *)
Definition threeDigitsOk (n : nat) : bool :=
  let s := Analyzer.formatThreeDigits (Z.of_nat n) in
  (String.length s =? 3)%nat
  && forallb isDigit (bytesOf s)
  && (valueOf s =? Z.of_nat n).

(** ** Trends and correlation *)

(** The files of a group that carry metrics. *)
Definition withMetrics (files : list Analyzer.ProfileFile) : list Analyzer.ProfileFile :=
  filter (fun file => match Analyzer.Metrics file with
                      | Some _ => true
                      | None => false
                      end) files.

(** A trend as [CalculateTrends] builds it. *)
Definition wellFormedTrend (t : Analyzer.TrendMetrics) : Prop :=
  Analyzer.invalid (Analyzer.Slope t) = false
  /\ Float64.leb Float64.zero (Analyzer.R2 t) = true
  /\ Float64.leb (Analyzer.R2 t) Float64.one = true
  /\ ((Analyzer.Direction t = "increasing"
       /\ Float64.gtb (Analyzer.Slope t) Analyzer.threshold = true)
      \/ (Analyzer.Direction t = "decreasing"
          /\ Float64.ltb (Analyzer.Slope t) (Float64.neg Analyzer.threshold) = true)
      \/ (Analyzer.Direction t = "stable"
          /\ Float64.gtb (Analyzer.Slope t) Analyzer.threshold = false
          /\ Float64.ltb (Analyzer.Slope t) (Float64.neg Analyzer.threshold) = false)).

(** The directions of the entries are all [d] or "present", and [d] is among
    them. *)
Definition oneDirection (d : string) (trends : list (string * Analyzer.TrendMetrics))
    : Prop :=
  d <> "present"
  /\ (exists entry, In entry trends /\ Analyzer.Direction (snd entry) = d)
  /\ forall entry, In entry trends ->
       Analyzer.Direction (snd entry) = d
       \/ Analyzer.Direction (snd entry) = "present".

Definition trendEntry (key direction : string) : string * Analyzer.TrendMetrics :=
  (key, {| Analyzer.Slope := Float64.zero; Analyzer.R2 := Float64.zero;
           Analyzer.Direction := direction |}).

(* ================================================================== *)
(** * Properties of the classifier *)
(* ================================================================== *)

Section ClassifierFacts.
Import GoStrings Locator.

Lemma HasPrefix_nonempty (s p : string) :
  HasPrefix s p = true -> p <> EmptyString -> s <> EmptyString.
Proof.
  unfold HasPrefix. intros Hp Hne ->.
  destruct p as [|a p]; [now apply Hne | discriminate Hp].
Qed.

Lemma under_module_nonempty (c : Classifier) (P : string) :
  moduleName c <> EmptyString ->
  P = moduleName c \/ HasPrefix P (moduleName c ++ "/") = true ->
  P <> EmptyString.
Proof.
  intros Hm [-> | Hp]; [exact Hm |].
  apply (HasPrefix_nonempty _ _ Hp).
  destruct (moduleName c); discriminate.
Qed.

Lemma under_module_business (c : Classifier) (P : string) :
  moduleName c <> EmptyString ->
  P = moduleName c \/ HasPrefix P (moduleName c ++ "/") = true ->
  isBusinessPackage c P = true.
Proof.
  intros Hm Hunder. unfold isBusinessPackage.
  destruct (String.eqb P "main" || HasPrefix P "main."); [reflexivity |].
  destruct (negb (Contains P "/") && negb (isRuntimePackage c P)
            && negb (isStdlibPackage c P)); [reflexivity |].
  destruct (String.eqb_spec (moduleName c) EmptyString) as [E | _];
    [contradiction | cbn [negb]].
  destruct Hunder as [-> | Hp].
  - now rewrite String.eqb_refl.
  - rewrite Hp. apply orb_true_r.
Qed.

(** C5.  A package that is the configured module, or lies under it, is
    business code whenever the two higher-priority rules (runtime, standard
    library) do not claim it; whether it also starts with one of the hosting
    prefixes of the third-party rule plays no role. *)
Theorem Classify_under_module_is_business (c : Classifier) (P : string) :
  moduleName c <> EmptyString ->
  P = moduleName c \/ HasPrefix P (moduleName c ++ "/") = true ->
  isRuntimePackage c P = false ->
  isStdlibPackage c P = false ->
  Classify c P = CategoryBusiness.
Proof.
  intros Hm Hunder Hrt Hstd. unfold Classify.
  destruct (String.eqb_spec P EmptyString) as [E | _].
  - exfalso. exact (under_module_nonempty c P Hm Hunder E).
  - rewrite Hrt, Hstd, (under_module_business c P Hm Hunder). reflexivity.
Qed.

End ClassifierFacts.


Lemma Classify_under_module_is_business_witness :
  GoStrings.HasPrefix "github.com/acme/shop/cart" "github.com/" = true
  /\ Locator.Classify acmeClassifier "github.com/acme/shop/cart"
     = Locator.CategoryBusiness.
Proof.
  split; [reflexivity |].
  apply Classify_under_module_is_business.
  - discriminate.
  - right. reflexivity.
  - reflexivity.
  - vm_compute. reflexivity.
Defined.

(** Without the module configured, the same package is third-party. *)
Example Classify_without_module :
  Locator.Classify
    (Locator.NewClassifier
       {| Locator.ModuleName := EmptyString; Locator.ThirdPartyPrefixes := [];
          Locator.MaxCallStackDepth := 10; Locator.MaxHotPaths := 5 |})
    "github.com/acme/shop/cart"
  = Locator.CategoryThirdParty.
Proof. vm_compute. reflexivity. Qed.

(* ================================================================== *)
(** * Properties of the extractor *)
(* ================================================================== *)

Section ExtractorFacts.
Import Locator.


Lemma noFunction_unknownFrame (e : Extractor) loc line :
  noFunction loc line -> ExtractStackFrame e loc line = unknownFrame.
Proof.
  unfold noFunction, ExtractStackFrame.
  intros [[-> [-> | (l & -> & Hl)]] | (ln & -> & ->)]; cbn.
  - reflexivity.
  - now rewrite Hl.
  - reflexivity.
Qed.

(** C4, as the code has it.  When no function can be resolved, the frame has
    FunctionName, ShortName and FilePath equal to "unknown", an empty
    PackageName, every numeric field 0 and the category unknown. *)
Theorem ExtractStackFrame_no_function (e : Extractor) loc line :
  noFunction loc line ->
  let frame := ExtractStackFrame e loc line in
  FunctionName frame = "unknown"
  /\ ShortName frame = "unknown"
  /\ PackageName frame = EmptyString
  /\ FilePath frame = "unknown"
  /\ LineNumber frame = 0
  /\ Flat frame = 0 /\ Cum frame = 0
  /\ FlatPct frame = Float64.zero /\ CumPct frame = Float64.zero
  /\ Category frame = CategoryUnknown.
Proof.
  intros H. cbv zeta. rewrite (noFunction_unknownFrame e loc line H).
  cbn. repeat split.
Qed.

End ExtractorFacts.

(** A location whose only line has no function. *)
Lemma ExtractStackFrame_no_function_witness :
  let loc := Some {| Locator.Location_Line :=
                       [ {| Locator.Line_Function := None;
                            Locator.Line_Line := 42 |} ] |} in
  Locator.FunctionName
    (Locator.ExtractStackFrame (Locator.NewExtractor (Some acmeClassifier)) loc None)
  = "unknown".
Proof.
  cbv zeta.
  apply (ExtractStackFrame_no_function (Locator.NewExtractor (Some acmeClassifier))).
  right. eexists. split; reflexivity.
Defined.

(** C4 as stated fails: with a nil location and a nil line, the package name
    of the frame is the empty string, not the sentinel. *)
Lemma ExtractStackFrame_package_not_sentinel :
  noFunction None None
  /\ Locator.PackageName
       (Locator.ExtractStackFrame (Locator.NewExtractor None) None None)
     <> "unknown".
Proof.
  split.
  - left. split; [reflexivity | now left].
  - discriminate.
Qed.

(* ================================================================== *)
(** * The aggregation key *)
(* ================================================================== *)

Section AggregationKey.
Import GoStrings Locator.

Lemma string_app_assoc (a b c : string) : (a ++ b) ++ c = a ++ (b ++ c).
Proof. induction a as [|x a IH]; cbn; [reflexivity | now rewrite IH]. Qed.

Lemma string_app_empty_r (a : string) : a ++ EmptyString = a.
Proof. induction a as [|x a IH]; cbn; [reflexivity | now rewrite IH]. Qed.


Lemma Join_cons (fn : string) (rest : list string) :
  Join (fn :: rest) "|" = fn ++ joinedFrom 1 rest.
Proof.
  destruct rest as [|r rest]; cbn [Join joinedFrom].
  - now rewrite string_app_empty_r.
  - reflexivity.
Qed.

Lemma appendNames_spec (names : list string) :
  forall i key, 0 <= i -> appendNames i key names = key ++ joinedFrom i names.
Proof.
  induction names as [|fn rest IH]; intros i key Hi.
  - cbn. now rewrite string_app_empty_r.
  - cbn [appendNames]. rewrite IH by lia.
    replace (joinedFrom (i + 1) rest) with (joinedFrom 1 rest)
      by (unfold joinedFrom; destruct rest; [reflexivity |];
          replace (0 <? i + 1) with true by (symmetry; apply Z.ltb_lt; lia);
          reflexivity).
    unfold joinedFrom at 2. rewrite Join_cons.
    destruct (0 <? i); now rewrite !string_app_assoc.
Qed.

Lemma collectBusinessNames_spec (frames : list StackFrame) :
  collectBusinessNames frames = map FunctionName (filter isBusinessFrame frames).
Proof.
  unfold collectBusinessNames.
  enough (H : forall acc,
             fold_left
               (fun businessFrames frame =>
                  if CodeCategory_eqb (Category frame) CategoryBusiness
                  then (businessFrames ++ [FunctionName frame])%list
                  else businessFrames) frames acc
             = (acc ++ map FunctionName (filter isBusinessFrame frames))%list)
    by apply (H []).
  induction frames as [|f frames IH]; intros acc; cbn [fold_left filter].
  - now rewrite app_nil_r.
  - rewrite IH. unfold isBusinessFrame at 2.
    destruct (CodeCategory_eqb (Category f) CategoryBusiness); cbn [map].
    + now rewrite <- app_assoc.
    + reflexivity.
Qed.

Lemma nth_error_skipn {A} (l : list A) (i : nat) (x : A) :
  nth_error l i = Some x -> skipn i l = x :: skipn (S i) l.
Proof.
  revert l; induction i as [|i IH]; intros [|y l] H; try discriminate.
  - now injection H as ->.
  - cbn in H. cbn [skipn]. now apply IH.
Qed.

Lemma appendFrames_spec (frames : list StackFrame) (todo : nat) :
  forall i key, (i + todo <= List.length frames)%nat ->
    appendFrames todo i frames key
    = key ++ joinedFrom (Z.of_nat i)
               (map FunctionName (firstn todo (skipn i frames))).
Proof.
  induction todo as [|todo IH]; intros i key Hlen.
  - cbn. now rewrite string_app_empty_r.
  - cbn [appendFrames].
    destruct (nth_error frames i) as [frame|] eqn:Hnth.
    + rewrite IH by lia. rewrite (nth_error_skipn _ _ _ Hnth).
      cbn [firstn map]. unfold joinedFrom at 2. rewrite Join_cons.
      replace (joinedFrom (Z.of_nat (S i))) with (joinedFrom 1)
        by (unfold joinedFrom;
            replace (0 <? Z.of_nat (S i)) with true
              by (symmetry; apply Z.ltb_lt; lia);
            reflexivity).
      destruct (0 <? Z.of_nat i); now rewrite !string_app_assoc.
    + apply nth_error_None in Hnth. lia.
Qed.

Lemma existsb_filter_nil {A} (p : A -> bool) (l : list A) :
  existsb p l = false <-> filter p l = [].
Proof.
  induction l as [|x l IH]; cbn; [tauto |].
  destruct (p x); cbn; [split; discriminate | exact IH].
Qed.

(** For a non-empty list of frames [generateSmartCallChainKey] returns
    "business:" followed by the full names of the business frames in order,
    joined by "|", when there is a business frame; otherwise "system:"
    followed by the names of the first min(5, n) frames joined by "|". *)
Lemma generateSmartCallChainKey_spec (frames : list StackFrame) :
  frames <> [] ->
  generateSmartCallChainKey frames = smartKey_spec frames.
Proof.
  intros Hne. unfold generateSmartCallChainKey, smartKey_spec.
  destruct frames as [|f0 rest] eqn:E; [contradiction |]. rewrite <- E.
  replace (Z.of_nat (List.length frames) =? 0) with false
    by (symmetry; apply Z.eqb_neq; subst frames; cbn [List.length]; lia).
  rewrite collectBusinessNames_spec.
  destruct (existsb isBusinessFrame frames) eqn:Hex.
  - destruct (filter isBusinessFrame frames) as [|b bs] eqn:Hf.
    + apply existsb_filter_nil in Hf. congruence.
    + replace (0 <? Z.of_nat (List.length (map FunctionName (b :: bs)))) with true
        by (symmetry; apply Z.ltb_lt; cbn [map List.length]; lia).
      now rewrite appendNames_spec by lia.
  - apply existsb_filter_nil in Hex. rewrite Hex. cbn [map List.length Z.of_nat].
    cbn [Z.ltb Z.compare].
    assert (Hmax : Z.to_nat (if Z.of_nat (List.length frames) <? 5
                             then Z.of_nat (List.length frames) else 5)
                   = Nat.min 5 (List.length frames)).
    { destruct (Z.ltb_spec (Z.of_nat (List.length frames)) 5); lia. }
    rewrite Hmax, appendFrames_spec by lia.
    cbn [skipn Z.of_nat].
    destruct (firstn (Nat.min 5 (List.length frames)) frames) eqn:Hfirst.
    + exfalso. subst frames. cbn in Hfirst. discriminate.
    + reflexivity.
Qed.

(** The map of [AggregateCallChains] is keyed by the keys of the chains. *)
Lemma lookupChain_updateChain key f m :
  map fst (updateChain key f m) = map fst m.
Proof.
  induction m as [|[k c] m IH]; cbn; [reflexivity |].
  destruct (String.eqb k key); cbn; [reflexivity | now rewrite IH].
Qed.

Lemma lookupChain_In key c m :
  lookupChain key m = Some c -> In key (map fst m).
Proof.
  induction m as [|[k' c'] m IH]; [discriminate |]. cbn.
  destruct (String.eqb_spec k' key); [now left | right; now apply IH].
Qed.

Lemma aggregateMap_keys keyOf (chains : list CallChain) (k : string) :
  In k (map fst (aggregateMap keyOf chains))
  <-> exists chain, In chain chains /\ k = keyOf (Frames chain).
Proof.
  unfold aggregateMap.
  enough (H : forall m,
             In k (map fst (fold_left (aggregateStep keyOf) chains m))
             <-> In k (map fst m)
                 \/ exists chain, In chain chains /\ k = keyOf (Frames chain)).
  { rewrite H. cbn. tauto. }
  induction chains as [|c chains IH]; intros m; cbn [fold_left].
  - split; [tauto | intros [H | (x & [] & _)]; exact H].
  - rewrite IH. unfold aggregateStep.
    destruct (lookupChain (keyOf (Frames c)) m) eqn:Hl.
    + rewrite lookupChain_updateChain. split.
      * intros [H | (x & Hx & Hk)]; [now left | right; exists x; cbn; tauto].
      * intros [H | (x & [<- | Hx] & Hk)]; [now left | | right; now exists x].
        left. subst k. exact (lookupChain_In _ _ _ Hl).
    + rewrite map_app, in_app_iff. cbn. split.
      * intros [[H | [H | []]] | (x & Hx & Hk)];
          [now left | right; exists c; split; [now left | now symmetry]
          | right; exists x; tauto].
      * intros [H | (x & [<- | Hx] & Hk)];
          [left; now left | left; right; left; now symmetry | right; now exists x].
Qed.

Lemma generateCallChainKey_spec (frames : list StackFrame) :
  generateCallChainKey frames = plainKey_spec frames.
Proof.
  unfold generateCallChainKey, plainKey_spec.
  destruct frames as [|f frames]; [reflexivity |].
  replace (Z.of_nat (List.length (f :: frames)) =? 0) with false
    by (symmetry; apply Z.eqb_neq; cbn [List.length]; lia).
  now rewrite appendNames_spec by lia.
Qed.

(** The map depends on the key function only through the keys of the chains
    it is given. *)
Lemma aggregateMap_ext (keyOf keyOf' : list StackFrame -> string)
    (chains : list CallChain) :
  (forall chain, In chain chains -> keyOf (Frames chain) = keyOf' (Frames chain)) ->
  aggregateMap keyOf chains = aggregateMap keyOf' chains.
Proof.
  unfold aggregateMap. generalize (@nil (string * CallChain)) as m.
  induction chains as [|c chains IH]; intros m Hkeys; cbn [fold_left];
    [reflexivity |].
  unfold aggregateStep at 2 4. rewrite (Hkeys c (or_introl eq_refl)).
  apply IH. intros chain Hin. apply Hkeys. now right.
Qed.

(** C1, as the code has it.  The source holds two versions of
    [AggregateCallChains].  The one that comes with
    [generateSmartCallChainKey] files every chain under that key, and for
    chains with at least one frame the map it builds is the map keyed by
    "business:" and the full names of the business frames in order, joined
    by "|", when there is a business frame, otherwise by "system:" and the
    names of the first min(5, n) frames joined by "|".  The one of
    analyzer.go files every chain under [generateCallChainKey]: the names of
    all frames joined by "|", with no prefix. *)
Theorem AggregateCallChains_key (chains : list CallChain) :
  (forall chain, In chain chains -> Frames chain <> []) ->
  (aggregateMap generateSmartCallChainKey chains = aggregateMap smartKey_spec chains
   /\ AggregateCallChains chains = map snd (aggregateMap smartKey_spec chains)
   /\ forall key, In key (map fst (aggregateMap generateSmartCallChainKey chains))
                  <-> exists chain, In chain chains
                                    /\ key = smartKey_spec (Frames chain))
  /\ (aggregateMap generateCallChainKey chains = aggregateMap plainKey_spec chains
      /\ Plain.AggregateCallChains chains
         = map snd (aggregateMap plainKey_spec chains)
      /\ forall key, In key (map fst (aggregateMap generateCallChainKey chains))
                     <-> exists chain, In chain chains
                                       /\ key = plainKey_spec (Frames chain)).
Proof.
  intros Hne.
  assert (Hsmart : aggregateMap generateSmartCallChainKey chains
                   = aggregateMap smartKey_spec chains).
  { apply aggregateMap_ext. intros chain Hin.
    apply generateSmartCallChainKey_spec. now apply Hne. }
  assert (Hplain : aggregateMap generateCallChainKey chains
                   = aggregateMap plainKey_spec chains).
  { apply aggregateMap_ext. intros chain _. apply generateCallChainKey_spec. }
  unfold AggregateCallChains, Plain.AggregateCallChains.
  rewrite Hsmart, Hplain.
  split; (split; [reflexivity | split; [reflexivity |]]);
    intros key; apply aggregateMap_keys.
Qed.

(** The two versions file the chain of the handler under different keys. *)
Example handlerChain_keys :
  generateSmartCallChainKey handlerChain = "business:app/handler.H"
  /\ generateCallChainKey handlerChain
     = "app/handler.H|encoding/json.Marshal|runtime.mallocgc".
Proof. split; reflexivity. Qed.

End AggregationKey.


(** Two chains of one business call with different runtime tails: the
    version with the smart key files both under "business:main.main" and
    merges them. *)
Lemma AggregateCallChains_key_witness :
  map fst (Locator.aggregateMap Locator.generateSmartCallChainKey twoTails)
  = ["business:main.main"]
  /\ map Locator.TotalValue (Locator.AggregateCallChains twoTails) = [3000].
Proof.
  destruct (AggregateCallChains_key twoTails) as ((Hmap & Hresult & _) & _).
  - intros chain [<- | [<- | []]]; discriminate.
  - rewrite Hmap, Hresult. split; reflexivity.
Defined.

(** C1 as stated fails for the [AggregateCallChains] of analyzer.go: it
    files the same two chains, which have a business frame, under the names
    of all their frames, not under "business:main.main", and so keeps them
    apart. *)
Lemma AggregateCallChains_plain_key :
  map (fun chain => Locator.smartKey_spec (Locator.Frames chain)) twoTails
  = ["business:main.main"; "business:main.main"]
  /\ map fst (Locator.aggregateMap Locator.generateCallChainKey twoTails)
     = ["main.main|runtime.mallocgc"; "main.main|runtime.newobject"]
  /\ Locator.aggregateMap Locator.generateCallChainKey twoTails
     <> Locator.aggregateMap Locator.smartKey_spec twoTails
  /\ map Locator.TotalValue (Locator.Plain.AggregateCallChains twoTails)
     = [1000; 2000].
Proof.
  split; [reflexivity |]. split; [reflexivity |]. split; [| reflexivity].
  vm_compute. discriminate.
Qed.

(* ================================================================== *)
(** * Profile-type detection *)
(* ================================================================== *)

Section DetectionFacts.
Import Analyzer.
Variable ToLower : string -> string.


Lemma detectSampleType_types (st : ValueType) (t : string) :
  detectSampleType ToLower st = Some t -> decidable_type t = true.
Proof.
  unfold detectSampleType.
  destruct ((String.eqb (ToLower (Type_ st)) "cpu"
             || String.eqb (ToLower (Type_ st)) "samples")
            && (String.eqb (ToLower (Unit st)) "nanoseconds"
                || String.eqb (ToLower (Unit st)) "count"));
    [intros [= <-]; reflexivity |].
  destruct (String.eqb (ToLower (Type_ st)) "alloc_objects"
            || String.eqb (ToLower (Type_ st)) "alloc_space"
            || String.eqb (ToLower (Type_ st)) "inuse_objects"
            || String.eqb (ToLower (Type_ st)) "inuse_space");
    [intros [= <-]; reflexivity |].
  destruct (String.eqb (ToLower (Type_ st)) "goroutine"
            || String.eqb (ToLower (Unit st)) "goroutine");
    [intros [= <-]; reflexivity |].
  destruct (String.eqb (ToLower (Type_ st)) "contentions") eqn:Hc; cbn [orb andb].
  - intros [= <-]; reflexivity.
  - destruct (String.eqb (ToLower (Type_ st)) "delay");
      [intros [= <-]; reflexivity | discriminate].
Qed.

Lemma detectLoop_types (sts : list ValueType) (t : string) :
  detectLoop ToLower sts = Some t -> decidable_type t = true.
Proof.
  induction sts as [|st sts IH]; cbn [detectLoop]; [discriminate |].
  destruct (detectSampleType ToLower st) as [t'|] eqn:Hst.
  - intros [= <-]. exact (detectSampleType_types st t' Hst).
  - exact IH.
Qed.

Lemma decidable_type_not_mutex (t : string) :
  decidable_type t = true -> String.eqb t "mutex" = false.
Proof.
  unfold decidable_type. intros H.
  destruct (String.eqb_spec t "mutex") as [-> |]; [discriminate H | reflexivity].
Qed.

(** C10.  [detectProfileType] never answers "mutex": the test for a mutex
    profile comes after the test for a block profile, which already accepts
    every entry whose type is "contentions". *)
Theorem detectProfileType_never_mutex (p : option Profile) :
  String.eqb (detectProfileType ToLower p) "mutex" = false.
Proof.
  destruct p as [p|]; [| reflexivity]. unfold detectProfileType.
  destruct (detectLoop ToLower (SampleType p)) as [t|] eqn:Hloop.
  - apply decidable_type_not_mutex. exact (detectLoop_types _ _ Hloop).
  - destruct (0 <? DurationNanos p); reflexivity.
Qed.

(** An entry contentions/count, as a mutex profile has it, is a block entry
    unless an earlier test (the unit "goroutine") applies, which "count"
    excludes. *)
Lemma detectSampleType_contentions_count (st : ValueType) :
  ToLower (Type_ st) = "contentions" -> ToLower (Unit st) = "count" ->
  detectSampleType ToLower st = Some "block".
Proof.
  intros Ht Hu. unfold detectSampleType. rewrite Ht, Hu. reflexivity.
Qed.

(** So a profile that starts with such an entry is grouped as block. *)
Lemma detectProfileType_contentions_count (p : Profile) (st : ValueType)
    (rest : list ValueType) :
  SampleType p = st :: rest ->
  ToLower (Type_ st) = "contentions" -> ToLower (Unit st) = "count" ->
  detectProfileType ToLower (Some p) = "block".
Proof.
  intros Hp Ht Hu. unfold detectProfileType. rewrite Hp. cbn [detectLoop].
  now rewrite (detectSampleType_contentions_count st Ht Hu).
Qed.

End DetectionFacts.

(* ================================================================== *)
(** * Facts about binary64 *)
(* ================================================================== *)

Section Float64Facts.
Import Float64.

Lemma one_eq : one = S754_finite false 4503599627370496 (-52).
Proof. reflexivity. Qed.


Lemma not_finite_invalid (v : float64) :
  is_finite v = false -> IsNaN v || IsInf v 0 = true.
Proof. destruct v as [s | [|] | | s m e]; cbn; try discriminate; reflexivity. Qed.

(** A value that passes the NaN and infinity tests and is not below zero
    is a zero or a positive finite number. *)
Lemma finite_nonneg_cases (s : bool) (m : positive) (e : Z) :
  ltb (S754_finite s m e) zero = false -> s = false.
Proof. destruct s; [discriminate | reflexivity]. Qed.

Lemma leb_one_of_not_ltb (m : positive) (e : Z) :
  ltb one (S754_finite false m e) = false ->
  leb (S754_finite false m e) one = true.
Proof.
  rewrite one_eq. unfold ltb, leb, SFltb, SFleb, SFcompare.
  rewrite (Z.compare_antisym e (-52)).
  destruct (e ?= -52) eqn:He; cbn [CompOpp]; try discriminate; try reflexivity.
  change (PosDef.Pos.compare_cont Eq 4503599627370496 m)
    with (Pos.compare_cont (CompOpp Eq) 4503599627370496 m).
  change (PosDef.Pos.compare_cont Eq m 4503599627370496)
    with (Pos.compare_cont Eq m 4503599627370496).
  rewrite <- (Pos.compare_cont_antisym m 4503599627370496 Eq).
  destruct (Pos.compare_cont Eq m 4503599627370496); cbn; try discriminate; reflexivity.
Qed.

(** The final clamp [math.Max(0, math.Min(1, r2))] lands in [0, 1] once NaN
    and the infinities are excluded. *)
Lemma clamp_bounds (r : float64) :
  IsNaN r || IsInf r 0 = false ->
  leb zero (Max zero (Min one r)) = true /\ leb (Max zero (Min one r)) one = true.
Proof.
  destruct r as [s | s | | s m e].
  - destruct s; intros _; split; reflexivity.
  - destruct s; discriminate.
  - discriminate.
  - intros Hv. apply orb_false_elim in Hv as [Hnan Hinf].
    unfold IsInf in Hinf. cbn [Z.leb Z.compare andb] in Hinf.
    apply orb_false_elim in Hinf as [Hpos Hneg].
    assert (HMin : Min one (S754_finite s m e)
                   = if ltb one (S754_finite s m e) then one else S754_finite s m e).
    { unfold Min.
      replace (IsInf one (-1)) with false by reflexivity.
      replace (IsInf (S754_finite s m e) (-1)) with false
        by (unfold IsInf; cbn [Z.leb Z.compare andb orb]; now rewrite Hneg).
      replace (IsNaN one) with false by reflexivity.
      rewrite Hnan. reflexivity. }
    rewrite HMin. destruct (ltb one (S754_finite s m e)) eqn:Hlt.
    + split; reflexivity.
    + assert (HMax : Max zero (S754_finite s m e)
                     = if gtb zero (S754_finite s m e) then zero else S754_finite s m e).
      { unfold Max.
        replace (IsInf zero 1) with false by reflexivity.
        replace (IsInf (S754_finite s m e) 1) with false
          by (unfold IsInf; cbn [Z.leb Z.compare andb orb]; now rewrite Hpos).
        replace (IsNaN zero) with false by reflexivity.
        rewrite Hnan. destruct s; reflexivity. }
      rewrite HMax. unfold gtb. fold (ltb (S754_finite s m e) zero).
      destruct (ltb (S754_finite s m e) zero) eqn:Hz.
      * split; reflexivity.
      * apply finite_nonneg_cases in Hz. subst s. split.
        -- reflexivity.
        -- now apply leb_one_of_not_ltb.
Qed.







End Float64Facts.

(* ================================================================== *)
(** * Linear regression *)
(* ================================================================== *)

Section RegressionFacts.
Import Float64 Analyzer.

Lemma existsb_invalid (values : list float64) (v : float64) :
  In v values -> is_finite v = false -> existsb invalid values = true.
Proof.
  intros Hin Hv. apply existsb_exists. exists v. split; [exact Hin |].
  now apply not_finite_invalid.
Qed.

(** C8.  A series that holds a NaN or an infinity yields slope 0 and
    R² 0, whatever its length. *)
Theorem LinearRegression_non_finite (values : list float64) (v : float64) :
  In v values -> is_finite v = false ->
  LinearRegression values = (zero, zero).
Proof.
  intros Hin Hv. unfold LinearRegression.
  destruct (ltb (lenOf values) (of_int 2)); [reflexivity |].
  now rewrite (existsb_invalid values v Hin Hv).
Qed.

(** C7.  The R² that [LinearRegression] returns lies between 0 and 1; this
    holds on every path through the function, so in particular for every
    series of at least two finite values. *)
Theorem LinearRegression_R2_bounds (values : list float64) :
  leb zero (snd (LinearRegression values)) = true
  /\ leb (snd (LinearRegression values)) one = true.
Proof.
  assert (Hzero : leb zero (snd (zero, zero)) = true
                  /\ leb (snd (zero, zero)) one = true) by (split; reflexivity).
  unfold LinearRegression.
  destruct (ltb (lenOf values) (of_int 2)); [exact Hzero |].
  destruct (existsb invalid values); [exact Hzero |].
  destruct (invalid (meanYOf values)); [exact Hzero |].
  destruct (eqb (denominatorOf values) zero); [exact Hzero |].
  destruct (invalid (div (numeratorOf values) (denominatorOf values)));
    [exact Hzero |].
  destruct (invalid (sub (meanYOf values)
                         (mul (div (numeratorOf values) (denominatorOf values))
                              (meanXOf values)))); [exact Hzero |].
  destruct (residualLoop 0 values _ _ _ zero zero) as [[ssRes ssTot]|];
    [| exact Hzero].
  destruct (invalid ssRes || invalid ssTot); [exact Hzero |].
  cbn [snd]. apply clamp_bounds.
  destruct (invalid (if eqb ssTot zero then one else sub one (div ssRes ssTot)))
    eqn:Hinv; [reflexivity | exact Hinv].
Qed.



End RegressionFacts.


(** C6, at the failing input.  Three copies of 0.1 are finite and identical.
    Their computed mean, (0.1 + 0.1 + 0.1) / 3, is not 0.1, so the total sum
    of squares is not zero, the test [ssTot == 0] that the code has for
    constant series misses, and R² comes out as 0, not 1.  On the series of
    the repository's test, five times 5, where the sums are exact, the same
    code returns slope 0 and R² 1. *)
Theorem LinearRegression_constant_rounding :
  Float64.is_float64 tenth = true
  /\ Float64.is_finite tenth = true
  /\ Float64.eqb (Analyzer.meanYOf [tenth; tenth; tenth]) tenth = false
  /\ Analyzer.LinearRegression [tenth; tenth; tenth] = (Float64.zero, Float64.zero)
  /\ snd (Analyzer.LinearRegression [tenth; tenth; tenth]) <> Float64.one
  /\ Analyzer.LinearRegression [five; five; five; five; five]
     = (Float64.zero, Float64.one).
Proof.
  split; [reflexivity |]. split; [reflexivity |].
  split; [vm_compute; reflexivity |]. split; [vm_compute; reflexivity |].
  split; [vm_compute; discriminate | vm_compute; reflexivity].
Qed.

(** The guard on the mean has the same effect on a constant series whose sum
    overflows: two copies of the largest finite value are finite and
    identical, the computed mean is infinite, and the result is slope 0 and
    R² 0. *)
Example LinearRegression_constant_overflow :
  Float64.is_float64 Float64.MaxFloat64 = true
  /\ Float64.is_finite Float64.MaxFloat64 = true
  /\ Analyzer.meanYOf [Float64.MaxFloat64; Float64.MaxFloat64] = S754_infinity false
  /\ Analyzer.LinearRegression [Float64.MaxFloat64; Float64.MaxFloat64]
     = (Float64.zero, Float64.zero).
Proof. repeat split; vm_compute; reflexivity. Qed.

Lemma LinearRegression_non_finite_witness :
  Analyzer.LinearRegression
    [Float64.of_int 1; S754_infinity false; Float64.of_int 2; Float64.of_int 3]
  = (Float64.zero, Float64.zero).
Proof.
  apply (LinearRegression_non_finite _ (S754_infinity false)).
  - right. left. reflexivity.
  - reflexivity.
Defined.

(** The series 1, 3, 2 runs through the whole function: slope 1/2, R² 1/4. *)
Example LinearRegression_1_3_2 :
  Analyzer.LinearRegression (map Float64.of_int [1; 3; 2])
  = (Float64.of_ratio 1 2, Float64.of_ratio 1 4).
Proof. vm_compute. reflexivity. Qed.

(* ================================================================== *)
(** * Trends of small groups *)
(* ================================================================== *)

Section TrendFacts.
Import Analyzer Rules.

(** C9.  A group of fewer than three files has no trends: [CalculateTrends]
    returns nil, so the driver enters nothing for the group and the engine
    reads nil; the one condition that can then still hold is the one that
    reads no trend, cpu_profile_exists on a cpu group, and no cross-analysis
    condition holds. *)
Theorem CalculateTrends_few_files (group : ProfileGroup) :
  (List.length (Files group) < 3)%nat ->
  CalculateTrends group = None
  /\ (forall condition,
        evaluateCondition condition group (trendsOfGroup group)
        = (String.eqb condition "cpu_profile_exists"
           && String.eqb (GroupType group) "cpu"
           && (0 <? List.length (Files group))%nat))
  /\ (forall condition profileType,
        evaluateCrossCondition condition profileType group (trendsOfGroup group)
        = (false, None)).
Proof.
  intros Hlen.
  assert (Hnil : CalculateTrends group = None).
  { unfold CalculateTrends.
    destruct (Z.ltb_spec (Z.of_nat (List.length (Files group))) 3); [reflexivity | lia]. }
  unfold trendsOfGroup. rewrite Hnil. split; [reflexivity | split].
  - intros condition. unfold evaluateCondition.
    destruct (String.eqb condition "cpu_profile_exists"
              && String.eqb (GroupType group) "cpu"); reflexivity.
  - reflexivity.
Qed.

End TrendFacts.


Lemma CalculateTrends_few_files_witness :
  Analyzer.CalculateTrends twoHeapProfiles = None
  /\ Rules.evaluateCondition "trends.heap_inuse.slope > 0" twoHeapProfiles
       (Rules.trendsOfGroup twoHeapProfiles) = false.
Proof.
  assert (Hlen : (List.length (Analyzer.Files twoHeapProfiles) < 3)%nat)
    by (cbn; lia).
  destruct (CalculateTrends_few_files twoHeapProfiles Hlen) as (Hnil & Hcond & _).
  split; [exact Hnil |].
  rewrite Hcond. reflexivity.
Defined.

(** With a third file the same group has a trend and the rule fires. *)
Example three_heap_profiles_fire :
  Rules.evaluateCondition "trends.heap_inuse.slope > 0" threeHeapProfiles
    (Rules.trendsOfGroup threeHeapProfiles)
  = true.
Proof. vm_compute. reflexivity. Qed.

(* ================================================================== *)
(** * Heap insights *)
(* ================================================================== *)

Section InsightFacts.
Import Float64 Analyzer.


Lemma other_blocks_not_gc (m : ProfileMetrics) :
  filter isGCInsight
    (inuseInsights m ++ allocInsights m ++ topFunctionInsights m) = [].
Proof.
  rewrite !filter_app.
  unfold inuseInsights, allocInsights, topFunctionInsights.
  destruct (gtb _ (of_int 1024)); destruct (TopAllocFunctions m) as [|a ?];
    destruct (TopFunctions m) as [|t ?];
    repeat match goal with
           | |- context [if ?c then _ else _] => destruct c
           end; reflexivity.
Qed.

Lemma gc_filter (m : ProfileMetrics) :
  filter isGCInsight (AnalyzeHeapInsights (Some m)) = gcInsights m.
Proof.
  unfold AnalyzeHeapInsights. rewrite filter_app, other_blocks_not_gc, app_nil_r.
  unfold gcInsights.
  repeat match goal with
         | |- context [if ?c then _ else _] => destruct c
         end; reflexivity.
Qed.

(** A reclaim rate of exactly 80 is computed without rounding error. *)
Lemma gcRate_10_2 (m : ProfileMetrics) :
  AllocSpace m = 10 * MB -> InuseSpace m = 2 * MB -> gcRateOf m = of_int 80.
Proof. intros Ha Hi. unfold gcRateOf. rewrite Ha, Hi. vm_compute. reflexivity. Qed.

Lemma gcRate_10_8 (m : ProfileMetrics) :
  AllocSpace m = 10 * MB -> InuseSpace m = 8 * MB -> gcRateOf m = of_int 20.
Proof. intros Ha Hi. unfold gcRateOf. rewrite Ha, Hi. vm_compute. reflexivity. Qed.

(** C3, as the code has it.  With AllocSpace = 10 MB: for InuseSpace = 2 MB
    the reclaim rate is exactly 80, the test [gcRate < 80] fails and no
    GC-reclaim-rate insight is emitted; for InuseSpace = 8 MB the rate is 20
    and exactly one GC-reclaim-rate insight is emitted, of level critical. *)
Theorem AnalyzeHeapInsights_gc_rate (m : ProfileMetrics) :
  AllocSpace m = 10 * MB ->
  (InuseSpace m = 2 * MB ->
     filter isGCInsight (AnalyzeHeapInsights (Some m)) = [])
  /\ (InuseSpace m = 8 * MB ->
        map Level (filter isGCInsight (AnalyzeHeapInsights (Some m))) = ["critical"]).
Proof.
  intros Ha. split; intros Hi; rewrite gc_filter; unfold gcInsights; rewrite Ha.
  - rewrite (gcRate_10_2 m Ha Hi). vm_compute. reflexivity.
  - rewrite (gcRate_10_8 m Ha Hi). vm_compute. reflexivity.
Qed.

End InsightFacts.


Lemma AnalyzeHeapInsights_gc_rate_witness :
  map Analyzer.Level
    (filter isGCInsight
       (Analyzer.AnalyzeHeapInsights (Some (heapMetrics (10 * MB) (8 * MB)))))
  = ["critical"].
Proof.
  apply (AnalyzeHeapInsights_gc_rate (heapMetrics (10 * MB) (8 * MB))); reflexivity.
Defined.

(** C3 as stated fails: at a rate of exactly 80 there is no insight at all,
    so no warning. *)
Lemma AnalyzeHeapInsights_no_warning_at_80 :
  Analyzer.AnalyzeHeapInsights (Some (heapMetrics (10 * MB) (2 * MB))) = [].
Proof. vm_compute. reflexivity. Qed.

(* ================================================================== *)
(** * De-duplication of findings *)
(* ================================================================== *)

Section DedupFacts.
Import Rules.


Lemma member_cons (k k' : string) (set : list string) :
  member k (k' :: set) = String.eqb k k' || member k set.
Proof. reflexivity. Qed.

Lemma NoDup_snoc {A} (l : list A) (x : A) :
  NoDup l -> ~ In x l -> NoDup (l ++ [x]).
Proof.
  induction l as [|y l IH]; intros Hnd Hx; cbn.
  - constructor; [intros [] | constructor].
  - inversion Hnd as [|? ? Hy Hl]; subst. constructor.
    + rewrite in_app_iff. intros [H | [H | []]]; [now apply Hy |].
      apply Hx. left. now symmetry.
    + apply IH; [exact Hl |]. intros H. apply Hx. now right.
Qed.

Lemma dedupInv_push (st : DedupState) (finding : Finding) (kws : list string) :
  dedupInv st ->
  member (findingKey finding) (seen st) = false ->
  dedupInv {| seen := findingKey finding :: seen st;
              seenTitleKeywords := kws;
              result := (result st ++ [finding])%list |}.
Proof.
  intros [Hseen Hnd] Hnew. split; cbn [seen result].
  - intros f Hf. rewrite member_cons. apply in_app_iff in Hf as [Hf | [<- | []]].
    + rewrite (Hseen f Hf). apply orb_true_r.
    + now rewrite String.eqb_refl.
  - rewrite map_app. cbn [map]. apply NoDup_snoc; [exact Hnd |].
    intros Hin. apply in_map_iff in Hin as (f & Hpair & Hf).
    assert (Hkey : findingKey f = findingKey finding).
    { unfold pairOf in Hpair. injection Hpair as Hr Ht.
      unfold findingKey. now rewrite Hr, Ht. }
    specialize (Hseen f Hf). rewrite Hkey in Hseen. congruence.
Qed.

Lemma crossStep_inv (order : MapOrder) (st : DedupState) (finding : Finding) :
  dedupInv st -> dedupInv (crossStep order st finding).
Proof.
  intros Hinv. unfold crossStep.
  destruct (member (findingKey finding) (seen st)) eqn:Hm; [exact Hinv |].
  now apply dedupInv_push.
Qed.

Lemma singleStep_inv (order : MapOrder) (st : DedupState) (finding : Finding) :
  dedupInv st -> dedupInv (singleStep order st finding).
Proof.
  intros Hinv. unfold singleStep.
  destruct (member (findingKey finding) (seen st)) eqn:Hm; [exact Hinv |].
  destruct (negb (String.eqb (extractTitleKeyword order (Title finding)) EmptyString)
            && member (extractTitleKeyword order (Title finding))
                      (seenTitleKeywords st)); [exact Hinv |].
  now apply dedupInv_push.
Qed.

Lemma runLoop_inv step (orders : nat -> MapOrder) (findings : list Finding) :
  (forall order st f, dedupInv st -> dedupInv (step order st f)) ->
  forall k st, dedupInv st -> dedupInv (runLoop step orders k findings st).
Proof.
  intros Hstep. induction findings as [|f findings IH]; intros k st Hinv; cbn.
  - exact Hinv.
  - apply IH. now apply Hstep.
Qed.

(** X1.  Whatever the map orders are, no two findings of the output share
    (RuleID, Title). *)
Lemma deduplicateFindings_no_duplicates crossOrders singleOrders findings :
  NoDup (map pairOf (deduplicateFindings crossOrders singleOrders findings)).
Proof.
  unfold deduplicateFindings.
  destruct (List.length findings <=? 1)%nat eqn:Hlen.
  - destruct findings as [|f [|g findings]]; cbn; try discriminate.
    + constructor.
    + constructor; [intros [] | constructor].
  - apply runLoop_inv; [exact singleStep_inv |].
    apply runLoop_inv; [exact crossStep_inv |].
    split; cbn; [intros f [] | constructor].
Qed.

(** ** Suppression by keyword *)

Lemma member_In (k : string) (set : list string) :
  member k set = true <-> In k set.
Proof.
  unfold member. rewrite existsb_exists. split.
  - intros (x & Hx & Heq). apply String.eqb_eq in Heq. now subst.
  - intros H. exists k. split; [exact H | apply String.eqb_refl].
Qed.

Lemma member_app (k : string) (a b : list string) :
  member k (a ++ b) = member k a || member k b.
Proof. unfold member. apply existsb_app. Qed.

Lemma carriesKeyword_iff (K title : string) :
  carriesKeyword K title = true
  <-> exists patterns, In (K, patterns) keywordPatterns
                       /\ titleMatches (toLowerString title) patterns = true.
Proof.
  unfold carriesKeyword. rewrite existsb_exists. split.
  - intros ([k pats] & Hin & H). cbn [fst snd] in H.
    apply andb_true_iff in H as [Hk Hm]. apply String.eqb_eq in Hk. subst k.
    now exists pats.
  - intros (pats & Hin & Hm). exists (K, pats). cbn [fst snd].
    now rewrite String.eqb_refl, Hm.
Qed.

Lemma keyword_not_empty (K : string) (patterns : list string) :
  In (K, patterns) keywordPatterns -> K <> EmptyString.
Proof.
  cbn. intros [H | [H | [H | []]]]; injection H as <- _; discriminate.
Qed.

Lemma extractAll_In (titleLower : string) (order : MapOrder) (K : string) :
  In K (extractAllTitleKeywords_loop titleLower order)
  <-> exists patterns, In (K, patterns) order
                       /\ titleMatches titleLower patterns = true.
Proof.
  induction order as [|[k pats] order IH]; cbn [extractAllTitleKeywords_loop].
  - split; [intros [] | intros (? & [] & _)].
  - destruct (titleMatches titleLower pats) eqn:Hm; cbn [In]; rewrite ?IH; split.
    + intros [<- | (p & Hin & Hp)]; [exists pats; split; [now left | exact Hm] |].
      exists p. split; [now right | exact Hp].
    + intros (p & [[= <- <-] | Hin] & Hp); [now left | right; now exists p].
    + intros (p & Hin & Hp). exists p. split; [now right | exact Hp].
    + intros (p & [[= <- <-] | Hin] & Hp); [congruence | now exists p].
Qed.

(** The keyword [extractTitleKeyword] returns is the keyword of an entry the
    title matches, if there is one. *)
Lemma extractTitleKeyword_loop_match (titleLower : string) (order : MapOrder) :
  (exists K patterns, In (K, patterns) order
                      /\ titleMatches titleLower patterns = true) ->
  exists patterns,
    In (extractTitleKeyword_loop titleLower order, patterns) order
    /\ titleMatches titleLower patterns = true.
Proof.
  induction order as [|[k pats] order IH]; cbn [extractTitleKeyword_loop].
  - intros (? & ? & [] & _).
  - intros (K & p & Hin & Hp).
    destruct (titleMatches titleLower pats) eqn:Hm.
    + exists pats. split; [now left | exact Hm].
    + destruct Hin as [[= <- <-] | Hin]; [congruence |].
      destruct IH as (p' & Hin' & Hp'); [now exists K, p |].
      exists p'. split; [now right | exact Hp'].
Qed.

Lemma extractTitleKeyword_only (order : MapOrder) (K title : string) :
  visitsAll order -> carriesOnly K title ->
  extractTitleKeyword order title = K.
Proof.
  intros Hall [Hc Honly]. unfold extractTitleKeyword.
  apply carriesKeyword_iff in Hc as (pats & Hin & Hm).
  destruct (extractTitleKeyword_loop_match (toLowerString title) order)
    as (p' & Hin' & Hp'); [exists K, pats; split; [now apply Hall | exact Hm] |].
  apply Honly. apply carriesKeyword_iff. exists p'. split; [now apply Hall | exact Hp'].
Qed.

Lemma runLoop_preserves (P : DedupState -> Prop) (Q : Finding -> Prop)
    step (orders : nat -> MapOrder) (findings : list Finding) :
  (forall k st f, Q f -> P st -> P (step (orders k) st f)) ->
  Forall Q findings ->
  forall k st, P st -> P (runLoop step orders k findings st).
Proof.
  intros Hstep HQ. induction HQ as [|f findings Hf _ IH]; intros k st HP; cbn.
  - exact HP.
  - apply IH. now apply Hstep.
Qed.

Lemma crossStep_crossInv (order : MapOrder) (st : DedupState) (f : Finding) :
  visitsAll order -> IsCrossAnalysis f = true ->
  crossInv st -> crossInv (crossStep order st f).
Proof.
  intros Hall Hcross Hinv. unfold crossStep.
  destruct (member (findingKey f) (seen st)); [exact Hinv |].
  intros g Hg. cbn [result seenTitleKeywords] in *.
  apply in_app_iff in Hg as [Hg | [<- | []]].
  - destruct (Hinv g Hg) as [Hgc Hgk]. split; [exact Hgc |].
    intros K HK. rewrite member_app, (Hgk K HK). apply orb_true_r.
  - split; [exact Hcross |]. intros K HK. rewrite member_app.
    apply orb_true_iff. left. apply member_In. unfold extractAllTitleKeywords.
    apply extractAll_In. apply carriesKeyword_iff in HK as (pats & Hin & Hm).
    exists pats. split; [now apply Hall | exact Hm].
Qed.

Lemma singleStep_singleInv (order : MapOrder) (st : DedupState) (f : Finding) :
  visitsAll order -> IsCrossAnalysis f = false ->
  singleInv st -> singleInv (singleStep order st f).
Proof.
  intros Hall Hsingle [HA HB]. unfold singleStep.
  destruct (member (findingKey f) (seen st)); [now split |].
  destruct (negb (String.eqb (extractTitleKeyword order (Title f)) EmptyString)
            && member (extractTitleKeyword order (Title f)) (seenTitleKeywords st))
    eqn:Hskip; [now split |].
  assert (Hcross : forall c, In c (result st ++ [f]) -> IsCrossAnalysis c = true ->
                             In c (result st)).
  { intros c Hc Hcc. apply in_app_iff in Hc as [Hc | [<- | []]]; [exact Hc | congruence]. }
  split; cbn [result seenTitleKeywords].
  - intros c Hc Hcc K HK. specialize (HA c (Hcross c Hc Hcc) Hcc K HK).
    destruct (negb (String.eqb (extractTitleKeyword order (Title f)) EmptyString));
      [rewrite member_cons, HA; apply orb_true_r | exact HA].
  - intros s Hs Hss K HK c Hc Hcc. specialize (Hcross c Hc Hcc).
    apply in_app_iff in Hs as [Hs | [<- | []]].
    + exact (HB s Hs Hss K HK c Hcross Hcc).
    + rewrite (extractTitleKeyword_only order K (Title f) Hall HK) in Hskip.
      destruct HK as [HK _].
      assert (Hne : String.eqb K EmptyString = false).
      { apply String.eqb_neq. apply carriesKeyword_iff in HK as (pats & Hin & _).
        exact (keyword_not_empty K pats Hin). }
      rewrite Hne in Hskip. cbn [negb andb] in Hskip.
      destruct (carriesKeyword K (Title c)) eqn:Hcarry; [| reflexivity].
      specialize (HA c Hcross Hcc K Hcarry). congruence.
Qed.

Lemma Forall_filter {A} (p : A -> bool) (l : list A) :
  Forall (fun x => p x = true) (filter p l).
Proof. apply Forall_forall. intros x Hx. now apply filter_In in Hx. Qed.

(** X2.  For the titles that carry one keyword only the suppression does not
    depend on the map orders: no such single-type finding stays in the output
    next to a cross-analysis finding that carries the keyword. *)
Lemma deduplicateFindings_suppresses_unambiguous
    crossOrders singleOrders findings (K : string) (c s : Finding) :
  (forall k, visitsAll (crossOrders k)) ->
  (forall k, visitsAll (singleOrders k)) ->
  In c (deduplicateFindings crossOrders singleOrders findings) ->
  IsCrossAnalysis c = true ->
  In s (deduplicateFindings crossOrders singleOrders findings) ->
  IsCrossAnalysis s = false ->
  carriesOnly K (Title s) ->
  carriesKeyword K (Title c) = false.
Proof.
  intros Hco Hso Hc Hcc Hs Hss HK. unfold deduplicateFindings in Hc, Hs.
  destruct (List.length findings <=? 1)%nat eqn:Hlen.
  - destruct findings as [|f [|g findings]]; cbn in Hlen; try discriminate.
    + destruct Hc.
    + destruct Hc as [<- | []]. destruct Hs as [<- | []]. congruence.
  - set (st1 := runLoop crossStep crossOrders 0 (filter IsCrossAnalysis findings)
                  {| seen := []; seenTitleKeywords := []; result := [] |}) in *.
    assert (H1 : crossInv st1).
    { apply (runLoop_preserves crossInv (fun f => IsCrossAnalysis f = true)).
      - intros k st f Hf. now apply crossStep_crossInv.
      - apply Forall_filter.
      - intros f []. }
    assert (H2 : singleInv st1).
    { split.
      - intros c' Hc' _ K' HK'. now apply (H1 c' Hc').
      - intros s' Hs' Hss'. destruct (H1 s' Hs') as [Hx _]. congruence. }
    assert (H3 : singleInv
                   (runLoop singleStep singleOrders 0
                      (filter (fun f => negb (IsCrossAnalysis f)) findings) st1)).
    { apply (runLoop_preserves singleInv (fun f => negb (IsCrossAnalysis f) = true)).
      - intros k st f Hf. apply singleStep_singleInv; [apply Hso |].
        now apply negb_true_iff in Hf.
      - apply Forall_filter.
      - exact H2. }
    destruct H3 as [_ HB]. exact (HB s Hs Hss K HK c Hc Hcc).
Qed.

End DedupFacts.

(** The memory finding stays next to the cross-analysis finding, whose title
    carries other keywords. *)
Lemma deduplicateFindings_suppresses_unambiguous_witness :
  Rules.deduplicateFindings (fun _ => memoryFirst) (fun _ => memoryFirst)
    [heapLeak; goroutineStorm]
  = [goroutineStorm; heapLeak]
  /\ carriesKeyword "memory_leak" (Rules.Title goroutineStorm) = false.
Proof.
  split; [vm_compute; reflexivity |].
  apply (deduplicateFindings_suppresses_unambiguous
           (fun _ => memoryFirst) (fun _ => memoryFirst)
           [heapLeak; goroutineStorm] "memory_leak" goroutineStorm heapLeak).
  - intros _ entry. reflexivity.
  - intros _ entry. reflexivity.
  - vm_compute. left. reflexivity.
  - reflexivity.
  - vm_compute. right. left. reflexivity.
  - reflexivity.
  - split; [vm_compute; reflexivity |].
    intros K' H. apply carriesKeyword_iff in H as (patterns & Hin & Hm).
    destruct Hin as [E | [E | [E | []]]]; injection E as <- <-;
      [reflexivity | vm_compute in Hm; discriminate | vm_compute in Hm; discriminate].
Defined.


(** Both are orders of the map. *)
Example orders_visit_all : visitsAll memoryFirst /\ visitsAll goroutineFirst.
Proof.
  split; intros entry; [tauto |].
  unfold goroutineFirst, Rules.keywordPatterns. cbn [In]. tauto.
Qed.

(** C2, first half, at the failing input.  Both titles carry
    goroutine_leak.  When the loop of [extractTitleKeyword] meets memory_leak
    first, the single-type finding is filed under memory_leak and survives
    next to the cross-analysis finding; when it meets goroutine_leak first,
    the finding is suppressed. *)
Theorem deduplicateFindings_depends_on_map_order :
  carriesKeyword "goroutine_leak" (Rules.Title goroutineStorm) = true
  /\ carriesKeyword "goroutine_leak" (Rules.Title stackGrowth) = true
  /\ Rules.deduplicateFindings (fun _ => memoryFirst) (fun _ => memoryFirst)
       [stackGrowth; goroutineStorm]
     = [goroutineStorm; stackGrowth]
  /\ Rules.deduplicateFindings (fun _ => memoryFirst) (fun _ => goroutineFirst)
       [stackGrowth; goroutineStorm]
     = [goroutineStorm].
Proof. repeat split; vm_compute; reflexivity. Qed.

(* ================================================================== *)
(** * Business frames and boundary points *)
(* ================================================================== *)

Section ChainFacts.
Import Locator.

(** ** Business frames *)

Lemma businessFrom_In (frames : list StackFrame) :
  forall i k,
    In k (businessFrom i frames)
    <-> exists j f, k = i + Z.of_nat j /\ nth_error frames j = Some f
                    /\ isBusinessFrame f = true.
Proof.
  induction frames as [|frame rest IH]; intros i k; cbn [businessFrom].
  - split; [intros [] | intros (j & f & _ & H & _); destruct j; discriminate].
  - fold (isBusinessFrame frame).
    assert (Hrest : In k (businessFrom (i + 1) rest)
                    <-> exists j f, k = i + Z.of_nat (S j)
                                    /\ nth_error (frame :: rest) (S j) = Some f
                                    /\ isBusinessFrame f = true).
    { rewrite IH. split; intros (j & f & Hk & Hn & Hb); exists j, f;
        (split; [lia | split; assumption]). }
    destruct (isBusinessFrame frame) eqn:Hb; cbn [In]; rewrite Hrest; split.
    + intros [<- | (j & f & H)]; [exists O, frame; cbn; split; [lia | now split] |].
      now exists (S j), f.
    + intros ([|j] & f & Hk & Hn & Hf); [left; cbn in Hk; lia | right; now exists j, f].
    + intros (j & f & H). now exists (S j), f.
    + intros ([|j] & f & Hk & Hn & Hf); [cbn in Hn; congruence | now exists j, f].
Qed.

Lemma businessFrom_lower (frames : list StackFrame) :
  forall i, Forall (fun k => i <= k) (businessFrom i frames).
Proof.
  induction frames as [|frame rest IH]; intros i; cbn [businessFrom]; [constructor |].
  assert (H : Forall (fun k => i <= k) (businessFrom (i + 1) rest))
    by (eapply Forall_impl; [| apply IH]; cbn; intros; lia).
  destruct (CodeCategory_eqb (Category frame) CategoryBusiness);
    [constructor; [lia | exact H] | exact H].
Qed.

Lemma businessFrom_sorted (frames : list StackFrame) :
  forall i, StronglySorted Z.lt (businessFrom i frames).
Proof.
  induction frames as [|frame rest IH]; intros i; cbn [businessFrom]; [constructor |].
  destruct (CodeCategory_eqb (Category frame) CategoryBusiness); [| apply IH].
  constructor; [apply IH |].
  eapply Forall_impl; [| apply (businessFrom_lower rest (i + 1))]. cbn. intros; lia.
Qed.

Lemma FindBusinessFrames_In (frames : list StackFrame) (k : Z) :
  In k (FindBusinessFrames frames)
  <-> 0 <= k /\ exists f, nth_error frames (Z.to_nat k) = Some f
                          /\ isBusinessFrame f = true.
Proof.
  unfold FindBusinessFrames. rewrite businessFrom_In. split.
  - intros (j & f & -> & Hn & Hb). split; [lia |]. exists f.
    now replace (Z.to_nat (0 + Z.of_nat j)) with j by lia.
  - intros (Hk & f & Hn & Hb). exists (Z.to_nat k), f. split; [lia | now split].
Qed.

(** X3.  [FindBusinessFrames] returns, in strictly ascending order, exactly the
    indices of the frames whose category is business. *)
Theorem FindBusinessFrames_spec (frames : list StackFrame) :
  StronglySorted Z.lt (FindBusinessFrames frames)
  /\ forall k, In k (FindBusinessFrames frames)
               <-> 0 <= k /\ exists f, nth_error frames (Z.to_nat k) = Some f
                                       /\ isBusinessFrame f = true.
Proof.
  split; [apply businessFrom_sorted | apply FindBusinessFrames_In].
Qed.

(** ** Boundary points *)

Lemma boundariesFrom_In (rest : list StackFrame) :
  forall i prev k,
    In k (boundariesFrom i prev rest)
    <-> exists j a b, k = i + Z.of_nat j
                      /\ nth_error (prev :: rest) j = Some a
                      /\ nth_error rest j = Some b
                      /\ CodeCategory_eqb (Category b) (Category a) = false.
Proof.
  induction rest as [|frame rest IH]; intros i prev k; cbn [boundariesFrom].
  - split; [intros [] | intros (j & a & b & _ & _ & H & _); destruct j; discriminate].
  - assert (Hrest : In k (boundariesFrom (i + 1) frame rest)
                    <-> exists j a b, k = i + Z.of_nat (S j)
                                      /\ nth_error (prev :: frame :: rest) (S j) = Some a
                                      /\ nth_error (frame :: rest) (S j) = Some b
                                      /\ CodeCategory_eqb (Category b) (Category a) = false).
    { rewrite IH. split; intros (j & a & b & Hk & Ha & Hb & Hc); exists j, a, b;
        (split; [lia | repeat split; assumption]). }
    destruct (CodeCategory_eqb (Category frame) (Category prev)) eqn:Hc;
      cbn [negb In]; rewrite Hrest; split.
    + intros (j & a & b & H). now exists (S j), a, b.
    + intros ([|j] & a & b & Hk & Ha & Hb & Hne);
        [cbn in Ha, Hb; congruence | now exists j, a, b].
    + intros [<- | (j & a & b & H)];
        [exists O, prev, frame; cbn; split; [lia | repeat split; assumption] |].
      now exists (S j), a, b.
    + intros ([|j] & a & b & Hk & Ha & Hb & Hne);
        [left; cbn in Hk; lia | right; now exists j, a, b].
Qed.

Lemma boundariesFrom_lower (rest : list StackFrame) :
  forall i prev, Forall (fun k => i <= k) (boundariesFrom i prev rest).
Proof.
  induction rest as [|frame rest IH]; intros i prev; cbn [boundariesFrom]; [constructor |].
  assert (H : Forall (fun k => i <= k) (boundariesFrom (i + 1) frame rest))
    by (eapply Forall_impl; [| apply IH]; cbn; intros; lia).
  destruct (negb (CodeCategory_eqb (Category frame) (Category prev)));
    [constructor; [lia | exact H] | exact H].
Qed.

Lemma boundariesFrom_sorted (rest : list StackFrame) :
  forall i prev, StronglySorted Z.lt (boundariesFrom i prev rest).
Proof.
  induction rest as [|frame rest IH]; intros i prev; cbn [boundariesFrom]; [constructor |].
  destruct (negb (CodeCategory_eqb (Category frame) (Category prev))); [| apply IH].
  constructor; [apply IH |].
  eapply Forall_impl; [| apply (boundariesFrom_lower rest (i + 1) frame)].
  cbn. intros; lia.
Qed.

(** X4.  [FindBoundaryPoints] returns, in strictly ascending order, exactly the
    indices i >= 1 at which the category differs from the one before. *)
Theorem FindBoundaryPoints_spec (frames : list StackFrame) :
  StronglySorted Z.lt (FindBoundaryPoints frames)
  /\ forall k, In k (FindBoundaryPoints frames)
               <-> 1 <= k
                   /\ exists a b, nth_error frames (Z.to_nat k - 1) = Some a
                                  /\ nth_error frames (Z.to_nat k) = Some b
                                  /\ CodeCategory_eqb (Category b) (Category a) = false.
Proof.
  destruct frames as [|first rest]; cbn [FindBoundaryPoints].
  - split; [constructor |]. intros k. split; [intros [] |].
    intros (_ & a & b & H & _). destruct (Z.to_nat k - 1)%nat; discriminate.
  - split; [apply boundariesFrom_sorted |]. intros k. rewrite boundariesFrom_In. split.
    + intros (j & a & b & -> & Ha & Hb & Hc). split; [lia |]. exists a, b.
      replace (Z.to_nat (1 + Z.of_nat j)) with (S j) by lia.
      replace (S j - 1)%nat with j by lia. now repeat split.
    + intros (Hk & a & b & Ha & Hb & Hc). exists (Z.to_nat k - 1)%nat, a, b.
      replace (Z.to_nat k) with (S (Z.to_nat k - 1)) in Hb by lia.
      split; [lia | now repeat split].
Qed.

End ChainFacts.

(* ================================================================== *)
(** * Extraction of call chains *)
(* ================================================================== *)

Section ExtractionFacts.
Import Locator.

Lemma last_cons_default {A} (l : list A) (z y : A) :
  last (z :: l) y = last l z.
Proof.
  revert z y; induction l as [|h l IH]; intros z y; [reflexivity |].
  change (last (z :: h :: l) y) with (last (h :: l) y). rewrite IH.
  symmetry. apply IH.
Qed.

Lemma boundariesFrom_snoc (rest : list StackFrame) :
  forall i prev f,
    boundariesFrom i prev (rest ++ [f])
    = (boundariesFrom i prev rest
       ++ if negb (CodeCategory_eqb (Category f) (Category (last rest prev)))
          then [i + Z.of_nat (List.length rest)] else [])%list.
Proof.
  induction rest as [|g rest IH]; intros i prev f.
  - cbn. rewrite Z.add_0_r. reflexivity.
  - cbn [app boundariesFrom]. rewrite IH.
    replace (i + 1 + Z.of_nat (List.length rest))
      with (i + Z.of_nat (List.length (g :: rest))) by (cbn [List.length]; lia).
    rewrite (last_cons_default rest g prev).
    destruct (negb (CodeCategory_eqb (Category g) (Category prev))); reflexivity.
Qed.

Lemma last_map_Some {A} (l : list A) (x : A) :
  last (map Some (l ++ [x])) None = Some x.
Proof.
  induction l as [|y l IH]; [reflexivity |].
  cbn [app map]. cbn [last]. destruct (map Some (l ++ [x])) eqn:E; [| exact IH].
  destruct l; discriminate.
Qed.

Lemma last_map_Some_cons {A} (l : list A) (y : A) :
  last (map Some (y :: l)) None = Some (last l y).
Proof.
  revert y; induction l as [|z l IH]; intros y; [reflexivity |].
  change (last (map Some (y :: z :: l)) None) with (last (map Some (z :: l)) None).
  rewrite IH. now rewrite last_cons_default.
Qed.

Lemma FindBoundaryPoints_snoc (frames : list StackFrame) (f : StackFrame) :
  FindBoundaryPoints (frames ++ [f])
  = (FindBoundaryPoints frames
     ++ if (0 <? Z.of_nat (List.length frames))
           && differsFrom (Category f)
                (option_map Category (last (map Some frames) None))
        then [Z.of_nat (List.length frames)] else [])%list.
Proof.
  destruct frames as [|first rest].
  - reflexivity.
  - cbn [app FindBoundaryPoints]. rewrite boundariesFrom_snoc.
    rewrite last_map_Some_cons. cbn [option_map differsFrom].
    replace (0 <? Z.of_nat (List.length (first :: rest))) with true
      by (symmetry; apply Z.ltb_lt; cbn [List.length]; lia).
    replace (1 + Z.of_nat (List.length rest))
      with (Z.of_nat (List.length (first :: rest))) by (cbn [List.length]; lia).
    reflexivity.
Qed.

Lemma pushFrame_ok (st : ChainState) (frame : StackFrame) :
  chainStateOk st ->
  chainStateOk (pushFrame st frame)
  /\ cs_frames (pushFrame st frame) = (cs_frames st ++ [frame])%list.
Proof.
  intros (Hb & Hc & Hp). split; [| reflexivity].
  unfold chainStateOk, pushFrame. cbn [cs_frames cs_breakdown cs_boundaries cs_prev].
  repeat split.
  - rewrite FindBoundaryPoints_snoc, Hb, Hp.
    destruct ((0 <? Z.of_nat (List.length (cs_frames st)))
              && differsFrom (Category frame)
                   (option_map Category (last (map Some (cs_frames st)) None)));
      [reflexivity | now rewrite app_nil_r].
  - unfold calculateCategoryBreakdown. rewrite fold_left_app. cbn [fold_left].
    now rewrite Hc.
  - now rewrite last_map_Some.
Qed.

Lemma lineLoop_ok (e : Extractor) (loc : Location) (st : ChainState) :
  chainStateOk st ->
  chainStateOk (lineLoop e loc st)
  /\ cs_frames (lineLoop e loc st)
     = (cs_frames st ++ framesOfLocation e (Some loc))%list.
Proof.
  unfold lineLoop, framesOfLocation.
  generalize (rev (Location_Line loc)) as lines. intros lines. revert st.
  induction lines as [|line lines IH]; intros st Hst; cbn [fold_left map].
  - split; [exact Hst | now rewrite app_nil_r].
  - destruct (pushFrame_ok st (ExtractStackFrame e (Some loc) (Some line)) Hst)
      as [Hok Hfr].
    destruct (IH _ Hok) as [Hok' Hfr']. split; [exact Hok' |].
    rewrite Hfr', Hfr, <- app_assoc. reflexivity.
Qed.

Lemma locationLoop_ok (e : Extractor) (locations : list (option Location))
    (st : ChainState) :
  chainStateOk st ->
  chainStateOk (locationLoop e locations st)
  /\ cs_frames (locationLoop e locations st)
     = (cs_frames st ++ framesOf e locations)%list.
Proof.
  unfold locationLoop, framesOf.
  generalize (rev locations) as locs. intros locs. revert st.
  induction locs as [|loc locs IH]; intros st Hst; cbn [fold_left flat_map].
  - split; [exact Hst | now rewrite app_nil_r].
  - destruct loc as [loc|].
    + destruct (lineLoop_ok e loc st Hst) as [Hok Hfr].
      destruct (IH _ Hok) as [Hok' Hfr']. split; [exact Hok' |].
      rewrite Hfr', Hfr, <- app_assoc. reflexivity.
    + destruct (IH _ Hst) as [Hok' Hfr']. split; [exact Hok' |].
      rewrite Hfr'. reflexivity.
Qed.

(** X5.  The frames of the chain are those of the sample's locations, entry
    first: the locations are walked from the last to the first, the lines of
    each from the last to the first, and nil locations are skipped. *)
Theorem ExtractCallChain_frames (e : Extractor) (sample : Sample)
    (valueIndex totalValue : Z) :
  Frames (ExtractCallChain e (Some sample) valueIndex totalValue)
  = framesOf e (Sample_Location sample).
Proof.
  cbn [ExtractCallChain Frames].
  destruct (locationLoop_ok e (Sample_Location sample) noChainState) as [_ H].
  - repeat split.
  - exact H.
Qed.

(** X6.  What the extraction keeps up to date while it appends frames is what
    the batch functions compute from the finished frames. *)
Theorem ExtractCallChain_consistent (e : Extractor) (sample : option Sample)
    (valueIndex totalValue : Z) :
  let chain := ExtractCallChain e sample valueIndex totalValue in
  BoundaryPoints chain = FindBoundaryPoints (Frames chain)
  /\ CategoryBreakdown chain = calculateCategoryBreakdown (Frames chain).
Proof.
  destruct sample as [sample|]; [| split; reflexivity].
  cbn [ExtractCallChain Frames BoundaryPoints CategoryBreakdown].
  destruct (locationLoop_ok e (Sample_Location sample) noChainState)
    as [(Hb & Hc & _) _]; [repeat split | now split].
Qed.

End ExtractionFacts.

(* ================================================================== *)
(** * The category breakdown *)
(* ================================================================== *)

Section Int64Facts.

Lemma wrap_small (z : Z) : - 2 ^ 63 <= z < 2 ^ 63 -> Int64.wrap z = z.
Proof.
  intros H. unfold Int64.wrap. rewrite Z.mod_small; lia.
Qed.

Lemma wrap_mod (z : Z) : Int64.wrap z mod 2 ^ 64 = z mod 2 ^ 64.
Proof.
  unfold Int64.wrap.
  rewrite Zminus_mod, Z.mod_mod by lia.
  rewrite <- Zminus_mod. f_equal. lia.
Qed.

Lemma wrap_congr (a b : Z) : a mod 2 ^ 64 = b mod 2 ^ 64 -> Int64.wrap a = Int64.wrap b.
Proof.
  intros H. unfold Int64.wrap.
  rewrite (Zplus_mod a), (Zplus_mod b), H. reflexivity.
Qed.

End Int64Facts.

Section BreakdownFacts.
Import Locator.

Lemma countSum_cons (entry : CodeCategory * Z) (m : list (CodeCategory * Z)) :
  countSum (entry :: m) = snd entry + countSum m.
Proof. reflexivity. Qed.

Lemma countSum_nonneg (m : list (CodeCategory * Z)) :
  Forall (fun entry => 0 < snd entry) m -> 0 <= countSum m.
Proof.
  induction 1 as [|entry m Hv _ IH]; [cbn; lia |]. rewrite countSum_cons. lia.
Qed.

Lemma countSum_incr (cat : CodeCategory) (m : list (CodeCategory * Z)) :
  Forall (fun entry => 0 < snd entry) m ->
  countSum m + 1 < 2 ^ 63 ->
  countSum (incrCategory cat m) = countSum m + 1
  /\ Forall (fun entry => 0 < snd entry) (incrCategory cat m).
Proof.
  induction m as [|[k v] m IH]; intros Hpos Hsum; cbn [incrCategory].
  - split; [reflexivity | constructor; [cbn; lia | constructor]].
  - inversion Hpos as [|? ? Hv Hm]; subst. cbn [snd] in Hv.
    pose proof (countSum_nonneg m Hm) as Hnonneg.
    rewrite countSum_cons in Hsum. cbn [snd] in Hsum.
    destruct (CodeCategory_eqb k cat).
    + unfold Int64.add. rewrite wrap_small by lia. split.
      * rewrite !countSum_cons. cbn [snd]. lia.
      * constructor; [cbn; lia | exact Hm].
    + destruct (IH Hm ltac:(lia)) as [Hs Hp]. split.
      * rewrite !countSum_cons. cbn [snd]. lia.
      * constructor; [exact Hv | exact Hp].
Qed.

Lemma calculateCategoryBreakdown_snoc frames frame :
  calculateCategoryBreakdown (frames ++ [frame])
  = incrCategory (Category frame) (calculateCategoryBreakdown frames).
Proof. unfold calculateCategoryBreakdown. now rewrite fold_left_app. Qed.

Lemma calculateCategoryBreakdown_sum (frames : list StackFrame) :
  Z.of_nat (List.length frames) < 2 ^ 63 ->
  countSum (calculateCategoryBreakdown frames) = Z.of_nat (List.length frames)
  /\ Forall (fun entry => 0 < snd entry) (calculateCategoryBreakdown frames).
Proof.
  induction frames as [|frame frames IH] using rev_ind; intros Hlen.
  - split; [reflexivity | constructor].
  - rewrite length_app in *. cbn [List.length] in *.
    destruct IH as [Hs Hp]; [lia |].
    rewrite calculateCategoryBreakdown_snoc.
    destruct (countSum_incr (Category frame) _ Hp) as [Hs' Hp']; [lia |].
    split; [lia | exact Hp'].
Qed.

Lemma countSum_perm (m m' : list (CodeCategory * Z)) :
  Permutation m m' -> countSum m = countSum m'.
Proof. induction 1; rewrite ?countSum_cons; lia. Qed.

Lemma breakdownSum_exact (m : list (CodeCategory * Z)) :
  Forall (fun entry => 0 < snd entry) m ->
  forall acc, 0 <= acc -> acc + countSum m < 2 ^ 63 ->
    fold_left (fun sum entry => Int64.add sum (snd entry)) m acc = acc + countSum m.
Proof.
  induction 1 as [|[k v] m Hv Hm IH]; intros acc Hacc Hsum; cbn [fold_left].
  - cbn. lia.
  - pose proof (countSum_nonneg m Hm) as Hnonneg.
    rewrite countSum_cons in *. cbn [snd] in *.
    unfold Int64.add at 2. rewrite wrap_small by lia.
    rewrite IH by lia. lia.
Qed.

(** X7.  The counts of the breakdown add up to the number of frames, in whatever
    order the map is visited (for the lengths a Go slice can have). *)
Theorem GetCategoryBreakdownSum_frames (frames : list StackFrame)
    (visited : list (CodeCategory * Z)) :
  Z.of_nat (List.length frames) < 2 ^ 63 ->
  Permutation visited (calculateCategoryBreakdown frames) ->
  GetCategoryBreakdownSum visited = Z.of_nat (List.length frames).
Proof.
  intros Hlen Hperm.
  destruct (calculateCategoryBreakdown_sum frames Hlen) as [Hs Hp].
  unfold GetCategoryBreakdownSum.
  rewrite breakdownSum_exact.
  - rewrite (countSum_perm _ _ Hperm). lia.
  - eapply Permutation_Forall; [symmetry; exact Hperm | exact Hp].
  - lia.
  - rewrite (countSum_perm _ _ Hperm). lia.
Qed.

End BreakdownFacts.

(* ================================================================== *)
(** * Aggregation of call chains *)
(* ================================================================== *)

Section AggregationFacts.
Import Locator.
Variable keyOf : list StackFrame -> string.

Lemma lookupChain_None key m :
  lookupChain key m = None <-> ~ In key (map fst m).
Proof.
  induction m as [|[k c] m IH]; cbn; [tauto |].
  destruct (String.eqb_spec k key) as [-> | Hne].
  - split; [discriminate | intros H; exfalso; apply H; now left].
  - rewrite IH. split; [intros H [E | I]; [congruence | now apply H] | tauto].
Qed.

Lemma map_fst_updateChain key f (m : list (string * CallChain)) :
  map fst (updateChain key f m) = map fst m.
Proof.
  induction m as [|[k c] m IH]; cbn; [reflexivity |].
  destruct (String.eqb k key); cbn; [reflexivity | now rewrite IH].
Qed.

Lemma aggregateStep_NoDup m chain :
  NoDup (map fst m) -> NoDup (map fst (aggregateStep keyOf m chain)).
Proof.
  intros Hnd. unfold aggregateStep.
  destruct (lookupChain (keyOf (Frames chain)) m) eqn:Hl.
  - now rewrite map_fst_updateChain.
  - rewrite map_app. cbn [map fst]. apply (NoDup_snoc _ _ Hnd).
    now apply lookupChain_None.
Qed.

(** Every key occurs once in the map. *)
Lemma aggregateMap_NoDup (chains : list CallChain) :
  NoDup (map fst (aggregateMap keyOf chains)).
Proof.
  unfold aggregateMap.
  enough (H : forall m, NoDup (map fst m)
                        -> NoDup (map fst (fold_left (aggregateStep keyOf) chains m)))
    by (apply H; constructor).
  induction chains as [|c chains IH]; intros m Hm; cbn [fold_left]; [exact Hm |].
  apply IH. now apply aggregateStep_NoDup.
Qed.

Lemma In_updateChain key f m k (c' : CallChain) :
  In (k, c') (updateChain key f m) ->
  In (k, c') m \/ exists c, In (k, c) m /\ c' = f c.
Proof.
  induction m as [|[k0 c0] m IH]; cbn; [tauto |].
  destruct (String.eqb k0 key); cbn.
  - intros [[= <- <-] | H]; [right; exists c0; split; [now left | reflexivity] |].
    left. now right.
  - intros [H | H]; [left; now left |].
    destruct (IH H) as [H' | (c & Hc & ->)]; [left; now right |].
    right. exists c. split; [now right | reflexivity].
Qed.

(** Every entry of the map shows the frames, boundaries and breakdown of an
    input chain with that key. *)
Lemma aggregateMap_shape (chains : list CallChain) k c' :
  In (k, c') (aggregateMap keyOf chains) ->
  exists chain, In chain chains /\ k = keyOf (Frames chain) /\ sameShape c' chain.
Proof.
  unfold aggregateMap.
  enough (H : forall m,
             (forall k c', In (k, c') m ->
                exists chain, In chain chains /\ k = keyOf (Frames chain)
                              /\ sameShape c' chain) ->
             forall rest, (forall c, In c rest -> In c chains) ->
             forall k c', In (k, c') (fold_left (aggregateStep keyOf) rest m) ->
               exists chain, In chain chains /\ k = keyOf (Frames chain)
                             /\ sameShape c' chain).
  { apply (H [] ltac:(intros ? ? []) chains ltac:(auto)). }
  intros m Hm rest. revert m Hm.
  induction rest as [|c rest IH]; intros m Hm Hsub k0 c0; cbn [fold_left];
    [apply Hm |].
  apply IH; [| intros x Hx; apply Hsub; now right].
  clear k0 c0. intros k0 c0. unfold aggregateStep.
  destruct (lookupChain (keyOf (Frames c)) m) eqn:Hl.
  - intros Hin. apply In_updateChain in Hin as [Hin | (old & Hin & ->)];
      [now apply Hm |].
    destruct (Hm _ _ Hin) as (chain & Hch & Hk & Hs). exists chain.
    split; [exact Hch | split; [exact Hk | exact Hs]].
  - intros Hin. apply in_app_iff in Hin as [Hin | [[= <- <-] | []]]; [now apply Hm |].
    exists c. split; [apply Hsub; now left | split; [reflexivity | repeat split]].
Qed.

(** ** Conservation of the totals *)

Lemma sumOf_cons {A} (f : A -> Z) (x : A) (l : list A) :
  sumOf f (x :: l) = f x + sumOf f l.
Proof. reflexivity. Qed.

Lemma sumOf_app {A} (f : A -> Z) (l l' : list A) :
  sumOf f (l ++ l') = sumOf f l + sumOf f l'.
Proof.
  induction l as [|x l IH]; [reflexivity |].
  rewrite <- app_comm_cons, !sumOf_cons, IH. lia.
Qed.

Lemma sumOf_updateChain (g : CallChain -> Z) key f m c :
  lookupChain key m = Some c ->
  sumOf (fun entry => g (snd entry)) (updateChain key f m)
  = sumOf (fun entry => g (snd entry)) m - g c + g (f c).
Proof.
  induction m as [|[k0 c0] m IH]; cbn [lookupChain updateChain]; [discriminate |].
  destruct (String.eqb k0 key).
  - intros [= <-]. rewrite !sumOf_cons. cbn [snd]. lia.
  - intros Hl. rewrite !sumOf_cons, (IH Hl). cbn [snd]. lia.
Qed.

(** A field that [accumulate] adds up in 64-bit arithmetic and a new entry
    takes over. *)
Lemma aggregateMap_sum (g : CallChain -> Z) (chains : list CallChain) :
  (forall chain existing,
      g (accumulate chain existing) = Int64.add (g existing) (g chain)) ->
  sumOf (fun entry => g (snd entry)) (aggregateMap keyOf chains) mod 2 ^ 64
  = sumOf g chains mod 2 ^ 64.
Proof.
  intros Hg. unfold aggregateMap.
  enough (H : forall m,
             sumOf (fun entry => g (snd entry)) (fold_left (aggregateStep keyOf) chains m)
               mod 2 ^ 64
             = (sumOf (fun entry => g (snd entry)) m + sumOf g chains) mod 2 ^ 64)
    by (rewrite H; reflexivity).
  induction chains as [|c chains IH]; intros m; cbn [fold_left].
  - cbn. now rewrite Z.add_0_r.
  - rewrite IH, sumOf_cons. unfold aggregateStep.
    destruct (lookupChain (keyOf (Frames c)) m) as [existing|] eqn:Hl.
    + rewrite (sumOf_updateChain g _ _ _ _ Hl), Hg. unfold Int64.add.
      set (S := sumOf (fun entry => g (snd entry)) m).
      set (R := sumOf g chains).
      replace (S - g existing + Int64.wrap (g existing + g c) + R)
        with (Int64.wrap (g existing + g c) + (S - g existing + R)) by lia.
      rewrite Zplus_mod, wrap_mod, <- Zplus_mod. f_equal. lia.
    + rewrite sumOf_app, sumOf_cons. cbn [snd sumOf fold_right]. f_equal. lia.
Qed.

End AggregationFacts.

Section AggregateCallChainsFacts.
Import Locator.

Lemma sumOf_map_snd (g : CallChain -> Z) (m : list (string * CallChain)) :
  sumOf (fun entry => g (snd entry)) m = sumOf g (map snd m).
Proof.
  induction m as [|e m IH]; [reflexivity |].
  cbn [map]. now rewrite !sumOf_cons, IH.
Qed.

(** X8.  Aggregation neither loses nor invents value or samples: the total
    values and the sample counts of the aggregated chains add up to those of
    the input chains, modulo 2^64 as 64-bit addition has it; no key is filed
    twice, and every aggregated chain shows the frames, boundaries and
    breakdown of an input chain. *)
Theorem AggregateCallChains_conserves (chains : list CallChain) :
  sumOf TotalValue (AggregateCallChains chains) mod 2 ^ 64
  = sumOf TotalValue chains mod 2 ^ 64
  /\ sumOf SampleCount (AggregateCallChains chains) mod 2 ^ 64
     = sumOf SampleCount chains mod 2 ^ 64
  /\ (List.length (AggregateCallChains chains) <= List.length chains)%nat
  /\ forall aggregated, In aggregated (AggregateCallChains chains) ->
       exists chain, In chain chains /\ sameShape aggregated chain.
Proof.
  unfold AggregateCallChains. rewrite <- !sumOf_map_snd. repeat split.
  - now apply aggregateMap_sum.
  - now apply aggregateMap_sum.
  - rewrite length_map, <- (length_map fst).
    pose proof (aggregateMap_NoDup generateSmartCallChainKey chains) as Hnd.
    rewrite <- (length_map (fun c => generateSmartCallChainKey (Frames c)) chains).
    apply NoDup_incl_length; [exact Hnd |].
    intros k Hk. apply aggregateMap_keys in Hk as (c & Hc & ->).
    apply in_map_iff. now exists c.
  - intros aggregated Hin. apply in_map_iff in Hin as ([k c'] & <- & Hin).
    destruct (aggregateMap_shape _ chains k c' Hin) as (chain & Hch & _ & Hs).
    now exists chain.
Qed.

End AggregateCallChainsFacts.

(* ================================================================== *)
(** * Hot paths *)
(* ================================================================== *)

Section HotPathFacts.
Import Locator.

(** ** Chains with one key *)

Lemma aggregate_same_key keyOf (rest : list CallChain) :
  forall key existing,
    (forall c, In c rest -> keyOf (Frames c) = key) ->
    fold_left (aggregateStep keyOf) rest [(key, existing)]
    = [(key, fold_left (fun acc chain => accumulate chain acc) rest existing)].
Proof.
  induction rest as [|c rest IH]; intros key existing Hkey; cbn [fold_left];
    [reflexivity |].
  unfold aggregateStep at 2. rewrite (Hkey c (or_introl eq_refl)).
  cbn [lookupChain updateChain]. rewrite String.eqb_refl.
  apply IH. intros c' Hc'. apply Hkey. now right.
Qed.

Lemma accumulate_fold (rest : list CallChain) :
  forall existing,
    let total := fold_left (fun acc chain => accumulate chain acc) rest existing in
    Frames total = Frames existing
    /\ BoundaryPoints total = BoundaryPoints existing
    /\ CategoryBreakdown total = CategoryBreakdown existing
    /\ TotalValue total
       = fold_left Int64.add (map TotalValue rest) (TotalValue existing)
    /\ SampleCount total
       = fold_left Int64.add (map SampleCount rest) (SampleCount existing).
Proof.
  induction rest as [|c rest IH]; intros existing; cbn [fold_left map];
    [now repeat split |].
  destruct (IH (accumulate c existing)) as (Hf & Hb & Hc & Hv & Hs).
  cbv zeta. now rewrite Hf, Hb, Hc, Hv, Hs.
Qed.

(** X9.  Chains that share their key aggregate into one chain: it shows the
    frames of the first, and its total value and sample count are the 64-bit
    sums over all of them. *)
Theorem AggregateCallChains_same_key (first : CallChain) (rest : list CallChain) :
  (forall c, In c rest ->
     generateSmartCallChainKey (Frames c) = generateSmartCallChainKey (Frames first)) ->
  exists total,
    AggregateCallChains (first :: rest) = [total]
    /\ Frames total = Frames first
    /\ TotalValue total = fold_left Int64.add (map TotalValue rest) (TotalValue first)
    /\ SampleCount total
       = fold_left Int64.add (map SampleCount rest) (SampleCount first).
Proof.
  intros Hkey.
  exists (fold_left (fun acc chain => accumulate chain acc) rest first).
  destruct (accumulate_fold rest first) as (Hf & _ & _ & Hv & Hs).
  split; [| now repeat split].
  unfold AggregateCallChains, aggregateMap. cbn [fold_left].
  unfold aggregateStep at 2. cbn [lookupChain app].
  now rewrite (aggregate_same_key _ rest _ first Hkey).
Qed.

(** ** From a chain to a hot path *)

Lemma sorted_last_max (l : list Z) :
  StronglySorted Z.lt l -> l <> [] ->
  In (nth (List.length l - 1) l (-1)) l
  /\ forall k, In k l -> k <= nth (List.length l - 1) l (-1).
Proof.
  induction 1 as [|x l Hs IH Hx]; [congruence | intros _].
  destruct l as [|y l].
  - cbn. split; [now left | intros k [<- | []]; lia].
  - destruct IH as [Hin Hmax]; [discriminate |].
    replace (nth (List.length (x :: y :: l) - 1) (x :: y :: l) (-1))
      with (nth (List.length (y :: l) - 1) (y :: l) (-1))
      by (cbn [List.length]; rewrite !Nat.sub_succ, !Nat.sub_0_r; reflexivity).
    split; [now right |]. intros k [<- | Hk]; [| now apply Hmax].
    rewrite Forall_forall in Hx. specialize (Hx _ Hin). lia.
Qed.

Lemma existsb_business_nth (frames : list StackFrame) :
  existsb isBusinessFrame frames = false ->
  forall j f, nth_error frames j = Some f -> isBusinessFrame f = false.
Proof.
  intros H j f Hn. apply nth_error_In in Hn.
  destruct (isBusinessFrame f) eqn:Hb; [| reflexivity].
  assert (existsb isBusinessFrame frames = true)
    by (apply existsb_exists; now exists f).
  congruence.
Qed.

Lemma FindBusinessFrames_nil (frames : list StackFrame) :
  FindBusinessFrames frames = [] <-> existsb isBusinessFrame frames = false.
Proof.
  pose proof (FindBusinessFrames_In frames) as Hspec. split.
  - intros Hnil. apply not_true_iff_false. intros Hex.
    apply existsb_exists in Hex as (f & Hin & Hb).
    apply In_nth_error in Hin as (j & Hj).
    assert (Hk : In (Z.of_nat j) (FindBusinessFrames frames)).
    { apply Hspec. split; [lia |]. exists f. now rewrite Nat2Z.id. }
    rewrite Hnil in Hk. destruct Hk.
  - intros Hex. destruct (FindBusinessFrames frames) as [|k l]; [reflexivity |].
    destruct (proj1 (Hspec k) (or_introl eq_refl)) as (_ & f & Hn & Hb).
    rewrite (existsb_business_nth frames Hex _ _ Hn) in Hb. discriminate.
Qed.

Lemma toHotPath_cut (a : PathAnalyzer) (profileType : string) (chain : CallChain) :
  chainOk chain ->
  let hp := toHotPath a profileType chain in
  Frames (Chain hp) = firstn (Z.to_nat (MaxCallStackDepth (config a))) (Frames chain)
  /\ chainOk (Chain hp)
  /\ BusinessFrames hp = FindBusinessFrames (Frames (Chain hp))
  /\ ProfileType hp = profileType
  /\ TotalValue (Chain hp) = TotalValue chain
  /\ RootCauseIndex hp
     = if 0 <? Z.of_nat (List.length (BusinessFrames hp))
       then nth (List.length (BusinessFrames hp) - 1) (BusinessFrames hp) (-1)
       else -1.
Proof.
  intros Hok. unfold toHotPath.
  destruct (Z.ltb_spec (MaxCallStackDepth (config a))
                       (Z.of_nat (List.length (Frames chain)))) as [Hlt | Hge];
    cbn [Chain Frames BusinessFrames RootCauseIndex ProfileType TotalValue].
  - repeat split.
  - repeat split; try apply Hok. symmetry. apply firstn_all2. lia.
Qed.

(** X10.  The hot path made from a chain, for a depth limit that is not
    negative (a negative one makes the slice expression panic): the frames
    are cut to the depth limit, the chain stays consistent with its frames,
    and the root cause is the deepest business frame that is left, or none
    when there is none. *)
Theorem toHotPath_spec (a : PathAnalyzer) (profileType : string) (chain : CallChain) :
  0 <= MaxCallStackDepth (config a) ->
  chainOk chain ->
  let hp := toHotPath a profileType chain in
  let frames := Frames (Chain hp) in
  frames = firstn (Z.to_nat (MaxCallStackDepth (config a))) (Frames chain)
  /\ chainOk (Chain hp)
  /\ BusinessFrames hp = FindBusinessFrames frames
  /\ ((RootCauseIndex hp = -1 /\ GetRootCause hp = None
       /\ HasBusinessCode (Chain hp) = false)
      \/ (exists f, GetRootCause hp = Some f
                    /\ nth_error frames (Z.to_nat (RootCauseIndex hp)) = Some f
                    /\ 0 <= RootCauseIndex hp
                    /\ isBusinessFrame f = true
                    /\ forall j g, RootCauseIndex hp < Z.of_nat j ->
                                   nth_error frames j = Some g ->
                                   isBusinessFrame g = false)).
Proof.
  intros _ Hok. cbv zeta.
  destruct (toHotPath_cut a profileType chain Hok) as (Hframes & Hok' & Hbus & _ & _ & Hroot).
  split; [exact Hframes |]. split; [exact Hok' |]. split; [exact Hbus |].
  unfold GetRootCause, HasBusinessCode. rewrite Hroot, Hbus.
  set (chain' := Chain (toHotPath a profileType chain)) in *.
  pose proof (FindBusinessFrames_In (Frames chain')) as Hspec.
  assert (Hsorted : StronglySorted Z.lt (FindBusinessFrames (Frames chain')))
    by apply businessFrom_sorted.
  destruct (FindBusinessFrames (Frames chain')) as [|k0 l0] eqn:E.
  - left. cbn. split; [reflexivity | split; [reflexivity |]].
    change (fun frame => CodeCategory_eqb (Category frame) CategoryBusiness)
      with isBusinessFrame.
    now apply FindBusinessFrames_nil.
  - right.
    replace (0 <? Z.of_nat (List.length (k0 :: l0))) with true
      by (symmetry; apply Z.ltb_lt; cbn [List.length]; lia).
    assert (Hne : k0 :: l0 <> []) by discriminate.
    destruct (sorted_last_max (k0 :: l0) Hsorted Hne) as [Hin Hmax].
    set (root := nth (List.length (k0 :: l0) - 1) (k0 :: l0) (-1)) in *.
    destruct (proj1 (Hspec root) Hin) as (Hroot0 & f & Hn & Hb).
    exists f.
    assert (Hlen : (Z.of_nat (List.length (Frames chain')) <=? root) = false).
    { apply Z.leb_gt.
      assert (Z.to_nat root < List.length (Frames chain'))%nat
        by (apply nth_error_Some; congruence).
      lia. }
    replace (root <? 0) with false by (symmetry; apply Z.ltb_ge; lia).
    rewrite Hlen. cbn [orb]. repeat split; try assumption.
    intros j g Hj Hg. destruct (isBusinessFrame g) eqn:Hgb; [| reflexivity].
    assert (Hk : In (Z.of_nat j) (k0 :: l0)).
    { apply Hspec. split; [lia |]. exists g. now rewrite Nat2Z.id. }
    specialize (Hmax _ Hk). lia.
Qed.

(** ** The hot paths of a profile *)

Lemma extractChains_In (e : Extractor) (valueIndex : Z) (useCumValue : bool)
    (totalValue : Z) (samples : list Sample) (chain : CallChain) :
  In chain (extractChains e valueIndex useCumValue totalValue samples) ->
  exists sample, In sample samples
                 /\ Frames chain = framesOf e (Sample_Location sample)
                 /\ Frames chain <> []
                 /\ chainOk chain.
Proof.
  unfold extractChains. rewrite filter_In, in_map_iff.
  intros [(sample & Hchain & Hin) Hlen]. exists sample. split; [exact Hin |].
  assert (Hex : exists vi, chain = ExtractCallChain e (Some sample) vi totalValue)
    by (destruct useCumValue; eexists; symmetry; exact Hchain).
  destruct Hex as [vi ->].
  destruct (locationLoop_ok e (Sample_Location sample) noChainState) as [Hok Hfr];
    [repeat split |].
  cbn [ExtractCallChain Frames BoundaryPoints CategoryBreakdown] in *.
  split; [exact Hfr |].
  split; [intros E; rewrite E in Hlen; discriminate |].
  split; apply Hok.
Qed.

Section Arranged.
Variable arrange : list CallChain -> list CallChain.
Hypothesis arrange_perm : forall chains, Permutation (arrange chains) chains.

(** X11.  With the analyzer that [NewPathAnalyzer] builds, [AnalyzeHotPaths]
    returns at most [MaxHotPaths] paths (5 when the configuration gives none),
    and each of them shows the first frames, at most [MaxCallStackDepth] of
    them (10 when the configuration gives none) and at least one, of the call
    stack of a sample of the profile, with the boundaries, the breakdown and
    the business frames of just these frames. *)
Theorem AnalyzeHotPaths_bounds (e : Extractor) (cfg : LocatorConfig)
    (p : option Profile) (profileType : string) :
  let a := NewPathAnalyzer e cfg in
  let paths := AnalyzeHotPaths arrange a p profileType in
  Z.of_nat (List.length paths) <= MaxHotPaths (config a)
  /\ forall hp, In hp paths ->
       exists profile sample,
         p = Some profile /\ In sample (Samples profile)
         /\ Frames (Chain hp)
            = firstn (Z.to_nat (MaxCallStackDepth (config a)))
                     (framesOf e (Sample_Location sample))
         /\ Frames (Chain hp) <> []
         /\ Z.of_nat (List.length (Frames (Chain hp))) <= MaxCallStackDepth (config a)
         /\ chainOk (Chain hp)
         /\ BusinessFrames hp = FindBusinessFrames (Frames (Chain hp))
         /\ ProfileType hp = profileType.
Proof.
  cbv zeta.
  set (a := NewPathAnalyzer e cfg).
  assert (Hpaths : 0 < MaxHotPaths (config a))
    by (cbn; destruct (Z.leb_spec (MaxHotPaths cfg) 0); lia).
  assert (Hdepth : 0 < MaxCallStackDepth (config a))
    by (cbn; destruct (Z.leb_spec (MaxCallStackDepth cfg) 0); lia).
  unfold AnalyzeHotPaths.
  destruct p as [p|]; [| split; [cbn [List.length]; lia | intros hp []]].
  destruct (Z.of_nat (List.length (Samples p)) =? 0);
    [split; [cbn [List.length]; lia | intros hp []] |].
  destruct (chooseValueIndex p profileType) as [valueIndex useCumValue].
  destruct (sumColumn valueIndex (Samples p) =? 0);
    [split; [cbn [List.length]; lia | intros hp []] |].
  set (chains := extractChains (extractor a) valueIndex useCumValue
                   (sumColumn valueIndex (Samples p)) (Samples p)).
  set (aggregated := arrange (AggregateCallChains chains)).
  set (maxPaths := if Z.of_nat (List.length aggregated) <? MaxHotPaths (config a)
                   then Z.of_nat (List.length aggregated)
                   else MaxHotPaths (config a)).
  split.
  - rewrite length_map, length_firstn.
    subst maxPaths.
    destruct (Z.ltb_spec (Z.of_nat (List.length aggregated)) (MaxHotPaths (config a)));
      lia.
  - intros hp Hhp. apply in_map_iff in Hhp as (chain & <- & Hchain).
    assert (Hall : In chain aggregated)
      by (rewrite <- (firstn_skipn (Z.to_nat maxPaths) aggregated);
          apply in_or_app; now left).
    clear Hchain. rename Hall into Hchain. subst aggregated.
    apply (Permutation_in _ (arrange_perm _)) in Hchain.
    unfold AggregateCallChains in Hchain. apply in_map_iff in Hchain as ([k c] & <- & Hkc).
    apply aggregateMap_shape in Hkc as (source & Hsource & _ & Hf & Hb & Hc).
    apply extractChains_In in Hsource as (sample & Hsample & Hframes & Hne & Hok).
    cbn [snd] in *.
    assert (Hok' : chainOk c) by (destruct Hok; split; congruence).
    destruct (toHotPath_cut a profileType c Hok') as (Hcut & Hokc & Hbus & Hty & _).
    exists p, sample. split; [reflexivity |]. split; [exact Hsample |].
    split; [rewrite Hcut, Hf, Hframes; reflexivity |].
    split.
    { rewrite Hcut, Hf. destruct (Frames source) as [|f fs]; [congruence |].
      assert (Hpos : (0 < Z.to_nat (MaxCallStackDepth (config a)))%nat) by lia.
      destruct (Z.to_nat (MaxCallStackDepth (config a))); [inversion Hpos |].
      discriminate. }
    split; [rewrite Hcut, length_firstn; lia |].
    repeat split; try assumption; apply Hokc.
Qed.

End Arranged.

End HotPathFacts.

(** The breakdown of the three frames, visited last entry first. *)
Lemma GetCategoryBreakdownSum_frames_witness :
  Locator.GetCategoryBreakdownSum
    (rev (Locator.calculateCategoryBreakdown handlerChain)) = 3.
Proof.
  apply (GetCategoryBreakdownSum_frames handlerChain).
  - vm_compute. reflexivity.
  - symmetry. apply Permutation_rev.
Defined.

(** The repository's test: two samples of main.main -> runtime.mallocgc,
    of values 1000 and 2000. *)
Lemma AggregateCallChains_same_key_witness :
  exists total,
    Locator.AggregateCallChains [mallocChain 1000; mallocChain 2000] = [total]
    /\ Locator.Frames total = Locator.Frames (mallocChain 1000)
    /\ Locator.TotalValue total = 3000
    /\ Locator.SampleCount total = 2.
Proof.
  apply (AggregateCallChains_same_key (mallocChain 1000) [mallocChain 2000]).
  intros c [<- | []]. reflexivity.
Defined.

(** A chain of two frames under a depth limit of one: the business frame
    stays and is the root cause. *)
Lemma toHotPath_spec_witness :
  let a := {| Locator.extractor := Locator.NewExtractor (Some acmeClassifier);
              Locator.config :=
                {| Locator.ModuleName := "github.com/acme/shop";
                   Locator.ThirdPartyPrefixes := [];
                   Locator.MaxCallStackDepth := 1;
                   Locator.MaxHotPaths := 5 |} |} in
  let hp := Locator.toHotPath a "cpu" (mallocChain 1000) in
  Locator.Frames (Locator.Chain hp) = [frameOf "main.main" Locator.CategoryBusiness]
  /\ Locator.RootCauseIndex hp = 0.
Proof.
  cbv zeta.
  match goal with
  | |- context [Locator.toHotPath ?a ?t ?c] =>
      destruct (toHotPath_spec a t c) as (Hframes & _)
  end.
  - cbn. lia.
  - split; reflexivity.
  - split; [exact Hframes | reflexivity].
Defined.

(** A profile of one sample, with the aggregated chains left in the order of
    their first occurrence. *)
Lemma AnalyzeHotPaths_bounds_witness :
  let paths := Locator.AnalyzeHotPaths (fun chains => chains) defaultAnalyzer
                 (Some cartProfile) "cpu" in
  Z.of_nat (List.length paths) <= 5
  /\ forall hp, In hp paths ->
       Z.of_nat (List.length (Locator.Frames (Locator.Chain hp))) <= 10
       /\ chainOk (Locator.Chain hp).
Proof.
  cbv zeta.
  destruct (AnalyzeHotPaths_bounds (fun chains => chains)
              (fun chains => Permutation_refl chains)
              (Locator.NewExtractor (Some acmeClassifier))
              (Locator.config defaultAnalyzer) (Some cartProfile) "cpu")
    as [Hlen Hpaths].
  split; [exact Hlen |].
  intros hp Hhp.
  destruct (Hpaths hp Hhp) as (profile & sample & _ & _ & _ & _ & Hdepth & Hok & _).
  split; [exact Hdepth | exact Hok].
Defined.

(* ================================================================== *)
(** * Edges of the classifier *)
(* ================================================================== *)

Section ClassifierEdges.
Import GoStrings Locator.

(** X12.  A package without a slash is never third-party and never unknown: what
    the runtime and standard-library rules leave is business code. *)
Theorem Classify_no_slash (c : Classifier) (packageName : string) :
  packageName <> EmptyString ->
  Contains packageName "/" = false ->
  Classify c packageName = CategoryRuntime
  \/ Classify c packageName = CategoryStdlib
  \/ Classify c packageName = CategoryBusiness.
Proof.
  intros Hne Hslash. unfold Classify.
  destruct (String.eqb_spec packageName EmptyString) as [E | _]; [contradiction |].
  destruct (isRuntimePackage c packageName) eqn:Hrt; [now left |].
  destruct (isStdlibPackage c packageName) eqn:Hstd; [now right; left |].
  right; right. unfold isBusinessPackage.
  rewrite Hslash, Hrt, Hstd. cbn [negb andb].
  now destruct (String.eqb packageName "main" || HasPrefix packageName "main.").
Qed.

Lemma prefix_cons_inv (a b : ascii) (p s : string) :
  String.prefix (String a p) (String b s) = true -> a = b /\ String.prefix p s = true.
Proof.
  cbn. destruct (Ascii.ascii_dec a b) as [-> | _]; [now split | discriminate].
Qed.

Lemma golang_x_not_runtime (c : Classifier) (packageName : string) :
  HasPrefix packageName "golang.org/x/" = true ->
  packageName <> EmptyString /\ isRuntimePackage c packageName = false.
Proof.
  unfold HasPrefix. destruct packageName as [|a s]; [discriminate |].
  intros H. apply prefix_cons_inv in H as [<- _].
  split; [discriminate | reflexivity].
Qed.

(** X13.  A package under golang.org/x/ is standard library for every classifier,
    also when the configured module itself lies under golang.org/x/. *)
Theorem Classify_golang_x (c : Classifier) (packageName : string) :
  HasPrefix packageName "golang.org/x/" = true ->
  Classify c packageName = CategoryStdlib.
Proof.
  intros Hx. destruct (golang_x_not_runtime c packageName Hx) as [Hne Hrt].
  unfold Classify.
  destruct (String.eqb_spec packageName EmptyString) as [E | _]; [contradiction |].
  rewrite Hrt. unfold isStdlibPackage. rewrite Hx.
  destruct (stdlibPackages c packageName); [reflexivity |].
  now destruct (stdlibPackages c _ && negb (Contains _ ".")).
Qed.

Lemma thirdPartyDomain_loop_true (c : Classifier) (packageName : string)
    (domains : list string) :
  thirdPartyDomain_loop c packageName domains = true ->
  (exists domain, In domain domains /\ HasPrefix packageName domain = true)
  /\ (moduleName c = EmptyString \/ HasPrefix packageName (moduleName c) = false).
Proof.
  induction domains as [|domain rest IH]; cbn [thirdPartyDomain_loop]; [discriminate |].
  destruct (HasPrefix packageName domain) eqn:Hd.
  - destruct (String.eqb_spec (moduleName c) EmptyString) as [E | Hm]; cbn [negb andb].
    + intros _. split; [exists domain; split; [now left | exact Hd] | now left].
    + destruct (HasPrefix packageName (moduleName c)) eqn:Hp; [discriminate |].
      intros _. split; [exists domain; split; [now left | exact Hd] | now right].
  - intros H. destruct (IH H) as [(d & Hin & Hpre) Hmod].
    split; [exists d; split; [now right | exact Hpre] | exact Hmod].
Qed.

(** X14.  A package is third-party only through a configured prefix or one of the
    nine hosting domains; through a domain only when the module name is not
    configured or is not a prefix of the package.  So a package that merely
    starts with the letters of the module name, such as a sibling repository
    github.com/acme/shopping of the module github.com/acme/shop, is not
    third-party unless a configured prefix says so. *)
Theorem Classify_third_party_only (c : Classifier) (packageName : string) :
  Classify c packageName = CategoryThirdParty ->
  (exists prefix, In prefix (thirdPartyPrefixes c)
                  /\ HasPrefix packageName prefix = true)
  \/ ((exists domain, In domain thirdPartyDomains
                      /\ HasPrefix packageName domain = true)
      /\ (moduleName c = EmptyString
          \/ HasPrefix packageName (moduleName c) = false)).
Proof.
  unfold Classify.
  destruct (String.eqb packageName EmptyString); [discriminate |].
  destruct (isRuntimePackage c packageName); [discriminate |].
  destruct (isStdlibPackage c packageName); [discriminate |].
  destruct (isBusinessPackage c packageName); [discriminate |].
  destruct (isThirdPartyPackage c packageName) eqn:Htp; [| discriminate].
  intros _. unfold isThirdPartyPackage in Htp.
  destruct (existsb _ (thirdPartyPrefixes c)) eqn:Hex.
  - left. apply existsb_exists in Hex as (prefix & Hin & Hp). now exists prefix.
  - right. now apply thirdPartyDomain_loop_true.
Qed.

End ClassifierEdges.

(** The sibling repository of the module: neither business nor third-party. *)
Example Classify_sibling_of_module :
  Locator.Classify
    (Locator.NewClassifier
       {| Locator.ModuleName := "github.com/acme/shop";
          Locator.ThirdPartyPrefixes := [];
          Locator.MaxCallStackDepth := 10;
          Locator.MaxHotPaths := 5 |})
    "github.com/acme/shopping/cart"
  = Locator.CategoryUnknown.
Proof. vm_compute. reflexivity. Qed.

Lemma Classify_no_slash_witness :
  Locator.Classify acmeClassifier "cart" = Locator.CategoryRuntime
  \/ Locator.Classify acmeClassifier "cart" = Locator.CategoryStdlib
  \/ Locator.Classify acmeClassifier "cart" = Locator.CategoryBusiness.
Proof.
  apply Classify_no_slash; [discriminate | reflexivity].
Defined.

Lemma Classify_golang_x_witness :
  Locator.Classify acmeClassifier "golang.org/x/sync/errgroup" = Locator.CategoryStdlib.
Proof.
  apply Classify_golang_x. reflexivity.
Defined.

Lemma Classify_third_party_only_witness :
  (exists prefix, In prefix (Locator.thirdPartyPrefixes acmeClassifier)
                  /\ GoStrings.HasPrefix "github.com/acme/kit/log" prefix = true)
  \/ ((exists domain, In domain Locator.thirdPartyDomains
                      /\ GoStrings.HasPrefix "github.com/acme/kit/log" domain = true)
      /\ (Locator.moduleName acmeClassifier = EmptyString
          \/ GoStrings.HasPrefix "github.com/acme/kit/log"
               (Locator.moduleName acmeClassifier) = false)).
Proof.
  apply Classify_third_party_only. vm_compute. reflexivity.
Defined.

(* ================================================================== *)
(** * Package name and short name *)
(* ================================================================== *)

Section GoStringsFacts.
Import GoStrings.

Lemma prefix_app (p s : string) :
  String.prefix p s = true -> exists rest, s = p ++ rest.
Proof.
  revert s. induction p as [|a p IH]; intros s.
  - intros _. now exists s.
  - destruct s as [|b s]; cbn; [discriminate |].
    destruct (Ascii.ascii_dec a b) as [-> | _]; [| discriminate].
    intros H. destruct (IH s H) as [rest ->]. now exists rest.
Qed.

(** [strings.Index] returns -1 or the length of what lies before an
    occurrence. *)
Lemma Index_from_cases (s sub : string) :
  forall i,
    Index_from i s sub = -1
    \/ exists before after,
         s = before ++ sub ++ after
         /\ Index_from i s sub = i + Z.of_nat (String.length before).
Proof.
  induction s as [|a s IH]; intros i; cbn [Index_from].
  - destruct (String.prefix sub EmptyString) eqn:Hp; [| now left].
    right. destruct (prefix_app _ _ Hp) as [rest E].
    exists EmptyString, rest. split; [exact E | cbn; lia].
  - destruct (String.prefix sub (String a s)) eqn:Hp.
    + right. destruct (prefix_app _ _ Hp) as [rest E].
      exists EmptyString, rest. split; [exact E | cbn; lia].
    + destruct (IH (i + 1)) as [Hnone | (before & after & -> & Hfound)];
        [now left | right].
      exists (String a before), after. split; [reflexivity |].
      rewrite Hfound. cbn [String.length]. lia.
Qed.

Lemma string_length_app (x y : string) :
  String.length (x ++ y) = (String.length x + String.length y)%nat.
Proof. induction x as [|a x IH]; cbn; [reflexivity | now rewrite IH]. Qed.

Lemma substring_all (s : string) : String.substring 0 (String.length s) s = s.
Proof. induction s as [|a s IH]; cbn; [reflexivity | now rewrite IH]. Qed.

Lemma substring_app_to (x y : string) (k : nat) :
  String.substring 0 (String.length x + k) (x ++ y) = x ++ String.substring 0 k y.
Proof. induction x as [|a x IH]; cbn; [reflexivity | now rewrite IH]. Qed.

Lemma substring_app_from (x y : string) (k m : nat) :
  String.substring (String.length x + k) m (x ++ y) = String.substring k m y.
Proof. induction x as [|a x IH]; cbn; [reflexivity | exact IH]. Qed.

(** [s] is [s[:lo]] followed by [s[lo:]]. *)
Lemma slice_from_split (s : string) :
  forall lo : nat,
    exists head,
      s = head ++ String.substring lo (String.length s - lo) s
      /\ (String.length head = lo
          \/ String.substring lo (String.length s - lo) s = EmptyString).
Proof.
  induction s as [|a s IH]; intros lo.
  - exists EmptyString. destruct lo; cbn; [now split; [| left] | now split; [| right]].
  - destruct lo as [|lo].
    + exists EmptyString. rewrite Nat.sub_0_r, substring_all. now split; [| left].
    + destruct (IH lo) as (head & E & Hlen). exists (String a head).
      cbn [String.length String.substring Nat.sub append].
      split; [now rewrite <- E |].
      destruct Hlen as [<- | Hempty]; [now left | now right].
Qed.

End GoStringsFacts.

Section NameFacts.
Import GoStrings Locator.

Lemma searchStart_of_nonneg (functionName : string) : 0 <= searchStart_of functionName.
Proof.
  unfold searchStart_of.
  destruct (Z.leb_spec 0 (LastIndex functionName "/")); lia.
Qed.

(** X15.  A function name either has no dot after its last slash, and then it is
    its own package name and its own short name, or it is the package name,
    a dot and the short name. *)
Theorem ExtractPackageName_ShortName (functionName : string) :
  (Index (slice_from functionName (searchStart_of functionName)) "." < 0
   /\ ExtractPackageName functionName = functionName
   /\ ExtractShortName functionName = functionName)
  \/ (0 <= Index (slice_from functionName (searchStart_of functionName)) "."
      /\ functionName
         = ExtractPackageName functionName ++ "." ++ ExtractShortName functionName).
Proof.
  unfold ExtractPackageName, ExtractShortName.
  pose proof (searchStart_of_nonneg functionName) as Hss.
  set (searchStart := searchStart_of functionName) in *.
  destruct (String.eqb_spec functionName EmptyString) as [-> | Hne].
  - left. repeat split.
  - cbv zeta.
    destruct (Z.ltb_spec (Index (slice_from functionName searchStart) ".") 0)
      as [Hneg | Hpos]; [left; now repeat split | right].
    split; [exact Hpos |].
    unfold Index, slice_from, slice_to in *.
    destruct (slice_from_split functionName (Z.to_nat searchStart))
      as (head & Hsplit & Hhead).
    destruct (Index_from_cases
                (String.substring (Z.to_nat searchStart)
                   (String.length functionName - Z.to_nat searchStart) functionName)
                "." 0) as [Hnone | (before & after & Htail & Hidx)]; [lia |].
    rewrite Hidx in *. rewrite Htail in Hsplit, Hhead.
    destruct Hhead as [Hhead | Hempty];
      [| destruct before; discriminate Hempty].
    replace (Z.to_nat (searchStart + (0 + Z.of_nat (String.length before))))
      with (String.length head + String.length before)%nat by lia.
    replace (Z.to_nat (searchStart + (0 + Z.of_nat (String.length before)) + 1))
      with (String.length (head ++ before ++ ".") + 0)%nat
      by (rewrite !string_length_app; cbn [String.length]; lia).
    assert (Hlen : (String.length functionName
                    - (String.length (head ++ before ++ ".") + 0))%nat
                   = String.length after).
    { rewrite Hsplit at 1. rewrite !string_length_app. cbn [String.length]. lia. }
    rewrite Hlen.
    assert (Hto : String.substring 0 (String.length head + String.length before)
                    functionName = head ++ before).
    { rewrite Hsplit at 1. rewrite substring_app_to.
      replace (String.length before) with (String.length before + 0)%nat at 1 by lia.
      rewrite substring_app_to. cbn [String.substring].
      now rewrite string_app_empty_r. }
    assert (Hfrom : String.substring (String.length (head ++ before ++ ".") + 0)
                      (String.length after) functionName = after).
    { replace functionName with ((head ++ before ++ ".") ++ after) at 1
        by (rewrite !string_app_assoc; symmetry; exact Hsplit).
      rewrite substring_app_from. apply substring_all. }
    rewrite Hto, Hfrom. rewrite !string_app_assoc. exact Hsplit.
Qed.

End NameFacts.

(* ================================================================== *)
(** * The string helpers of the rule engine *)
(* ================================================================== *)

Section StringHelperFacts.
Import Rules.

Lemma substring_prefix (s : string) :
  forall n, exists rest, s = String.substring 0 n s ++ rest.
Proof.
  induction s as [|c s IH]; intros n.
  - exists EmptyString. now destruct n.
  - destruct n as [|n]; [now exists (String c s) |].
    destruct (IH n) as [rest E]. exists rest. cbn. now rewrite <- E.
Qed.

Lemma substring_between (s : string) :
  forall i n, exists before after, s = before ++ String.substring i n s ++ after.
Proof.
  induction s as [|a s IH]; intros i n.
  - exists EmptyString, EmptyString. now destruct i, n.
  - destruct i as [|i].
    + destruct (substring_prefix (String a s) n) as [rest E].
      now exists EmptyString, rest.
    + destruct (IH i n) as (before & after & E).
      exists (String a before), after. cbn. now rewrite <- E.
Qed.

Lemma substring_at (before substr after : string) :
  String.substring (String.length before) (String.length substr)
    (before ++ substr ++ after) = substr.
Proof.
  replace (String.length before) with (String.length before + 0)%nat by lia.
  rewrite substring_app_from.
  replace (String.length substr) with (String.length substr + 0)%nat by lia.
  rewrite substring_app_to.
  replace (String.substring 0 0 after) with EmptyString by now destruct after.
  apply string_app_empty_r.
Qed.

Lemma scanFrom_true (s substr : string) :
  forall todo i,
    scanFrom todo i s substr = true
    <-> exists j, (i <= j < i + todo)%nat
                  /\ String.substring j (String.length substr) s = substr.
Proof.
  induction todo as [|todo IH]; intros i; cbn [scanFrom].
  - split; [discriminate | intros (j & Hj & _); lia].
  - destruct (String.eqb_spec (String.substring i (String.length substr) s) substr)
      as [E | Hne].
    + split; [intros _; exists i; split; [lia | exact E] | reflexivity].
    + rewrite IH. split; intros (j & Hj & E).
      * exists j. split; [lia | exact E].
      * exists j. split; [| exact E].
        destruct (Nat.eq_dec j i) as [-> | ?]; [contradiction | lia].
Qed.

Lemma scanFrom_occurs (s substr : string) :
  (String.length substr <= String.length s)%nat ->
  scanFrom (String.length s - String.length substr + 1) 0 s substr = true
  <-> occursIn substr s.
Proof.
  intros Hlen. rewrite scanFrom_true. split.
  - intros (j & _ & E).
    destruct (substring_between s j (String.length substr)) as (before & after & Hs).
    exists before, after. now rewrite E in Hs.
  - intros (before & after & ->). exists (String.length before).
    split; [rewrite !string_length_app; lia | apply substring_at].
Qed.

Lemma occursIn_length (substr s : string) :
  occursIn substr s -> (String.length substr <= String.length s)%nat.
Proof. intros (before & after & ->). rewrite !string_length_app. lia. Qed.

(** X16.  [containsString] says whether the substring occurs. *)
Theorem containsString_spec (s substr : string) :
  containsString s substr = true <-> occursIn substr s.
Proof.
  unfold containsString.
  destruct (Nat.eqb_spec (String.length substr) 0) as [Hzero | Hpos].
  - destruct substr; [| discriminate].
    split; [intros _; now exists EmptyString, s | reflexivity].
  - destruct (Nat.ltb_spec (String.length s) (String.length substr)) as [Hlt | Hge].
    + split; [discriminate | intros H; apply occursIn_length in H; lia].
    + now apply scanFrom_occurs.
Qed.

(** X17.  The two substring tests of the engine, [contains] for conditions and
    [containsString] for titles, agree on every input. *)
Theorem contains_containsString (s substr : string) :
  contains s substr = containsString s substr.
Proof.
  unfold contains, containsString, containsHelper.
  destruct (Nat.eqb_spec (String.length substr) 0) as [Hzero | Hpos].
  - destruct substr; [| discriminate]. cbn [String.length Nat.leb andb].
    destruct s as [|a s]; [reflexivity |].
    cbn [String.eqb String.length Nat.ltb Nat.leb andb orb].
    rewrite Nat.sub_0_r, Nat.add_1_r. reflexivity.
  - destruct (Nat.ltb_spec (String.length s) (String.length substr)) as [Hlt | Hge].
    + replace (String.length substr <=? String.length s)%nat with false
        by (symmetry; apply Nat.leb_gt; lia).
      reflexivity.
    + replace (String.length substr <=? String.length s)%nat with true
        by (symmetry; apply Nat.leb_le; lia).
      replace (0 <? String.length s)%nat with true
        by (symmetry; apply Nat.ltb_lt; lia).
      cbn [andb].
      destruct (String.eqb_spec s substr) as [-> | _]; [| reflexivity].
      cbn [orb]. symmetry. apply scanFrom_occurs; [lia |].
      exists EmptyString, EmptyString. cbn. now rewrite string_app_empty_r.
Qed.

(** ** Lower case *)

Lemma lowerByte_not_upper (c : ascii) : isUpper (lowerByte c) = false.
Proof. destruct c as [[] [] [] [] [] [] [] []]; reflexivity. Qed.

Lemma lowerByte_fixed (c : ascii) : isUpper c = false -> lowerByte c = c.
Proof. unfold isUpper, lowerByte. now intros ->. Qed.

(** X18.  [toLowerString] keeps the length, leaves no upper-case ASCII letter,
    and changes nothing in a string that has none, such as one that is
    already lower case or the bytes of a Chinese keyword. *)
Theorem toLowerString_spec (s : string) :
  String.length (toLowerString s) = String.length s
  /\ forallb (fun c => negb (isUpper c)) (bytesOf (toLowerString s)) = true
  /\ (forallb (fun c => negb (isUpper c)) (bytesOf s) = true -> toLowerString s = s)
  /\ toLowerString (toLowerString s) = toLowerString s.
Proof.
  induction s as [|c s (Hlen & Hlow & Hfix & Hidem)].
  - now repeat split.
  - cbn [toLowerString String.length bytesOf forallb].
    rewrite Hlen, Hlow, Hidem, lowerByte_not_upper.
    rewrite (lowerByte_fixed (lowerByte c) (lowerByte_not_upper c)).
    repeat split. intros H. apply andb_prop in H as [Hc Hs].
    rewrite (Hfix Hs), lowerByte_fixed; [reflexivity |].
    now destruct (isUpper c).
Qed.

End StringHelperFacts.

(* ================================================================== *)
(** * Trends, conditions and correlation *)
(* ================================================================== *)

Section TrendShape.
Import Float64 Analyzer.

(** Every path through [LinearRegression]: the failure value, or a checked
    slope with a clamped R². *)
Lemma LinearRegression_cases (values : list float64) :
  LinearRegression values = (zero, zero)
  \/ exists slope r2,
       LinearRegression values = (slope, Max zero (Min one r2))
       /\ invalid slope = false /\ invalid r2 = false.
Proof.
  unfold LinearRegression.
  destruct (ltb (lenOf values) (of_int 2)); [now left |].
  destruct (existsb invalid values); [now left |].
  destruct (invalid (meanYOf values)); [now left |].
  destruct (eqb (denominatorOf values) zero); [now left |].
  destruct (invalid (div (numeratorOf values) (denominatorOf values))) eqn:Hslope;
    [now left |].
  destruct (invalid (sub (meanYOf values)
                         (mul (div (numeratorOf values) (denominatorOf values))
                              (meanXOf values)))); [now left |].
  destruct (residualLoop 0 values _ _ _ zero zero) as [[ssRes ssTot]|];
    [| now left].
  destruct (invalid ssRes || invalid ssTot); [now left |].
  right. eexists. exists (if invalid (if eqb ssTot zero then one
                                       else sub one (div ssRes ssTot))
                          then zero
                          else if eqb ssTot zero then one
                               else sub one (div ssRes ssTot)).
  split; [reflexivity |]. split; [exact Hslope |].
  destruct (invalid (if eqb ssTot zero then one else sub one (div ssRes ssTot)))
    eqn:Hinv; [reflexivity | exact Hinv].
Qed.

(** X19.  The slope that [LinearRegression] returns is never NaN or infinite, and
    a series of fewer than two values gives slope 0 and R² 0. *)
Theorem LinearRegression_slope_valid (values : list float64) :
  invalid (fst (LinearRegression values)) = false
  /\ ((List.length values < 2)%nat -> LinearRegression values = (zero, zero)).
Proof.
  split.
  - destruct (LinearRegression_cases values) as [-> | (slope & r2 & -> & Hs & _)];
      [reflexivity | exact Hs].
  - intros Hlen. destruct values as [|y [|z values]]; [| | cbn in Hlen; lia];
      reflexivity.
Qed.

Lemma trendOf_wellFormed (values : list float64) : wellFormedTrend (trendOf values).
Proof.
  unfold trendOf, wellFormedTrend.
  assert (Hdir : forall slope,
             (getDirection slope = "increasing" /\ gtb slope threshold = true)
             \/ (getDirection slope = "decreasing"
                 /\ ltb slope (neg threshold) = true)
             \/ (getDirection slope = "stable"
                 /\ gtb slope threshold = false
                 /\ ltb slope (neg threshold) = false)).
  { intros slope. unfold getDirection.
    destruct (gtb slope threshold); [now left |].
    destruct (ltb slope (neg threshold)); [now right; left | now right; right]. }
  destruct (LinearRegression_cases values) as [-> | (slope & r2 & -> & Hs & Hr)];
    cbn [Slope R2 Direction].
  - repeat split; try reflexivity. apply Hdir.
  - destruct (clamp_bounds r2 Hr) as [Hlo Hhi]. repeat split; try assumption.
    apply Hdir.
Qed.

Lemma seriesOf_length (field : ProfileMetrics -> Z) (files : list ProfileFile) :
  List.length (seriesOf field files) = List.length (withMetrics files).
Proof.
  induction files as [|file files IH]; [reflexivity |].
  cbn [seriesOf withMetrics filter].
  destruct (Metrics file); cbn [List.length]; [now f_equal |]. exact IH.
Qed.

(** X20.  Which trends [CalculateTrends] reports.  For a group of at least three
    files it returns a value; the heap trend is there exactly for a heap
    group with at least three files that carry metrics, the goroutine trend
    exactly for such a goroutine group, and every other group gets a value
    with no trend in it. *)
Theorem CalculateTrends_shape (group : ProfileGroup) :
  (3 <= List.length (Files group))%nat ->
  exists trends,
    CalculateTrends group = Some trends
    /\ (HeapInuse trends <> None
        <-> GroupType group = "heap"
            /\ (3 <= List.length (withMetrics (Files group)))%nat)
    /\ (GoroutineCountTrend trends <> None
        <-> GroupType group = "goroutine"
            /\ (3 <= List.length (withMetrics (Files group)))%nat).
Proof.
  intros Hlen. unfold CalculateTrends.
  replace (Z.of_nat (List.length (Files group)) <? 3) with false
    by (symmetry; apply Z.ltb_ge; lia).
  destruct (String.eqb_spec (GroupType group) "heap") as [Hheap | Hheap].
  - eexists. split; [reflexivity |]. cbn [HeapInuse GoroutineCountTrend].
    rewrite seriesOf_length, Hheap.
    destruct (Z.leb_spec 3 (Z.of_nat (List.length (withMetrics (Files group))))).
    + split; split; try congruence; try (intros [? ?]; congruence).
      intros _. split; [reflexivity | lia].
    + split; split; try congruence; intros [? ?]; try congruence; lia.
  - destruct (String.eqb_spec (GroupType group) "goroutine") as [Hgo | Hgo].
    + eexists. split; [reflexivity |]. cbn [HeapInuse GoroutineCountTrend].
      rewrite seriesOf_length, Hgo.
      destruct (Z.leb_spec 3 (Z.of_nat (List.length (withMetrics (Files group))))).
      * split; split; try congruence; try (intros [? ?]; congruence).
        intros _. split; [reflexivity | lia].
      * split; split; try congruence; intros [? ?]; try congruence; lia.
    + eexists. split; [reflexivity |]. cbn [HeapInuse GoroutineCountTrend].
      split; split; try congruence; intros [? ?]; congruence.
Qed.

(** X21.  Every trend that [CalculateTrends] reports is well formed: the slope is
    neither NaN nor infinite, R² lies between 0 and 1, and the direction is
    "increasing", "decreasing" or "stable" as the slope compares with the
    threshold 0.01. *)
Theorem CalculateTrends_well_formed (group : ProfileGroup) (trends : GroupTrends)
    (t : TrendMetrics) :
  CalculateTrends group = Some trends ->
  HeapInuse trends = Some t \/ GoroutineCountTrend trends = Some t ->
  wellFormedTrend t.
Proof.
  unfold CalculateTrends.
  destruct (Z.of_nat (List.length (Files group)) <? 3); [discriminate |].
  destruct (String.eqb (GroupType group) "heap").
  - intros [= <-]. cbn [HeapInuse GoroutineCountTrend].
    destruct (3 <=? _); intros [[= <-] | [=]]. apply trendOf_wellFormed.
  - destruct (String.eqb (GroupType group) "goroutine").
    + intros [= <-]. cbn [HeapInuse GoroutineCountTrend].
      destruct (3 <=? _); intros [[=] | [= <-]]. apply trendOf_wellFormed.
    + intros [= <-]. cbn. intros [[=] | [=]].
Qed.

End TrendShape.

Section ConditionFacts.
Import Float64 Analyzer Rules Rules.

(** X22.  A single-type condition, evaluated on a group with the trends that
    [CalculateTrends] computes for it, fires only in three ways: the CPU
    presence check on a CPU group that has files, the heap check on a heap
    group, or the goroutine check on a goroutine group, the last two only
    with at least three files that carry metrics.  A heap condition never
    fires on a goroutine group, nor the other way round. *)
Theorem evaluateCondition_by_type (condition : string) (group : ProfileGroup) :
  evaluateCondition condition group (CalculateTrends group) = true ->
  (condition = "cpu_profile_exists" /\ GroupType group = "cpu" /\ Files group <> [])
  \/ (GroupType group = "heap"
      /\ contains condition "heap_inuse" = true
      /\ contains condition "slope" = true
      /\ (3 <= List.length (withMetrics (Files group)))%nat)
  \/ (GroupType group = "goroutine"
      /\ contains condition "goroutine_count" = true
      /\ contains condition "slope" = true
      /\ (3 <= List.length (withMetrics (Files group)))%nat).
Proof.
  unfold evaluateCondition.
  destruct (String.eqb_spec condition "cpu_profile_exists") as [Hc | _];
    [destruct (String.eqb_spec (GroupType group) "cpu") as [Hg | _] |];
    cbn [andb].
  1: { intros H. left. repeat split; try assumption.
       intros E. rewrite E in H. discriminate. }
  all: unfold CalculateTrends;
    (destruct (Z.of_nat (List.length (Files group)) <? 3); [discriminate |]);
    (destruct (String.eqb_spec (GroupType group) "heap") as [Hheap | _];
     [| destruct (String.eqb_spec (GroupType group) "goroutine") as [Hgo | _]]);
    cbn [HeapInuse GoroutineCountTrend]; try discriminate;
    rewrite seriesOf_length;
    (destruct (Z.leb_spec 3 (Z.of_nat (List.length (withMetrics (Files group)))));
     [| discriminate]).
  all: try (destruct (gtb _ _ && gtb _ _ && contains condition "heap_inuse"
                      && contains condition "slope" && _) eqn:Hfire;
            [| discriminate];
            intros _; right; left;
            apply andb_prop in Hfire as [Hfire _];
            apply andb_prop in Hfire as [Hfire Hslope];
            apply andb_prop in Hfire as [_ Hheapc];
            repeat split; try assumption; lia).
  all: intros Hfire; right; right;
    apply andb_prop in Hfire as [Hfire _];
    apply andb_prop in Hfire as [Hfire Hslope];
    apply andb_prop in Hfire as [_ Hgoc];
    repeat split; try assumption; lia.
Qed.

(** ** Correlation *)

Lemma sameDirection_loop_set (trends : list TrendMetrics) (d : string) :
  d <> EmptyString ->
  forall result,
    sameDirection_loop trends d = Some result
    <-> result = d
        /\ forall t, In t trends -> Direction t = d \/ Direction t = "present".
Proof.
  intros Hd. induction trends as [|t trends IH]; intros result;
    cbn [sameDirection_loop].
  - split; [intros [= <-]; split; [reflexivity | intros t []] | intros [-> _]];
      reflexivity.
  - destruct (String.eqb_spec (Direction t) "present") as [Hp | Hnp].
    + rewrite IH. split; intros [-> Hall]; (split; [reflexivity |]).
      * intros t' [<- | Hin]; [now right | now apply Hall].
      * intros t' Hin. apply Hall. now right.
    + destruct (String.eqb_spec d EmptyString) as [E | _]; [contradiction |].
      destruct (String.eqb_spec d (Direction t)) as [Heq | Hneq]; cbn [negb].
      * rewrite IH. split; intros [-> Hall]; (split; [reflexivity |]).
        -- intros t' [<- | Hin]; [now left | now apply Hall].
        -- intros t' Hin. apply Hall. now right.
      * split; [discriminate |]. intros [_ Hall]. exfalso.
        destruct (Hall t (or_introl eq_refl)) as [E | E]; congruence.
Qed.

Lemma sameDirection_loop_unset (trends : list TrendMetrics) :
  (forall t, In t trends -> Direction t <> EmptyString) ->
  forall result,
    sameDirection_loop trends EmptyString = Some result
    <-> (result = EmptyString /\ forall t, In t trends -> Direction t = "present")
        \/ (result <> EmptyString /\ result <> "present"
            /\ (exists t, In t trends /\ Direction t = result)
            /\ forall t, In t trends ->
                 Direction t = result \/ Direction t = "present").
Proof.
  induction trends as [|t trends IH]; intros Hne result; cbn [sameDirection_loop].
  - split.
    + intros [= <-]. left. split; [reflexivity | intros t []].
    + intros [[-> _] | (_ & _ & (t & [] & _) & _)]. reflexivity.
  - assert (Hne' : forall t', In t' trends -> Direction t' <> EmptyString)
      by (intros t' Hin; apply Hne; now right).
    assert (Ht : Direction t <> EmptyString) by (apply Hne; now left).
    destruct (String.eqb_spec (Direction t) "present") as [Hp | Hnp].
    + rewrite (IH Hne'). split.
      * intros [[-> Hall] | (Hr & Hrp & (t' & Hin & Hd) & Hall)].
        -- left. split; [reflexivity |]. intros t' [<- | Hin]; [exact Hp | now apply Hall].
        -- right. repeat split; try assumption.
           ++ exists t'. split; [now right | exact Hd].
           ++ intros t'' [<- | Hin']; [now right | now apply Hall].
      * intros [[-> Hall] | (Hr & Hrp & (t' & Hin & Hd) & Hall)].
        -- left. split; [reflexivity |]. intros t' Hin. apply Hall. now right.
        -- right. repeat split; try assumption.
           ++ destruct Hin as [<- | Hin]; [congruence |]. now exists t'.
           ++ intros t'' Hin'. apply Hall. now right.
    + cbn [String.eqb]. rewrite (sameDirection_loop_set trends (Direction t) Ht).
      split.
      * intros [-> Hall]. right. repeat split; try assumption.
        -- exists t. split; [now left | reflexivity].
        -- intros t' [<- | Hin]; [now left | now apply Hall].
      * intros [[_ Hall] | (Hr & Hrp & _ & Hall)].
        -- exfalso. apply Hnp. apply Hall. now left.
        -- destruct (Hall t (or_introl eq_refl)) as [E | E]; [| contradiction].
           split; [now symmetry |]. intros t' Hin. rewrite E. apply Hall. now right.
Qed.

(** X23.  The correlation "same_direction" holds exactly when the matched trends
    that have a direction (the CPU entry "present" has none) all have the
    same one and there is at least one of them, in whatever order the map is
    visited, as long as no direction is the empty string, which the loop uses
    for "not yet seen". *)
Theorem checkCorrelation_same_direction
    (matchedTrends : list (string * TrendMetrics)) :
  (forall entry, In entry matchedTrends -> Direction (snd entry) <> EmptyString) ->
  checkCorrelation "same_direction" matchedTrends = true
  <-> exists d, oneDirection d matchedTrends.
Proof.
  intros Hne. unfold checkCorrelation. cbn [String.eqb Ascii.eqb Bool.eqb].
  assert (Hne' : forall t, In t (map snd matchedTrends) -> Direction t <> EmptyString).
  { intros t Hin. apply in_map_iff in Hin as (entry & <- & Hin). now apply Hne. }
  pose proof (sameDirection_loop_unset (map snd matchedTrends) Hne') as Hloop.
  destruct (sameDirection_loop (map snd matchedTrends) EmptyString) as [result|].
  - split.
    + intros Hres. exists result.
      destruct (proj1 (Hloop result) eq_refl)
        as [[-> _] | (Hr & Hrp & (t & Hin & Hd) & Hall)]; [discriminate |].
      split; [exact Hrp |]. split.
      * apply in_map_iff in Hin as (entry & <- & Hin). now exists entry.
      * intros entry Hin'. apply Hall. now apply in_map.
    + intros (d & Hdp & (entry & Hin & Hd) & Hall).
      assert (Hd' : d <> EmptyString) by (rewrite <- Hd; now apply Hne).
      destruct (String.eqb_spec result EmptyString) as [-> | _]; [| reflexivity].
      exfalso. destruct (proj1 (Hloop EmptyString) eq_refl)
        as [[_ Hpresent] | (Hr & _)]; [| now apply Hr].
      apply Hdp. rewrite <- Hd. apply Hpresent. now apply in_map.
  - split; [discriminate |].
    intros (d & Hdp & (entry & Hin & Hd) & Hall). exfalso.
    assert (Hd' : d <> EmptyString) by (rewrite <- Hd; now apply Hne).
    assert (Hnone : None = Some d -> False) by discriminate.
    apply Hnone. apply (Hloop d). right. repeat split; try assumption.
    + exists (snd entry). split; [now apply in_map | exact Hd].
    + intros t Hin'. apply in_map_iff in Hin' as (entry' & <- & Hin'). now apply Hall.
Qed.

End ConditionFacts.

(** Without the restriction the order matters: an empty direction is taken
    for "not yet seen". *)
Example checkCorrelation_empty_direction :
  Rules.checkCorrelation "same_direction"
    [trendEntry "heap" EmptyString; trendEntry "goroutine" "increasing"] = true
  /\ Rules.checkCorrelation "same_direction"
       [trendEntry "goroutine" "increasing"; trendEntry "heap" EmptyString] = false.
Proof. split; reflexivity. Qed.

Lemma checkCorrelation_same_direction_witness :
  Rules.checkCorrelation "same_direction"
    [trendEntry "cpu" "present"; trendEntry "heap" "increasing";
     trendEntry "goroutine" "increasing"] = true.
Proof.
  apply checkCorrelation_same_direction.
  - intros entry [<- | [<- | [<- | []]]]; discriminate.
  - exists "increasing". split; [discriminate |]. split.
    + exists (trendEntry "heap" "increasing"). split; [right; now left | reflexivity].
    + intros entry [<- | [<- | [<- | []]]]; [now right | now left | now left].
Defined.

(* ================================================================== *)
(** * Numerals and the category summary *)
(* ================================================================== *)

Section DigitFacts.
Import Locator.

Lemma valueOf_from_app (a b : string) :
  forall acc, valueOf_from acc (a ++ b) = valueOf_from (valueOf_from acc a) b.
Proof. induction a as [|c a IH]; intros acc; cbn; [reflexivity | apply IH]. Qed.

Lemma digitString_value (d : Z) :
  0 <= d <= 9 ->
  forall acc, valueOf_from acc (digitString d) = acc * 10 + d.
Proof.
  intros Hd acc. unfold digitString. cbn [valueOf_from].
  rewrite nat_ascii_embedding by lia. lia.
Qed.

Lemma digitString_digit (d : Z) :
  0 <= d <= 9 -> forallb isDigit (bytesOf (digitString d)) = true.
Proof.
  intros Hd. unfold digitString, isDigit. cbn [bytesOf forallb].
  rewrite nat_ascii_embedding by lia.
  rewrite andb_true_r. apply andb_true_intro. split; apply Nat.leb_le; lia.
Qed.

Lemma bytesOf_app (a b : string) : bytesOf (a ++ b) = (bytesOf a ++ bytesOf b)%list.
Proof. induction a as [|c a IH]; cbn; [reflexivity | now rewrite IH]. Qed.

Lemma itoa_loop_acc (fuel : nat) :
  forall n s, itoa_loop fuel n s = itoa_loop fuel n EmptyString ++ s.
Proof.
  induction fuel as [|fuel IH]; intros n s; cbn [itoa_loop]; [reflexivity |].
  destruct (0 <? n); [| reflexivity].
  rewrite (IH _ (digitString (n mod 10) ++ s)),
          (IH _ (digitString (n mod 10) ++ EmptyString)).
  now rewrite string_app_assoc.
Qed.

(** With enough fuel the loop writes the numeral of [n], and nothing for 0. *)
Lemma itoa_loop_spec (fuel : nat) :
  forall n, 0 <= n < 2 ^ Z.of_nat fuel ->
    let s := itoa_loop fuel n EmptyString in
    valueOf s = n
    /\ forallb isDigit (bytesOf s) = true
    /\ (n = 0 -> s = EmptyString)
    /\ (0 < n -> exists c rest, s = String c rest /\ Ascii.eqb c "0" = false).
Proof.
  induction fuel as [|fuel IH]; intros n Hn; cbv zeta.
  - cbn in Hn. assert (n = 0) as -> by lia. cbn. repeat split. lia.
  - cbn [itoa_loop]. destruct (Z.ltb_spec 0 n) as [Hpos | Hzero].
    2: { assert (n = 0) as -> by lia. cbn. repeat split. lia. }
    rewrite itoa_loop_acc, string_app_empty_r.
    assert (Hq : 0 <= n / 10 < 2 ^ Z.of_nat fuel).
    { split; [apply Z.div_pos; lia |].
      rewrite Nat2Z.inj_succ, Z.pow_succ_r in Hn by lia.
      apply Z.div_lt_upper_bound; lia. }
    assert (Hd : 0 <= n mod 10 <= 9) by (pose proof (Z.mod_pos_bound n 10); lia).
    destruct (IH (n / 10) Hq) as (Hval & Hdig & Hnil & Hhead).
    split; [| split; [| split]].
    + unfold valueOf in *. rewrite valueOf_from_app, Hval, digitString_value by exact Hd.
      pose proof (Z.div_mod n 10). lia.
    + rewrite bytesOf_app, forallb_app, Hdig. now apply digitString_digit.
    + lia.
    + intros _. destruct (Z.eq_dec (n / 10) 0) as [Hq0 | Hq0].
      * rewrite (Hnil Hq0). cbn [append]. unfold digitString.
        eexists. eexists. split; [reflexivity |].
        assert (Hsmall : n < 10)
          by (destruct (Z.lt_ge_cases n 10) as [? | Hbig]; [assumption |];
              pose proof (Z.div_le_lower_bound n 10 1); lia).
        assert (Hn10 : n mod 10 = n) by (apply Z.mod_small; lia).
        apply Ascii.eqb_neq. intros E.
        apply (f_equal nat_of_ascii) in E.
        rewrite nat_ascii_embedding in E by lia.
        change (nat_of_ascii "0") with 48%nat in E. lia.
      * destruct Hhead as (c & rest & -> & Hc); [lia |].
        exists c, (rest ++ digitString (n mod 10)). now split.
Qed.

Lemma log2_fuel (n : Z) : 0 <= n -> n < 2 ^ Z.of_nat (S (Z.to_nat (Z.log2 n))).
Proof.
  intros Hn. rewrite Nat2Z.inj_succ, Z2Nat.id by apply Z.log2_nonneg.
  destruct (Z.eq_dec n 0) as [-> | Hne]; [cbn; lia |].
  apply Z.log2_spec. lia.
Qed.

Lemma digitsOf_numeral (n : Z) :
  0 < n -> valueOf (digitsOf n) = n /\ isNumeral (digitsOf n) = true.
Proof.
  intros Hn. unfold digitsOf.
  destruct (itoa_loop_spec _ n (conj (Z.lt_le_incl _ _ Hn) (log2_fuel n (Z.lt_le_incl _ _ Hn))))
    as (Hval & Hdig & _ & Hhead).
  split; [exact Hval |].
  destruct (Hhead Hn) as (c & rest & E & Hc). rewrite E in *.
  unfold isNumeral. rewrite Hdig, Hc. reflexivity.
Qed.

Lemma itoa_nonneg (depth : nat) (n : Z) :
  0 <= n ->
  exists s, itoa depth n = Some s /\ valueOf s = n /\ isNumeral s = true.
Proof.
  intros Hn. destruct (Z.eq_dec n 0) as [-> | Hne].
  - exists "0". destruct depth; repeat split.
  - destruct (digitsOf_numeral n) as [Hval Hnum]; [lia |].
    exists (digitsOf n). split; [| now split].
    destruct depth; cbn [itoa];
      (destruct (Z.eqb_spec n 0); [lia |]);
      (destruct (Z.ltb_spec n 0); [lia | reflexivity]).
Qed.

(** X24.  [itoa] on the 64-bit integers.  For 0 and the positive numbers it
    returns the decimal numeral; for a negative number other than the least
    one it returns a minus sign and the numeral of the absolute value; for
    the least 64-bit integer, whose negation is itself, the recursion on
    [-n] never ends. *)
Theorem itoa_spec (n : Z) :
  - 2 ^ 63 <= n < 2 ^ 63 ->
  (0 <= n ->
     forall depth,
       exists s, itoa depth n = Some s /\ valueOf s = n /\ isNumeral s = true)
  /\ (- 2 ^ 63 < n < 0 ->
        forall depth,
          exists s, itoa (S depth) n = Some ("-" ++ s)
                    /\ valueOf s = - n /\ isNumeral s = true)
  /\ (n = - 2 ^ 63 -> forall depth, itoa depth n = None).
Proof.
  intros Hrange. split; [| split].
  - intros Hn depth. now apply itoa_nonneg.
  - intros Hn depth. cbn [itoa].
    destruct (Z.eqb_spec n 0); [lia |]. destruct (Z.ltb_spec n 0); [| lia].
    rewrite wrap_small by lia.
    destruct (itoa_nonneg depth (- n)) as (s & -> & Hval & Hnum); [lia |].
    exists s. now repeat split.
  - intros -> depth. induction depth as [|depth IH]; [reflexivity |].
    cbn [itoa].
    change (- 2 ^ 63 =? 0) with false. change (- 2 ^ 63 <? 0) with true. cbv iota.
    change (Int64.wrap (- - 2 ^ 63)) with (- 2 ^ 63).
    now rewrite IH.
Qed.

End DigitFacts.

Section SegmentFacts.
Import Locator Locator.

Lemma expand_app (a b : list (option CodeCategory * Z)) :
  expand (a ++ b) = (expand a ++ expand b)%list.
Proof. apply flat_map_app. Qed.

Lemma repeat_snoc {A} (x : A) (n : nat) : repeat x (S n) = (repeat x n ++ [x])%list.
Proof. induction n as [|n IH]; [reflexivity |]. cbn in *. now rewrite <- IH. Qed.

Lemma differsFrom_false (cat : CodeCategory) (prev : option CodeCategory) :
  differsFrom cat prev = false -> prev = Some cat.
Proof.
  destruct prev as [p|]; [| discriminate]. cbn.
  destruct cat, p; cbn; intros H; try discriminate; reflexivity.
Qed.

Lemma flushSegment_positive segs cat count :
  0 < count ->
  flushSegment {| segments := segs; currentCategory := cat; currentCount := count |}
  = (segs ++ [(cat, count)])%list.
Proof.
  intros H. unfold flushSegment. cbn [segments currentCategory currentCount].
  now replace (0 <? count) with true by (symmetry; apply Z.ltb_lt; lia).
Qed.

Lemma segmentStep_inv (seen : list StackFrame) (st : SegmentState) (frame : StackFrame) :
  Z.of_nat (List.length seen) < 2 ^ 63 - 1 ->
  segmentsInv seen st -> segmentsInv (seen ++ [frame]) (segmentStep st frame).
Proof.
  intros Hlen (Hcur & Hcount & Hzero & Hexp & Hpos & Hseg).
  assert (Hlast : option_map Category (last (map Some (seen ++ [frame])) None)
                  = Some (Category frame)).
  { now rewrite last_map_Some. }
  unfold segmentsInv. rewrite Hlast, FindBoundaryPoints_snoc, <- Hcur.
  rewrite !List.length_app, map_app. cbn [List.length map].
  unfold segmentStep.
  destruct (differsFrom (Category frame) (currentCategory st)) eqn:Hdiff;
    cbn [segments currentCategory currentCount].
  - rewrite flushSegment_positive by lia.
    rewrite expand_app, Hexp. cbn [andb].
    split; [reflexivity |]. split; [lia |]. split; [intros; lia |].
    split; [reflexivity |]. split.
    + apply Forall_app. split; [exact Hpos |]. constructor; [cbn; lia | constructor].
    + rewrite andb_true_r. unfold flushSegment.
      destruct (Z.ltb_spec 0 (currentCount st)) as [Hc | Hc].
      * replace (0 <? Z.of_nat (List.length seen)) with true
          by (symmetry; apply Z.ltb_lt; lia).
        rewrite !List.length_app, Hseg. reflexivity.
      * assert (seen = []) as -> by (apply Hzero; lia).
        cbn in *. lia.
  - rewrite andb_false_r. cbn [List.length]. rewrite Nat.add_0_r.
    apply differsFrom_false in Hdiff.
    unfold Int64.add. rewrite wrap_small by lia.
    rewrite flushSegment_positive by lia.
    split; [exact Hdiff |]. split; [lia |]. split; [intros; lia |].
    unfold flushSegment in Hexp, Hpos.
    destruct (Z.ltb_spec 0 (currentCount st)) as [Hc | Hc].
    + rewrite expand_app in *. cbn [expand flat_map fst snd] in *.
      rewrite app_nil_r in *.
      replace (Z.to_nat (currentCount st + 1)) with (S (Z.to_nat (currentCount st)))
        by lia.
      rewrite repeat_snoc, app_assoc, Hexp, Hdiff.
      split; [reflexivity |]. split; [| exact Hseg].
      apply Forall_app in Hpos as [Hpos _]. apply Forall_app.
      split; [exact Hpos |]. constructor; [cbn; lia | constructor].
    + assert (seen = []) as -> by (apply Hzero; lia).
      rewrite Hcur in Hdiff. discriminate Hdiff.
Qed.

Lemma segments_inv (frames : list StackFrame) :
  Z.of_nat (List.length frames) < 2 ^ 63 ->
  segmentsInv frames (fold_left segmentStep frames noSegments).
Proof.
  induction frames as [|frame frames IH] using rev_ind; intros Hlen.
  - cbn. unfold segmentsInv. cbn. repeat split; try lia. constructor.
  - rewrite List.length_app in Hlen. cbn [List.length] in Hlen.
    rewrite fold_left_app. cbn [fold_left].
    apply segmentStep_inv; [lia |]. apply IH. lia.
Qed.

(** X25.  The segments of [GenerateCategorySummary] are the runs of the
    categories of the frames: expanding each segment to as many copies of its
    category as its count says gives back the categories in order, every
    count is at least 1, and the segments are one more than the boundary
    points that [FindBoundaryPoints] finds, so a segment never continues the
    category of the one before. *)
Theorem segmentsOf_runs (frames : list StackFrame) :
  Z.of_nat (List.length frames) < 2 ^ 63 ->
  expand (segmentsOf frames) = map (fun frame => Some (Category frame)) frames
  /\ Forall (fun seg => 1 <= snd seg) (segmentsOf frames)
  /\ (frames <> [] ->
      List.length (segmentsOf frames)
      = S (List.length (FindBoundaryPoints frames))).
Proof.
  intros Hlen. destruct (segments_inv frames Hlen) as (_ & Hcount & Hzero & Hexp & Hpos & Hseg).
  unfold segmentsOf. split; [exact Hexp |]. split; [exact Hpos |].
  intros Hne. unfold flushSegment.
  destruct (Z.ltb_spec 0 (currentCount (fold_left segmentStep frames noSegments)))
    as [Hc | Hc].
  - rewrite List.length_app, Hseg. cbn. lia.
  - exfalso. apply Hne, Hzero. lia.
Qed.

End SegmentFacts.

Section SummaryFacts.
Import GoStrings Locator Locator.

Lemma itoa_positive (depth : nat) (n : Z) : 0 < n -> itoa depth n = Some (digitsOf n).
Proof.
  intros Hn. destruct depth; cbn [itoa];
    (destruct (Z.eqb_spec n 0); [lia |]);
    (destruct (Z.ltb_spec n 0); [lia | reflexivity]).
Qed.

Lemma summaryLoop_Join (depth : nat) (segs : list (option CodeCategory * Z)) :
  Forall (fun seg => 1 <= snd seg) segs ->
  forall i result, 0 <= i ->
    summaryLoop depth i segs result
    = Some (result
            ++ match segs with
               | [] => EmptyString
               | _ => (if 0 <? i then " → " else EmptyString)
                      ++ Join (map segmentText segs) " → "
               end).
Proof.
  induction 1 as [|seg segs Hseg Hsegs IH]; intros i result Hi;
    cbn [summaryLoop].
  - now rewrite string_app_empty_r.
  - rewrite itoa_positive by lia. rewrite IH by lia. f_equal.
    fold (segmentText seg).
    replace (0 <? i + 1) with true by (symmetry; apply Z.ltb_lt; lia).
    destruct segs as [|next segs].
    + cbn [map Join]. destruct (0 <? i);
        now rewrite ?string_app_assoc, ?string_app_empty_r.
    + cbn [map Join]. destruct (0 <? i); now rewrite ?string_app_assoc.
Qed.

(** X26.  [GenerateCategorySummary] returns, for every list of frames (of a length
    a slice can have), the segments joined by arrows, each shown as its count
    and the name of its category; the call of [itoa] is always on a positive
    count, so it returns whatever the recursion bound. *)
Theorem GenerateCategorySummary_spec (depth : nat) (frames : list StackFrame) :
  Z.of_nat (List.length frames) < 2 ^ 63 ->
  GenerateCategorySummary depth frames
  = Some (match frames with
          | [] => "空调用链"
          | _ => Join (map segmentText (segmentsOf frames)) " → "
          end).
Proof.
  intros Hlen. unfold GenerateCategorySummary.
  destruct frames as [|frame frames]; [reflexivity |].
  replace (Z.of_nat (List.length (frame :: frames)) =? 0) with false
    by (symmetry; apply Z.eqb_neq; cbn [List.length]; lia).
  destruct (segments_inv (frame :: frames) Hlen) as (_ & _ & Hzero & _ & Hpos & _).
  fold (segmentsOf (frame :: frames)) in Hpos.
  rewrite (summaryLoop_Join depth _ Hpos 0 EmptyString) by lia.
  cbn [append]. f_equal.
  destruct (segmentsOf (frame :: frames)) eqn:E; [| reflexivity].
  exfalso. unfold segmentsOf, flushSegment in E.
  destruct (Z.ltb_spec 0 (currentCount (fold_left segmentStep (frame :: frames) noSegments)))
    as [Hc | Hc].
  - destruct (segments _); discriminate E.
  - assert (frame :: frames = []) by (apply Hzero; 
      destruct (segments_inv (frame :: frames) Hlen) as (_ & Hcount & _); lia).
    discriminate.
Qed.

End SummaryFacts.

Lemma segmentsOf_runs_witness :
  Locator.segmentsOf handlerChain
  = [ (Some Locator.CategoryBusiness, 1); (Some Locator.CategoryStdlib, 1);
      (Some Locator.CategoryRuntime, 1) ]
  /\ List.length (Locator.segmentsOf handlerChain)
     = S (List.length (Locator.FindBoundaryPoints handlerChain)).
Proof.
  split; [reflexivity |].
  apply (segmentsOf_runs handlerChain); [vm_compute; reflexivity | discriminate].
Defined.

Lemma GenerateCategorySummary_spec_witness :
  Locator.GenerateCategorySummary 0 handlerChain
  = Some "1 业务 → 1 标准库 → 1 运行时".
Proof.
  rewrite (GenerateCategorySummary_spec 0 handlerChain); [| vm_compute; reflexivity].
  vm_compute. reflexivity.
Defined.

Lemma itoa_spec_witness :
  (exists s, Locator.itoa 0 42 = Some s /\ valueOf s = 42 /\ isNumeral s = true)
  /\ Locator.itoa 0 42 = Some "42".
Proof.
  split; [| reflexivity].
  destruct (itoa_spec 42) as [Hnonneg _]; [lia |].
  apply Hnonneg. lia.
Defined.

(* ================================================================== *)
(** * Formatting of integers *)
(* ================================================================== *)

Section FormatFacts.
Import Analyzer.

Lemma itoa_loop_same fuel n s : itoa_loop fuel n s = Locator.itoa_loop fuel n s.
Proof. reflexivity. Qed.

Lemma itoa_digitsOf (n : Z) : n <> 0 -> itoa n = Locator.digitsOf n.
Proof.
  intros Hn. unfold itoa. destruct (Z.eqb_spec n 0); [contradiction | reflexivity].
Qed.

Lemma itoa_nonneg_numeral (n : Z) :
  0 <= n -> valueOf (itoa n) = n /\ isNumeral (itoa n) = true.
Proof.
  intros Hn. destruct (Z.eq_dec n 0) as [-> | Hne]; [now split |].
  rewrite itoa_digitsOf by exact Hne. apply digitsOf_numeral. lia.
Qed.

(** X27.  The package's [itoa] writes the decimal numeral of a number that is not
    negative, and the empty string, without sign or digits, for a negative
    one. *)
Theorem itoa_numeral (n : Z) :
  (0 <= n -> valueOf (itoa n) = n /\ isNumeral (itoa n) = true)
  /\ (n < 0 -> itoa n = EmptyString).
Proof.
  split; [apply itoa_nonneg_numeral |].
  intros Hn. unfold itoa. destruct (Z.eqb_spec n 0); [lia |].
  cbn [itoa_loop]. now replace (0 <? n) with false by (symmetry; apply Z.ltb_ge; lia).
Qed.

Lemma threeDigits_checked : forallb threeDigitsOk (seq 0 1000) = true.
Proof. vm_compute. reflexivity. Qed.

Lemma formatThreeDigits_ok (r : Z) :
  0 <= r < 1000 ->
  String.length (formatThreeDigits r) = 3%nat
  /\ forallb isDigit (bytesOf (formatThreeDigits r)) = true
  /\ valueOf (formatThreeDigits r) = r.
Proof.
  intros Hr. pose proof threeDigits_checked as H.
  rewrite forallb_forall in H. specialize (H (Z.to_nat r)).
  unfold threeDigitsOk in H. rewrite Z2Nat.id in H by lia.
  assert (Hin : In (Z.to_nat r) (seq 0 1000)) by (apply in_seq; lia).
  apply H in Hin. apply andb_prop in Hin as [Hin Hval].
  apply andb_prop in Hin as [Hlen Hdig].
  split; [now apply Nat.eqb_eq | split; [exact Hdig | now apply Z.eqb_eq]].
Qed.

Lemma formatInt_loop_app (fuel : nat) :
  forall i acc rest, acc <> EmptyString ->
    formatInt_loop fuel i (acc ++ rest) = formatInt_loop fuel i acc ++ rest.
Proof.
  induction fuel as [|fuel IH]; intros i acc rest Hacc; cbn [formatInt_loop];
    [reflexivity |].
  destruct (0 <? i); [| reflexivity].
  assert (Hne : String.eqb (acc ++ rest) EmptyString = false)
    by (destruct acc; [contradiction | reflexivity]).
  assert (Hne' : String.eqb acc EmptyString = false)
    by (destruct acc; [contradiction | reflexivity]).
  rewrite Hne, Hne'. cbn [negb].
  destruct (1000 <=? i).
  - rewrite <- (IH _ (formatThreeDigits (i mod 1000) ++ "," ++ acc) rest).
    + now rewrite !string_app_assoc.
    + destruct (formatThreeDigits (i mod 1000)); discriminate.
  - now rewrite !string_app_assoc.
Qed.

Lemma formatInt_loop_fuel (fuel : nat) :
  forall fuel' i s,
    0 <= i < 2 ^ Z.of_nat fuel -> i < 2 ^ Z.of_nat fuel' ->
    formatInt_loop fuel i s = formatInt_loop fuel' i s.
Proof.
  induction fuel as [|fuel IH]; intros fuel' i s Hi Hi'.
  - assert (i = 0) as -> by (cbn in Hi; lia). now destruct fuel'.
  - destruct fuel' as [|fuel'].
    + assert (i = 0) as -> by (cbn in Hi'; lia). reflexivity.
    + cbn [formatInt_loop]. destruct (0 <? i); [| reflexivity].
      destruct (1000 <=? i); [| reflexivity].
      rewrite !Nat2Z.inj_succ, !Z.pow_succ_r in * by lia.
      apply IH.
      * split; [apply Z.div_pos; lia | apply Z.div_lt_upper_bound; lia].
      * apply Z.div_lt_upper_bound; lia.
Qed.

Lemma formatInt_loop_length (fuel : nat) :
  forall i s, (String.length s <= String.length (formatInt_loop fuel i s))%nat.
Proof.
  induction fuel as [|fuel IH]; intros i s; cbn [formatInt_loop]; [lia |].
  destruct (0 <? i); [| lia].
  assert (Hs : (String.length s
                <= String.length (if negb (String.eqb s EmptyString)
                                  then "," ++ s else s))%nat)
    by (destruct (negb (String.eqb s EmptyString)); cbn; lia).
  destruct (1000 <=? i).
  - eapply Nat.le_trans; [| apply IH]. rewrite string_length_app. lia.
  - rewrite string_length_app. lia.
Qed.

Lemma itoa_nonempty (n : Z) : 0 < n -> itoa n <> EmptyString.
Proof.
  intros Hn E. destruct (itoa_nonneg_numeral n) as [_ Hnum]; [lia |].
  rewrite E in Hnum. discriminate.
Qed.

Lemma formatInt_loop_nonempty (fuel : nat) (i : Z) :
  0 < i -> formatInt_loop (S fuel) i EmptyString <> EmptyString.
Proof.
  intros Hi. cbn [formatInt_loop].
  replace (0 <? i) with true by (symmetry; apply Z.ltb_lt; lia).
  cbn [String.eqb negb]. destruct (1000 <=? i).
  - intros E. pose proof (formatInt_loop_length fuel (i / 1000)
                            (formatThreeDigits (i mod 1000) ++ EmptyString)) as Hlen.
    rewrite E, string_app_empty_r in Hlen.
    destruct (formatThreeDigits_ok (i mod 1000)) as [H3 _];
      [apply Z.mod_pos_bound; lia |].
    rewrite H3 in Hlen. cbn in Hlen. lia.
  - rewrite string_app_empty_r. now apply itoa_nonempty.
Qed.

(** X28.  [formatInt] groups the digits in threes from the right: a number below
    1000 is written as [itoa] writes it, a larger one as the format of its
    thousands, a comma and the last three digits; a number that is zero or
    negative is written "0", so the sign of a negative number is lost. *)
Theorem formatInt_groups (i : Z) :
  (i <= 0 -> formatInt i = "0")
  /\ (0 < i < 1000 -> formatInt i = itoa i)
  /\ (1000 <= i ->
      formatInt i
      = formatInt (i / 1000) ++ "," ++ formatThreeDigits (i mod 1000)).
Proof.
  split; [| split].
  - intros Hi. unfold formatInt. cbn [formatInt_loop].
    now replace (0 <? i) with false by (symmetry; apply Z.ltb_ge; lia).
  - intros Hi. unfold formatInt. cbn [formatInt_loop].
    replace (0 <? i) with true by (symmetry; apply Z.ltb_lt; lia).
    replace (1000 <=? i) with false by (symmetry; apply Z.leb_gt; lia).
    cbn [String.eqb negb]. rewrite string_app_empty_r.
    pose proof (itoa_nonempty i) as Hne.
    destruct (itoa i); [exfalso; apply Hne; [lia | reflexivity] | reflexivity].
  - intros Hi.
    assert (Hq : 0 < i / 1000) by (pose proof (Z.div_le_lower_bound i 1000 1); lia).
    set (three := formatThreeDigits (i mod 1000)).
    assert (Hthree : three <> EmptyString).
    { intros E. destruct (formatThreeDigits_ok (i mod 1000)) as [H3 _];
        [apply Z.mod_pos_bound; lia |]. fold three in H3. now rewrite E in H3. }
    assert (Hloop : formatInt_loop (S (Z.to_nat (Z.log2 i))) i EmptyString
                    = formatInt_loop (S (Z.to_nat (Z.log2 (i / 1000)))) (i / 1000)
                        EmptyString ++ "," ++ three).
    { cbn [formatInt_loop].
      replace (0 <? i) with true by (symmetry; apply Z.ltb_lt; lia).
      replace (1000 <=? i) with true by (symmetry; apply Z.leb_le; lia).
      replace (0 <? i / 1000) with true by (symmetry; apply Z.ltb_lt; lia).
      cbn [String.eqb negb]. fold three. rewrite string_app_empty_r.
      assert (Hfuel : 0 <= i / 1000 < 2 ^ Z.of_nat (Z.to_nat (Z.log2 i))).
      { split; [lia |]. rewrite Z2Nat.id by apply Z.log2_nonneg.
        apply Z.div_lt_upper_bound; [lia |].
        pose proof (Z.log2_spec i ltac:(lia)) as [_ Hup].
        rewrite Z.pow_succ_r in Hup by apply Z.log2_nonneg. lia. }
      rewrite (formatInt_loop_fuel _ (S (Z.to_nat (Z.log2 (i / 1000)))) _ _ Hfuel)
        by (apply log2_fuel; lia).
      cbn [formatInt_loop].
      replace (0 <? i / 1000) with true by (symmetry; apply Z.ltb_lt; lia).
      assert (Hne : String.eqb three EmptyString = false)
        by (destruct three; [contradiction | reflexivity]).
      rewrite Hne. cbn [negb].
      destruct (1000 <=? i / 1000).
      - rewrite string_app_empty_r.
        rewrite <- formatInt_loop_app; [reflexivity |].
        intros E. destruct (formatThreeDigits_ok (i / 1000 mod 1000)) as [H3 _];
          [apply Z.mod_pos_bound; lia |]. now rewrite E in H3.
      - now rewrite string_app_empty_r. }
    unfold formatInt at 1. rewrite Hloop.
    pose proof (formatInt_loop_nonempty (Z.to_nat (Z.log2 (i / 1000))) (i / 1000) Hq)
      as Hne.
    unfold formatInt.
    destruct (formatInt_loop (S (Z.to_nat (Z.log2 (i / 1000)))) (i / 1000) EmptyString);
      [exfalso; now apply Hne | reflexivity].
Qed.

End FormatFacts.

Lemma itoa_numeral_witness :
  valueOf (Analyzer.itoa 42) = 42 /\ isNumeral (Analyzer.itoa 42) = true.
Proof.
  apply (proj1 (itoa_numeral 42)). lia.
Defined.

Lemma formatInt_groups_witness :
  Analyzer.formatInt 1234567
  = Analyzer.formatInt 1234 ++ "," ++ Analyzer.formatThreeDigits 567.
Proof.
  apply (proj2 (proj2 (formatInt_groups 1234567))). lia.
Defined.

(** A number of seven digits, and a negative one. *)
Example formatInt_examples :
  Analyzer.formatInt 1234567 = "1,234,567"
  /\ Analyzer.formatInt 1000 = "1,000"
  /\ Analyzer.formatInt (-5) = "0".
Proof. repeat split; vm_compute; reflexivity. Qed.

Lemma CalculateTrends_shape_witness :
  exists trends,
    Analyzer.CalculateTrends threeHeapProfiles = Some trends
    /\ (Analyzer.HeapInuse trends <> None
        <-> Analyzer.GroupType threeHeapProfiles = "heap"
            /\ (3 <= List.length (withMetrics (Analyzer.Files threeHeapProfiles)))%nat)
    /\ (Analyzer.GoroutineCountTrend trends <> None
        <-> Analyzer.GroupType threeHeapProfiles = "goroutine"
            /\ (3 <= List.length (withMetrics (Analyzer.Files threeHeapProfiles)))%nat).
Proof.
  apply (CalculateTrends_shape threeHeapProfiles). cbn. lia.
Defined.

Lemma CalculateTrends_well_formed_witness :
  wellFormedTrend
    (Analyzer.trendOf
       (Analyzer.seriesOf Analyzer.InuseSpace (Analyzer.Files threeHeapProfiles))).
Proof.
  apply (CalculateTrends_well_formed threeHeapProfiles
           {| Analyzer.HeapInuse :=
                Some (Analyzer.trendOf
                        (Analyzer.seriesOf Analyzer.InuseSpace
                           (Analyzer.Files threeHeapProfiles)));
              Analyzer.GoroutineCountTrend := None |}).
  - reflexivity.
  - left. reflexivity.
Defined.

(** Scenario S1: the heap rule fires on three heap profiles that grow. *)
Lemma evaluateCondition_by_type_witness :
  Analyzer.GroupType threeHeapProfiles = "heap"
  /\ Rules.contains "heap_inuse.slope > 10" "heap_inuse" = true.
Proof.
  destruct (evaluateCondition_by_type "heap_inuse.slope > 10" threeHeapProfiles)
    as [(Hc & _) | [(Hheap & Hcontains & _) | (Hgo & _)]].
  - vm_compute. reflexivity.
  - discriminate Hc.
  - split; assumption.
  - discriminate Hgo.
Defined.
